(** * Baltimore Lifeline: ingestion of the resource spreadsheet and the
      offline preparation utility

    A shallow embedding of [map/views.py] (the loader behind the map view)
    and of [MISC/xlsx_processor.py] (geocoding and recategorisation of the
    raw spreadsheet), followed by the properties of the normalisation
    contract.

    Conventions of the embedding.
    - A Python [str] is a [string]; the text is taken to be ASCII, so
      [str.strip], [str.lower], [str.split] and the regular expression
      class [\s] act on the ASCII white space and the letters A-Z only and
      leave every other byte alone.
    - A Python [float] is an IEEE 754 binary64 value, [spec_float] with
      precision 53 and maximal exponent 1024.
    - A spreadsheet or data frame cell is a value of [cell].
    - The two builtins the code relies on and whose algorithms are not part
      of the repository, [float] applied to a [str] and [str] applied to a
      [float], are the two operations of the class [PyBuiltins]. *)

From Stdlib Require Import ZArith Bool Ascii String List Lia.
From Stdlib Require Import Floats.SpecFloat.
From stdpp Require Import base option list strings gmap pretty.

Local Open Scope Z_scope.

(** ** Python strings *)

Module PyStr.

(** [str.isspace] on one ASCII character: TAB, LF, VT, FF, CR, the four
    separators FS, GS, RS, US, and the space. *)
Definition is_space (c : ascii) : bool :=
  let n := nat_of_ascii c in
  ((9 <=? n)%nat && (n <=? 13)%nat) || ((28 <=? n)%nat && (n <=? 32)%nat).

Definition lower_char (c : ascii) : ascii :=
  let n := nat_of_ascii c in
  if ((65 <=? n)%nat && (n <=? 90)%nat) then ascii_of_nat (n + 32) else c.

(** [str.lower] *)
Fixpoint lower (s : string) : string :=
  match s with
  | EmptyString => EmptyString
  | String c s' => String (lower_char c) (lower s')
  end.

Fixpoint lstrip (s : string) : string :=
  match s with
  | EmptyString => EmptyString
  | String c s' => if is_space c then lstrip s' else s
  end.

Fixpoint rstrip (s : string) : string :=
  match s with
  | EmptyString => EmptyString
  | String c s' =>
      match rstrip s' with
      | EmptyString => if is_space c then EmptyString else String c EmptyString
      | r => String c r
      end
  end.

(** [str.strip] without argument *)
Definition strip (s : string) : string := rstrip (lstrip s).

(** [str.split] without argument: the maximal runs of non-space
    characters, in order. *)
Fixpoint split (s : string) : list string :=
  match s with
  | EmptyString => []
  | String c s' =>
      if is_space c then split s'
      else
        match s' with
        | EmptyString => [String c EmptyString]
        | String c' _ =>
            if is_space c' then String c EmptyString :: split s'
            else
              match split s' with
              | w :: ws => String c w :: ws
              | [] => [String c EmptyString]
              end
        end
  end.

(** [sep.join(l)] *)
Fixpoint join (sep : string) (l : list string) : string :=
  match l with
  | [] => ""
  | [w] => w
  | w :: ws => w +:+ sep +:+ join sep ws
  end.

(** [re.sub(r"\s+", " ", s)]: every maximal run of white space becomes
    one space. *)
Fixpoint collapse_ws (s : string) : string :=
  match s with
  | EmptyString => EmptyString
  | String c s' =>
      if is_space c then
        match s' with
        | EmptyString => " "
        | String c' _ =>
            if is_space c' then collapse_ws s' else String " " (collapse_ws s')
        end
      else String c (collapse_ws s')
  end.

(** [k in s] for two strings: [k] occurs in [s] as a substring. *)
Fixpoint contains (k s : string) : bool :=
  if String.prefix k s then true
  else
    match s with
    | EmptyString => false
    | String _ s' => contains k s'
    end.

(** [s in l] for a string and a collection of strings *)
Definition mem (s : string) (l : list string) : bool :=
  existsb (String.eqb s) l.

End PyStr.

Import PyStr.

(** ** Cells, floats and the builtins *)

(** The value of one cell, as [openpyxl] (with [values_only=True]) or
    [pandas] hands it to the code.  [CNone] is the missing value ([None],
    and [pd.NA] in a data frame); [CFloat f] carries a binary64 in its
    canonical form; [COther r] is any other object that is not a missing
    value (a date, a time), of which only its [str] form [r] is observed. *)
Inductive cell :=
  | CNone
  | CStr (s : string)
  | CInt (z : Z)
  | CFloat (f : spec_float)
  | CBool (b : bool)
  | COther (repr : string).

#[global] Instance spec_float_eq_dec : EqDecision spec_float.
Proof. solve_decision. Defined.

#[global] Instance cell_eq_dec : EqDecision cell.
Proof. solve_decision. Defined.

(** The builtins whose algorithms live in the interpreter: [float(s)] for a
    string [s] ([None] when it raises [ValueError]) and [str(f)] for a
    float [f]. *)
Class PyBuiltins := {
  float_of_str : string -> option spec_float;
  str_of_float : spec_float -> string
}.

(** Binary64: the float nearest to an integer, ties to even. *)
Definition f64_of_Z (z : Z) : spec_float := binary_normalize 53 1024 z 0 false.

(** [x <= y] on two floats *)
Definition f64_leb (x y : spec_float) : bool := SFleb x y.

(** [math.isnan] *)
Definition isnan (f : spec_float) : bool :=
  match f with S754_nan => true | _ => false end.

(** Truth value of a cell, as [h or ""] tests it. *)
Definition truthy (v : cell) : bool :=
  match v with
  | CNone => false
  | CStr s => negb (String.eqb s "")
  | CInt z => negb (z =? 0)
  | CFloat (S754_zero _) => false
  | CFloat _ => true
  | CBool b => b
  | COther _ => true
  end.

Section Builtins.

Context `{PyBuiltins}.

(** [str(v)] *)
Definition str (v : cell) : string :=
  match v with
  | CNone => "None"
  | CStr s => s
  | CInt z => pretty z
  | CFloat f => str_of_float f
  | CBool true => "True"
  | CBool false => "False"
  | COther r => r
  end.

(** [float(v)], [None] when the call raises: [TypeError] for [None] and
    for objects that are not numbers, [ValueError] for a string that is
    not a number, [OverflowError] for an integer beyond the floats. *)
Definition py_float (v : cell) : option spec_float :=
  match v with
  | CNone => None
  | CStr s => float_of_str s
  | CInt z =>
      match f64_of_Z z with
      | S754_infinity _ => None
      | f => Some f
      end
  | CFloat f => Some f
  | CBool b => Some (f64_of_Z (if b then 1 else 0))
  | COther _ => None
  end.

End Builtins.

(** A function that may raise: [Raise exc] carries the exception. *)
Inductive result (A : Type) :=
  | Ok (a : A)
  | Raise (exc : string).
Arguments Ok {A} a.
Arguments Raise {A} exc.

#[global] Instance result_ret : MRet result := fun A a => Ok a.

#[global] Instance result_bind : MBind result := fun A B k r =>
  match r with
  | Ok a => k a
  | Raise exc => Raise exc
  end.

(** ** [map/views.py] *)

Section Views.

Context `{PyBuiltins}.

(** [_to_float]: the [try] turns every exception of [float] into [None]. *)
Definition _to_float (x : cell) : option spec_float :=
  match x with
  | CNone => None
  | _ =>
      match py_float x with
      | Some f => if isnan f then None else Some f
      | None => None
      end
  end.

(** One record of the output list, the dictionary [res]. *)
Record resource := {
  r_id : cell;
  r_name : string;
  r_lat : spec_float;
  r_lng : spec_float;
  r_category : string;
  r_phone_number : string;
  r_address : string;
  r_email : string;
  r_description : string;
  r_restrictions : string;
  r_days : string;
  r_link : string;
  r_legit : option bool;
  r_confirmed : option bool;
  r_reliability : string;
  r_call_notes : string
}.

(** The dictionary [diag] (its [path] and [exists] entries are inputs). *)
Record diag := {
  sheet_title : option string;
  headers : list cell;
  parsed_rows : nat;
  skipped_no_coords : nat;
  bad_latlng : nat;
  errors : list string;
  sample_row : option resource
}.

(** [norm], local to the loader *)
Definition norm (s : cell) : string :=
  match s with
  | CNone => ""
  | _ => join " " (split (lower (strip (str s))))
  end.

(** [headers = [h or "" for h in header_row]] *)
Definition header_cells (header_row : list cell) : list cell :=
  map (fun h => if truthy h then h else CStr "") header_row.

(** [header_map = {norm(h): idx for idx, h in enumerate(headers)}]: a later
    column with the same normalised name replaces an earlier one. *)
Definition header_map (hs : list cell) : gmap string nat :=
  fold_left (fun m '(idx, h) => <[norm h := idx]> m) (imap pair hs) ∅.

(** [grab(row, *names, default=...)] *)
Fixpoint grab (hm : gmap string nat) (row : list cell) (names : list string)
    (default : cell) : cell :=
  match names with
  | [] => default
  | n :: rest =>
      match hm !! norm (CStr n) with
      | Some idx =>
          match row !! idx with
          | Some val =>
              match val with
              | CNone => grab hm row rest default
              | _ => val
              end
          | None => grab hm row rest default
          end
      | None => grab hm row rest default
      end
  end.

(** [to_bool_flag] *)
Definition to_bool_flag (v : cell) : option bool :=
  match v with
  | CNone => None
  | _ =>
      let s := lower (strip (str v)) in
      if mem s ["yes"; "y"; "true"; "1"] then Some true
      else if mem s ["no"; "n"; "false"; "0"] then Some false
      else None
  end.

(** [a or b] on strings *)
Definition str_or (a b : string) : string :=
  if String.eqb a "" then b else a.

(** The reliability entry computed from the cell [grab] returned. *)
Definition reliability_of (v : cell) : string :=
  let reliability_raw := strip (str v) in
  if mem reliability_raw [""; "nan"; "none"] then "na" else reliability_raw.

(** [-90 <= lat <= 90 and -180 <= lng <= 180]; the integer bounds are
    floats exactly, so comparing with them as floats is the comparison
    Python makes. *)
Definition valid_latlng (lat lng : spec_float) : bool :=
  f64_leb (f64_of_Z (-90)) lat && f64_leb lat (f64_of_Z 90)
  && f64_leb (f64_of_Z (-180)) lng && f64_leb lng (f64_of_Z 180).

(** The identifier of a record about to be appended to [resources]. *)
Definition assign_id (rid : cell) (resources : list resource) : cell :=
  match rid with
  | CNone => CInt (Z.of_nat (length resources) + 1)
  | _ =>
      if String.eqb (strip (str rid)) ""
      then CInt (Z.of_nat (length resources) + 1)
      else rid
  end.

(** What a row does to the loop state. *)
Inductive row_outcome :=
  | SkippedNoCoords
  | BadLatLng
  | Kept (res : resource).

(** The body of [for row in ws.iter_rows(min_row=2, values_only=True)],
    given the records kept so far. *)
Definition row_body (hm : gmap string nat) (resources : list resource)
    (row : list cell) : row_outcome :=
  let name := strip (str (grab hm row ["Name of Service"; "Name"] (CStr ""))) in
  let address := strip (str (grab hm row ["Address"] (CStr ""))) in
  let phone := strip (str (grab hm row ["Phone Number"; "Phone"] (CStr ""))) in
  let email := strip (str (grab hm row ["Email"] (CStr ""))) in
  let category :=
    str_or (strip (str (grab hm row
              ["Cateogry of Help"; "Category of Help"; "Category"] (CStr ""))))
           "Uncategorized" in
  let desc := strip (str (grab hm row ["Description"] (CStr ""))) in
  let restrictions :=
    strip (str (grab hm row ["Restrictions of Service"] (CStr ""))) in
  let days := strip (str (grab hm row ["Days of Service"] (CStr ""))) in
  let link := strip (str (grab hm row ["link to site"; "Website"; "Link"] (CStr ""))) in
  let legit_raw :=
    grab hm row ["Legitimate place?"; "Legitimate place ?"] (CStr "") in
  let confirmed_raw :=
    grab hm row ["called + confirmed?"; "called + confirmed ?"] (CStr "") in
  let reliability :=
    reliability_of
      (grab hm row
         ["Reliability Rate 1-10"; "Reliability Rate 1–10"; "Reliability"]
         (CStr "")) in
  let call_exp := strip (str (grab hm row ["Call experience"] (CStr ""))) in
  let extra := strip (str (grab hm row ["Unnamed: 18"] (CStr ""))) in
  let call_notes :=
    join " | " (filter (fun x => x ≠ "") [call_exp; extra]) in
  let lat_raw := grab hm row ["Latitude"; "Lat"] CNone in
  let lng_raw := grab hm row ["Longitude"; "Lng"; "Long"] CNone in
  match _to_float lat_raw, _to_float lng_raw with
  | Some lat, Some lng =>
      if valid_latlng lat lng then
        let rid := assign_id (grab hm row ["ID"; "id"] CNone) resources in
        Kept {| r_id := rid;
                r_name := str_or name "Unnamed resource";
                r_lat := lat;
                r_lng := lng;
                r_category := category;
                r_phone_number := phone;
                r_address := address;
                r_email := email;
                r_description := desc;
                r_restrictions := restrictions;
                r_days := days;
                r_link := link;
                r_legit := to_bool_flag legit_raw;
                r_confirmed := to_bool_flag confirmed_raw;
                r_reliability := reliability;
                r_call_notes := call_notes |}
      else BadLatLng
  | _, _ => SkippedNoCoords
  end.

(** The mutable state of the loop: [diag] and [resources]. *)
Definition loop_state : Type := diag * list resource.

Definition incr_skipped (d : diag) : diag :=
  {| sheet_title := sheet_title d; headers := headers d;
     parsed_rows := parsed_rows d;
     skipped_no_coords := S (skipped_no_coords d);
     bad_latlng := bad_latlng d; errors := errors d;
     sample_row := sample_row d |}.

Definition incr_bad (d : diag) : diag :=
  {| sheet_title := sheet_title d; headers := headers d;
     parsed_rows := parsed_rows d;
     skipped_no_coords := skipped_no_coords d;
     bad_latlng := S (bad_latlng d); errors := errors d;
     sample_row := sample_row d |}.

(** One iteration of the loop. *)
Definition process_row (hm : gmap string nat) (st : loop_state)
    (row : list cell) : loop_state :=
  let '(d, resources) := st in
  match row_body hm resources row with
  | SkippedNoCoords => (incr_skipped d, resources)
  | BadLatLng => (incr_bad d, resources)
  | Kept res => (d, resources ++ [res])
  end.

(** The whole loop. *)
Definition process_rows (hm : gmap string nat) (st : loop_state)
    (rows : list (list cell)) : loop_state :=
  fold_left (process_row hm) rows st.

(** The active worksheet: its title, its first row and the rows below. *)
Record worksheet := {
  ws_title : string;
  ws_header_row : list cell;
  ws_rows : list (list cell)
}.

(** What the loader finds on disk. *)
Inductive source :=
  | FileNotFound
  | NoOpenpyxl
  | LoadFails (msg : string)
  | Workbook (ws : worksheet).

Definition diag0 : diag :=
  {| sheet_title := None; headers := []; parsed_rows := 0;
     skipped_no_coords := 0; bad_latlng := 0; errors := [];
     sample_row := None |}.

Definition add_error (msg : string) (d : diag) : diag :=
  {| sheet_title := sheet_title d; headers := headers d;
     parsed_rows := parsed_rows d;
     skipped_no_coords := skipped_no_coords d;
     bad_latlng := bad_latlng d; errors := errors d ++ [msg];
     sample_row := sample_row d |}.

(** [_load_resources_from_xlsx].  No operation of the loop body raises on
    a value of [cell], so the handler around the loop is reached only when
    opening the workbook fails. *)
Definition _load_resources_from_xlsx (src : source) : list resource * diag :=
  match src with
  | FileNotFound => ([], add_error "File not found" diag0)
  | NoOpenpyxl =>
      ([], add_error "openpyxl not installed (pip install openpyxl)" diag0)
  | LoadFails msg => ([], add_error msg diag0)
  | Workbook ws =>
      let hs := header_cells (ws_header_row ws) in
      let d1 :=
        {| sheet_title := Some (ws_title ws); headers := hs;
           parsed_rows := 0; skipped_no_coords := 0; bad_latlng := 0;
           errors := []; sample_row := None |} in
      let '(d2, resources) := process_rows (header_map hs) (d1, []) (ws_rows ws) in
      (resources,
       {| sheet_title := sheet_title d2; headers := headers d2;
          parsed_rows := length resources;
          skipped_no_coords := skipped_no_coords d2;
          bad_latlng := bad_latlng d2; errors := errors d2;
          sample_row := head resources |})
  end.

End Views.

(** ** [MISC/xlsx_processor.py] *)

(** A geocoded position: latitude and longitude. *)
Abbreviation loc := (spec_float * spec_float)%type.

Section XlsxProcessor.

Context `{PyBuiltins}.

Definition ADDRESS_COL : string := "Address".
Definition CATEGORY_COL : string := "Cateogry of Help".
Definition RUN_GEOCODING : bool := true.
Definition RUN_RECAT : bool := true.

(** A data frame: its columns in order, each with the values of the rows.
    All columns have one length, the number of rows. *)
Definition dataframe : Type := list (string * list cell).

(** [df.columns] *)
Definition columns (df : dataframe) : list string := map fst df.

(** [col in df.columns] *)
Definition has_col (col : string) (df : dataframe) : bool :=
  mem col (columns df).

(** [df[col]] read, [None] when there is no such column *)
Fixpoint get_col (col : string) (df : dataframe) : option (list cell) :=
  match df with
  | [] => None
  | (c, vs) :: df' => if String.eqb c col then Some vs else get_col col df'
  end.

(** [df[col] = vs]: an existing column is replaced in place, a new one is
    appended. *)
Fixpoint set_col (col : string) (vs : list cell) (df : dataframe) : dataframe :=
  match df with
  | [] => [(col, vs)]
  | (c, old) :: df' =>
      if String.eqb c col then (c, vs) :: df'
      else (c, old) :: set_col col vs df'
  end.

(** [pd.isna] on one cell *)
Definition isna (v : cell) : bool :=
  match v with
  | CNone => true
  | CFloat S754_nan => true
  | _ => false
  end.

Definition notna (v : cell) : bool := negb (isna v).

(** [norm_addr] *)
Definition norm_addr (s : cell) : string :=
  if isna s then "" else collapse_ws (strip (str s)).

(** The state the geocoding loop changes: the dictionary [cache_map], the
    counter [updated] and, as a record of what happened, every call
    [geocode(addr)] made so far with what it returned (oldest first). *)
Record geo_state := {
  cache_map : gmap string loc;
  updated : nat;
  lookups : list (string * option loc)
}.

Section Geocoding.

(** The rate-limited geocoder.  It swallows the exceptions of the
    provider and then returns [None]; what it answers may depend on the
    queries made before. *)
Variable geocode : list string -> string -> option loc.

(** The body of the loop for one row: the cells of [ADDRESS_COL],
    ["Latitude"] and ["Longitude"] go in, the cells the row holds in
    ["Latitude"] and ["Longitude"] afterwards come out. *)
Definition geocode_row (st : geo_state) (row : cell * cell * cell)
    : geo_state * (cell * cell) :=
  let '(addr_raw, lat0, lng0) := row in
  let addr := norm_addr addr_raw in
  if String.eqb addr "" then (st, (lat0, lng0))
  else if notna lat0 && notna lng0 then (st, (lat0, lng0))
  else
    match cache_map st !! addr with
    | Some (lat, lng) => (st, (CFloat lat, CFloat lng))
    | None =>
        let answer := geocode (map fst (lookups st)) addr in
        match answer with
        | Some (lat, lng) =>
            ({| cache_map := <[addr := (lat, lng)]> (cache_map st);
                updated := S (updated st);
                lookups := lookups st ++ [(addr, answer)] |},
             (CFloat lat, CFloat lng))
        | None =>
            ({| cache_map := cache_map st;
                updated := updated st;
                lookups := lookups st ++ [(addr, answer)] |},
             (lat0, lng0))
        end
    end.

(** The loop over [df.iterrows()]. *)
Fixpoint geocode_rows (st : geo_state) (rows : list (cell * cell * cell))
    : geo_state * list (cell * cell) :=
  match rows with
  | [] => (st, [])
  | row :: rest =>
      let '(st1, out) := geocode_row st row in
      let '(st2, outs) := geocode_rows st1 rest in
      (st2, out :: outs)
  end.

(** The rows the loop reads: address, latitude and longitude of each. *)
Definition zip3 (a b c : list cell) : list (cell * cell * cell) :=
  zip (zip a b) c.

(** [geocode_addresses]; [cache0] is [cache_map] as loaded from the
    cache file (empty when there is none or it cannot be read).  The
    result is the data frame, the final [cache_map], which is what gets
    saved, the record of the lookups and the lines printed. *)
Definition geocode_addresses (cache0 : gmap string loc) (df : dataframe)
    : result (dataframe * geo_state * list string) :=
  match get_col ADDRESS_COL df with
  | None =>
      Raise ("ValueError: Could not find the column '" +:+ ADDRESS_COL
             +:+ "' in the Excel file.")
  | Some addrs =>
      let na := replicate (length addrs) CNone in
      let df1 := set_col "Latitude" (default na (get_col "Latitude" df)) df in
      let df2 := set_col "Longitude" (default na (get_col "Longitude" df1)) df1 in
      let lats := default na (get_col "Latitude" df2) in
      let lngs := default na (get_col "Longitude" df2) in
      let st0 := {| cache_map := cache0; updated := 0; lookups := [] |} in
      let '(st, out) := geocode_rows st0 (zip3 addrs lats lngs) in
      let df3 := set_col "Longitude" (map snd out)
                   (set_col "Latitude" (map fst out) df2) in
      Ok (df3, st,
          ["✅ Geocoding complete. Updated " +:+ pretty (updated st)
           +:+ " rows."])
  end.

End Geocoding.

(** [classify_category] *)
Definition any_in (keywords : list string) (s : string) : bool :=
  existsb (fun k => contains k s) keywords.

Definition classify_category (text : cell) : string :=
  if isna text then "Other / Uncategorized"
  else
    let s := lower (strip (str text)) in
    if any_in ["veteran"; "va health"; "va clinic"] s then
      "Veteran Services"
    else if any_in
      ["domestic violence"; "dv"; "sexual assault"; "intimate partner";
       "safe house"; "violence"; "trafficking"] s then
      "Safety & Anti-Violence"
    else if any_in
      ["behavioral health"; "mental health"; "psychiat"; "counseling";
       "crisis"; "hotline"; "suicide"; "harm reduction"; "overdose";
       "substance use"; "addiction"; "recovery"; "mat program";
       "peer support"] s then
      "Behavioral Health, Substance Use, & Crisis"
    else if any_in
      ["healthcare"; "health care"; "health center"; "clinic"; "medical";
       "hospital"; "fqh"; "fqhc"; "sliding scale"; "charity care";
       "vision"; "dental"; "women/lgbtq"; "lgbtq+ health"] s then
      "Physical & General Health Care"
    else if any_in
      ["shelter"; "housing"; "supportive housing"; "emergency shelter";
       "transitional"; "safe haven"; "overnight"; "rapid rehousing";
       "tenant"; "landlord"; "homeownership"; "home repair"] s then
      "Housing & Shelter"
    else if any_in
      ["food"; "pantry"; "soup kitchen"; "meal"; "meals";
       "groceries"; "grocery"; "clothing"; "clothes";
       "basic needs"; "essentials"; "household goods";
       "day center"; "day resource"] s then
      "Food & Essential Needs"
    else if any_in
      ["benefits"; "assistance program"; "financial assistance";
       "cash"; "income support"; "tax credit"; "tax help";
       "utility assistance"; "utilities"; "electric"; "gas bill";
       "water bill"; "communications discount"; "lifeline";
       "digital access"; "internet"; "broadband"] s then
      "Financial & Access Support"
    else if any_in
      ["employment"; "job"; "jobs"; "career"; "workforce";
       "training"; "job training"; "vocational"; "rehabilitation";
       "apprentice"; "internship"; "resume"; "interview skills";
       "youth employment"; "summer jobs"; "education/employment";
       "ged"; "adult education"] s then
      "Employment, Training, & Education"
    else if any_in
      ["youth"; "teen"; "family"; "child"; "children";
       "early childhood"; "family support"; "parenting";
       "mentor"; "drop-in"; "advocacy";
       "community space"; "community center";
       "culture & food access"; "community services"] s then
      "Youth, Family, & General Support Services"
    else "Other / Uncategorized".

(** [recategorize_categories]: the data frame and the lines printed. *)
Definition recategorize_categories (df : dataframe) : dataframe * list string :=
  match get_col CATEGORY_COL df with
  | None =>
      (df, ["⚠️ Column '" +:+ CATEGORY_COL
            +:+ "' not found. Skipping recategorization."])
  | Some cats =>
      let backup_col := CATEGORY_COL +:+ " (Original)" in
      let df1 := if has_col backup_col df then df else set_col backup_col cats df in
      let cats1 := default [] (get_col CATEGORY_COL df1) in
      let df2 := set_col CATEGORY_COL (map (fun v => CStr (classify_category v)) cats1) df1 in
      (df2, ["✅ Recategorization complete. Each row now has one of 10 categories."])
  end.

(** What a run of [main] leaves behind: the data frame written to
    [OUTPUT_PATH], the cache saved (when geocoding ran) and the lines
    printed. *)
Record run := {
  written : dataframe;
  saved_cache : option (gmap string loc);
  stdout : list string
}.

(** [main]; [input] is the sheet [pd.read_excel] returns, [None] when
    [INPUT_PATH] does not exist.  The runs described are those in which
    the file system cooperates: [pd.read_excel] returns a sheet, and the
    writes of the cache and of the output succeed.  The exceptions these
    three calls can raise are not represented, so nothing below says that
    [main] raises in no other case than the two written out here.  The
    text of the last [print] starts with a line feed. *)
Definition main (geocode : list string -> string -> option loc)
    (cache0 : gmap string loc) (input : option dataframe) : result run :=
  match input with
  | None => Raise "FileNotFoundError: Input not found: 1109 Upload.xlsx"
  | Some df =>
      '(df1, cache, out1) ←
         (if RUN_GEOCODING then
            '(df', st, out) ← geocode_addresses geocode cache0 df;
            Ok (df', Some (cache_map st), out)
          else
            Ok (df, None, ["⏭️ Skipping geocoding (RUN_GEOCODING=False)."]));
      '(df2, out2) ←
         (if RUN_RECAT then Ok (recategorize_categories df1)
          else Ok (df1, ["⏭️ Skipping recategorization (RUN_RECAT=False)."]));
      Ok {| written := df2; saved_cache := cache;
            stdout := out1 ++ out2
                      ++ [String "010"%char
                           "✅ Done. Wrote processed file to: 1109 Upload_geocoded.xlsx"] |}
  end.

End XlsxProcessor.

(** ** An instance of the builtins for plain literals

    [float] on the decimal literals [[+-]ddd[.ddd][e[+-]dd]], on [nan],
    [inf] and [infinity], rounded to the nearest binary64; [str] of a float
    as [nan], [inf], or the exact decimal expansion of its value, which is
    what Python prints for the floats of the examples below. *)

Module Literals.

Definition digit (c : ascii) : option Z :=
  let n := nat_of_ascii c in
  if ((48 <=? n)%nat && (n <=? 57)%nat) then Some (Z.of_nat n - 48) else None.

(** Reads a run of digits: the number read so far, how many digits were
    read, and the rest of the string. *)
Fixpoint digits (s : string) (acc : Z) (n : Z) : Z * Z * string :=
  match s with
  | EmptyString => (acc, n, s)
  | String c s' =>
      match digit c with
      | Some d => digits s' (10 * acc + d) (n + 1)
      | None => (acc, n, s)
      end
  end.

Definition sign (s : string) : bool * string :=
  match s with
  | String "-" s' => (true, s')
  | String "+" s' => (false, s')
  | _ => (false, s)
  end.

(** [m * 10 ^ e], rounded once. *)
Definition decimal (neg : bool) (m e : Z) : spec_float :=
  match m with
  | Zpos p =>
      if 0 <=? e then binary_normalize 53 1024 (if neg then - (m * 10 ^ e) else m * 10 ^ e) 0 false
      else SFdiv 53 1024 (S754_finite neg p 0)
                         (S754_finite false (Z.to_pos (10 ^ (- e))) 0)
  | _ => S754_zero neg
  end.

Definition exponent (s : string) : option Z :=
  match s with
  | EmptyString => Some 0
  | String "e" s' =>
      let '(neg, s1) := sign s' in
      let '(e, n, rest) := digits s1 0 0 in
      if (0 <? n) && String.eqb rest "" then Some (if neg then - e else e)
      else None
  | _ => None
  end.

Definition float_of_literal (text : string) : option spec_float :=
  let '(neg, s) := sign (lower (strip text)) in
  if String.eqb s "nan" then Some S754_nan
  else if mem s ["inf"; "infinity"] then Some (S754_infinity neg)
  else
    let '(i, ni, s1) := digits s 0 0 in
    let '(f, nf, s2) :=
      match s1 with
      | String "." s' => digits s' i 0
      | _ => (i, 0, s1)
      end in
    if 0 <? ni + nf then
      match exponent s2 with
      | Some e => Some (decimal neg f (e - nf))
      | None => None
      end
    else None.

(** The digits of [frac / 10 ^ k] after the point, without the zeros at
    the end. *)
Fixpoint fraction (k : nat) (frac : Z) : string :=
  match k with
  | O => ""
  | S k' =>
      if frac =? 0 then ""
      else
        let p := 10 ^ Z.of_nat k' in
        pretty (frac / p) +:+ fraction k' (frac mod p)
  end.

Definition literal_of_float (f : spec_float) : string :=
  match f with
  | S754_nan => "nan"
  | S754_infinity neg => if neg then "-inf" else "inf"
  | S754_zero neg => if neg then "-0.0" else "0.0"
  | S754_finite neg m e =>
      let body :=
        if 0 <=? e then pretty (Zpos m * 2 ^ e) +:+ ".0"
        else
          let k := - e in
          let frac := (Zpos m mod 2 ^ k) * 5 ^ k in
          pretty (Zpos m / 2 ^ k) +:+ "."
          +:+ (if frac =? 0 then "0" else fraction (Z.to_nat k) frac) in
      if neg then "-" +:+ body else body
  end.

#[global] Instance literal_builtins : PyBuiltins :=
  {| float_of_str := float_of_literal; str_of_float := literal_of_float |}.

End Literals.

Import Literals.

(** ** The taxonomy as a table *)

(** The taxonomy in the order the specification lists it, each category
    with its keywords; [classify_by_priority] returns the first category
    with a keyword in [s]. *)
Definition taxonomy : list (string * list string) :=
  [ ("Veteran Services", ["veteran"; "va health"; "va clinic"]);
    ("Safety & Anti-Violence",
     ["domestic violence"; "dv"; "sexual assault"; "intimate partner";
      "safe house"; "violence"; "trafficking"]);
    ("Behavioral Health, Substance Use, & Crisis",
     ["behavioral health"; "mental health"; "psychiat"; "counseling";
      "crisis"; "hotline"; "suicide"; "harm reduction"; "overdose";
      "substance use"; "addiction"; "recovery"; "mat program";
      "peer support"]);
    ("Physical & General Health Care",
     ["healthcare"; "health care"; "health center"; "clinic"; "medical";
      "hospital"; "fqh"; "fqhc"; "sliding scale"; "charity care";
      "vision"; "dental"; "women/lgbtq"; "lgbtq+ health"]);
    ("Housing & Shelter",
     ["shelter"; "housing"; "supportive housing"; "emergency shelter";
      "transitional"; "safe haven"; "overnight"; "rapid rehousing";
      "tenant"; "landlord"; "homeownership"; "home repair"]);
    ("Food & Essential Needs",
     ["food"; "pantry"; "soup kitchen"; "meal"; "meals";
      "groceries"; "grocery"; "clothing"; "clothes";
      "basic needs"; "essentials"; "household goods";
      "day center"; "day resource"]);
    ("Financial & Access Support",
     ["benefits"; "assistance program"; "financial assistance";
      "cash"; "income support"; "tax credit"; "tax help";
      "utility assistance"; "utilities"; "electric"; "gas bill";
      "water bill"; "communications discount"; "lifeline";
      "digital access"; "internet"; "broadband"]);
    ("Employment, Training, & Education",
     ["employment"; "job"; "jobs"; "career"; "workforce";
      "training"; "job training"; "vocational"; "rehabilitation";
      "apprentice"; "internship"; "resume"; "interview skills";
      "youth employment"; "summer jobs"; "education/employment";
      "ged"; "adult education"]);
    ("Youth, Family, & General Support Services",
     ["youth"; "teen"; "family"; "child"; "children";
      "early childhood"; "family support"; "parenting";
      "mentor"; "drop-in"; "advocacy";
      "community space"; "community center";
      "culture & food access"; "community services"]) ].

Fixpoint first_category (table : list (string * list string)) (s : string)
    : string :=
  match table with
  | [] => "Other / Uncategorized"
  | (c, ks) :: rest => if any_in ks s then c else first_category rest s
  end.

Definition classify_by_priority (s : string) : string :=
  first_category taxonomy s.

(** The keywords of a category of the taxonomy. *)
Definition keywords_of (c : string) : list string :=
  default [] (snd <$> List.find (fun p => String.eqb (fst p) c) taxonomy).

(** ** Vocabulary for the statements about the loader *)

Section ViewsVocabulary.

Context `{PyBuiltins}.

(** The coordinates of a row after conversion. *)
Definition lat_of (hm : gmap string nat) (row : list cell) : option spec_float :=
  _to_float (grab hm row ["Latitude"; "Lat"] CNone).

Definition lng_of (hm : gmap string nat) (row : list cell) : option spec_float :=
  _to_float (grab hm row ["Longitude"; "Lng"; "Long"] CNone).

(** The three kinds of rows. *)
Definition no_coords (hm : gmap string nat) (row : list cell) : bool :=
  match lat_of hm row, lng_of hm row with
  | Some _, Some _ => false
  | _, _ => true
  end.

Definition bad_coords (hm : gmap string nat) (row : list cell) : bool :=
  match lat_of hm row, lng_of hm row with
  | Some lat, Some lng => negb (valid_latlng lat lng)
  | _, _ => false
  end.

Definition good_coords (hm : gmap string nat) (row : list cell) : bool :=
  match lat_of hm row, lng_of hm row with
  | Some lat, Some lng => valid_latlng lat lng
  | _, _ => false
  end.

(** The identifier cell of a row, and whether the code takes it as
    blank. *)
Definition id_cell (hm : gmap string nat) (row : list cell) : cell :=
  grab hm row ["ID"; "id"] CNone.

Definition blank_id (rid : cell) : Prop :=
  rid = CNone \/ strip (str rid) = "".

(** The cell an alias gives access to: the header map knows the alias,
    the row reaches that column and the cell there is not [None]. *)
Definition usable (hm : gmap string nat) (row : list cell) (n : string)
    : option cell :=
  match hm !! norm (CStr n) with
  | Some idx =>
      match row !! idx with
      | Some CNone => None
      | o => o
      end
  | None => None
  end.

(** The column of the first alias that is a header, whatever the cell
    there holds. *)
Fixpoint first_matching_alias (hm : gmap string nat) (names : list string)
    : option nat :=
  match names with
  | [] => None
  | n :: rest =>
      match hm !! norm (CStr n) with
      | Some idx => Some idx
      | None => first_matching_alias hm rest
      end
  end.

End ViewsVocabulary.

(** ** Vocabulary for the statements about coordinates *)

(** A float in the canonical form of binary64. *)
Definition canonical (f : spec_float) : bool := valid_binary 53 1024 f.

(** [lo <= f <= hi] for two integers and the number a float stands for:
    [m * 2 ^ e] with its sign for a finite float, zero for the two zeros;
    infinities and NaN are in no interval. *)
Definition float_in (lo hi : Z) (f : spec_float) : bool :=
  match f with
  | S754_zero _ => (lo <=? 0) && (0 <=? hi)
  | S754_finite s m e =>
      let v := if s then Zneg m else Zpos m in
      if 0 <=? e then (lo <=? v * 2 ^ e) && (v * 2 ^ e <=? hi)
      else (lo * 2 ^ (- e) <=? v) && (v <=? hi * 2 ^ (- e))
  | _ => false
  end.

(** The number a finite float stands for, times [2 ^ 1074]: an integer for
    a canonical float. *)
Definition scaled (f : spec_float) : Z :=
  match f with
  | S754_finite s m e => (if s then Zneg m else Zpos m) * 2 ^ (e + 1074)
  | _ => 0
  end.

Definition is_finite (f : spec_float) : bool :=
  match f with
  | S754_zero _ | S754_finite _ _ _ => true
  | _ => false
  end.

Section RangeVocabulary.

Context `{PyBuiltins}.

(** The coordinates a row converts to are canonical floats. *)
Definition canonical_coords (hm : gmap string nat) (row : list cell) : bool :=
  match lat_of hm row with Some lat => canonical lat | None => true end
  && match lng_of hm row with Some lng => canonical lng | None => true end.

(** Both coordinates are present and the point lies outside, or inside,
    the box [-90, 90] x [-180, 180]. *)
Definition out_of_range (hm : gmap string nat) (row : list cell) : bool :=
  match lat_of hm row, lng_of hm row with
  | Some lat, Some lng =>
      negb (float_in (-90) 90 lat && float_in (-180) 180 lng)
  | _, _ => false
  end.

Definition in_range (hm : gmap string nat) (row : list cell) : bool :=
  match lat_of hm row, lng_of hm row with
  | Some lat, Some lng => float_in (-90) 90 lat && float_in (-180) 180 lng
  | _, _ => false
  end.

End RangeVocabulary.

(** A float written as a literal. *)
Definition f64 (literal : string) : spec_float :=
  default S754_nan (float_of_literal literal).

(** A small sheet for the examples. *)
Definition sample_headers : list cell :=
  [CStr "ID"; CStr "Name of Service"; CStr "Name"; CStr "Address";
   CStr "Cateogry  of help"; CStr "Legitimate place?";
   CStr "Reliability Rate 1-10"; CStr "Latitude"; CStr " LONGITUDE "].

Definition sample_map : gmap string nat :=
  header_map (header_cells sample_headers).

Definition clinic_row : list cell :=
  [CNone; CStr "Free Clinic"; CNone; CStr "123 Main St, Baltimore, MD";
   CStr "free health clinic"; CStr "Yes"; CInt 7;
   CFloat (f64 "39.29"); CFloat (f64 "-76.61")].

Definition pantry_row : list cell :=
  [CStr "P-2"; CNone; CStr "Food Pantry"; CStr "456 Pine Ave, Baltimore, MD";
   CStr "food"; CNone; CStr "None"; CStr "39.3045"; CStr "-76.6170"].

Definition blank_row : list cell :=
  [CNone; CStr "Legal Aid"; CNone; CStr ""; CNone; CNone; CNone;
   CStr ""; CStr ""].

Definition edge_row : list cell :=
  [CNone; CStr "Corner"; CNone; CStr "somewhere"; CNone; CNone; CNone;
   CInt 90; CInt (-180)].

Definition west_row : list cell :=
  [CNone; CStr "Far West"; CNone; CStr "somewhere"; CNone; CNone; CNone;
   CFloat (f64 "39.29"); CStr "-180.5"].

Definition far_row : list cell :=
  [CNone; CStr "Elsewhere"; CNone; CStr "nowhere"; CNone; CNone; CNone;
   CInt 91; CInt 0].

(** ** Vocabulary for the statements about geocoding *)

(** What one row can do to the state: nothing, or one live lookup of an
    address the cache does not hold, cached when it succeeds. *)
Inductive row_effect (st st' : geo_state) : Prop :=
  | effect_none : st' = st -> row_effect st st'
  | effect_lookup (addr : string) (answer : option loc) :
      cache_map st !! addr = None ->
      lookups st' = lookups st ++ [(addr, answer)] ->
      cache_map st'
      = match answer with
        | Some pos => <[addr := pos]> (cache_map st)
        | None => cache_map st
        end ->
      row_effect st st'.

(** The state is consistent when every lookup that succeeded is in the
    cache and no address was looked up again after a success. *)
Definition answered_are_cached (st : geo_state) : Prop :=
  forall addr pos,
    In (addr, Some pos) (lookups st) -> cache_map st !! addr <> None.

Definition no_lookup_after_success (st : geo_state) : Prop :=
  forall before addr pos after,
    lookups st = before ++ (addr, Some pos) :: after ->
    ~ In addr (map fst after).

(** A raw sheet and a geocoder that knows one address, for the examples. *)
Definition sample_geocode (asked : list string) (addr : string) : option loc :=
  if String.eqb addr "123 Main St, Baltimore, MD"
  then Some (f64 "39.29", f64 "-76.61")
  else None.

Definition raw_sheet : dataframe :=
  [ ("Address",
     [CStr "123  Main St,   Baltimore, MD"; CStr "  "; CStr "1 Nowhere Rd";
      CStr " 123 Main St, Baltimore, MD "]);
    ("Cateogry of Help",
     [CStr "free health clinic"; CFloat S754_nan; CStr "Youth Advocacy";
      CStr "Food pantry for veterans"]) ].

Definition sheet_without_address : dataframe :=
  [ ("Cateogry of Help", [CStr "free health clinic"; CStr "food"]) ].

Definition sheet_without_category : dataframe :=
  [ ("Address", [CStr "123 Main St, Baltimore, MD"; CNone]) ].

(** ** Further vocabulary and examples for the loader *)

Section LoaderVocabulary.

Context `{PyBuiltins}.

(** The trimmed text of the field the aliases [names] resolve to. *)
Definition cell_text (hm : gmap string nat) (row : list cell)
    (names : list string) : string :=
  strip (str (grab hm row names (CStr ""))).

(** The rows a source holds. *)
Definition rows_of (src : source) : list (list cell) :=
  match src with
  | Workbook ws => ws_rows ws
  | _ => []
  end.

End LoaderVocabulary.

Definition numbered_row : list cell :=
  [CInt 1; CStr "Legal Aid"; CNone; CStr "789 Harbor Rd, Baltimore, MD";
   CStr "legal"; CStr "no"; CNone; CFloat (f64 "39.2833"); CStr "-76.6020"].

Definition sample_sheet : worksheet :=
  {| ws_title := "Sheet1";
     ws_header_row := sample_headers;
     ws_rows := [clinic_row; blank_row; pantry_row; far_row; numbered_row] |}.

Definition notes_headers : list cell :=
  [CStr "Call experience"; CStr "Unnamed: 18"; CStr "Lat"; CStr "Long"].

Definition notes_map : gmap string nat :=
  header_map (header_cells notes_headers).

Definition notes_row : list cell :=
  [CStr " friendly "; CStr "call back Monday"; CInt 39; CInt (-76)].

(** ** Vocabulary for the statements about text *)

(** A string of white space only. *)
Fixpoint all_space (s : string) : bool :=
  match s with
  | EmptyString => true
  | String c s' => is_space c && all_space s'
  end.

(** The ten categories. *)
Definition categories : list string :=
  map fst taxonomy ++ ["Other / Uncategorized"].

(** ** Vocabulary for the statements about the preparation utility *)

Section ProcessorVocabulary.

Context `{PyBuiltins}.

(** The name of the backup column. *)
Definition BACKUP_COL : string := CATEGORY_COL +:+ " (Original)".

(** What a second classification does to a classified cell. *)
Definition reclassified (v : cell) : cell :=
  if decide (v = CStr "Financial & Access Support")
  then CStr "Other / Uncategorized"
  else v.

(** The rows the geocoding loop reads from a data frame: address, latitude
    and longitude of each row, a missing coordinate column read as missing
    values. *)
Definition loop_rows (df : dataframe) : list (cell * cell * cell) :=
  match get_col ADDRESS_COL df with
  | None => []
  | Some addrs =>
      let na := replicate (length addrs) CNone in
      zip3 addrs (default na (get_col "Latitude" df))
                 (default na (get_col "Longitude" df))
  end.

(** The normalised address of a row of the loop, and whether its
    coordinates are both filled. *)
Definition row_addr (row : cell * cell * cell) : string :=
  norm_addr (fst (fst row)).

Definition row_filled (row : cell * cell * cell) : bool :=
  notna (snd (fst row)) && notna (snd row).

(** The lookups of a log that succeeded. *)
Definition successes (log : list (string * option loc)) : list (string * option loc) :=
  List.filter (fun entry => match snd entry with Some _ => true | None => false end) log.

(** The state a pass starts from. *)
Definition start (cache0 : gmap string loc) : geo_state :=
  {| cache_map := cache0; updated := 0; lookups := [] |}.

End ProcessorVocabulary.

(** The rows a second pass reads: the addresses of [rows] with the
    coordinates a first pass wrote. *)
Definition rows_after (rows : list (cell * cell * cell))
    (outs : list (cell * cell)) : list (cell * cell * cell) :=
  zip_with (fun row out => (fst (fst row), fst out, snd out)) rows outs.

(** The line [geocode_addresses] prints. *)
Definition geocoding_report (n : nat) : string :=
  "✅ Geocoding complete. Updated " +:+ pretty n +:+ " rows.".

(** What the last [print] of [main] writes: a line feed, then the
    message. *)
Definition done_report : string :=
  String "010"%char
         "✅ Done. Wrote processed file to: 1109 Upload_geocoded.xlsx".

(** A word: a text that is not empty and holds no white space. *)
Fixpoint no_space (s : string) : bool :=
  match s with
  | EmptyString => true
  | String c s' => negb (is_space c) && no_space s'
  end.

Definition is_word (w : string) : bool :=
  match w with
  | EmptyString => false
  | _ => no_space w
  end.

(** The gap [collapse_ws] leaves for white space at the start. *)
Definition leading_gap (s : string) : string :=
  match s with
  | EmptyString => ""
  | String c _ => if is_space c then " " else ""
  end.

(** The same sheet with its headers typed another way. *)
Definition shouted_headers : list cell :=
  [CStr "id"; CStr "NAME  OF SERVICE"; CStr " name"; CStr "ADDRESS";
   CStr "cateogry of HELP"; CStr "legitimate   place?";
   CStr "reliability rate 1-10"; CStr " Latitude"; CStr "Longitude"].

(** * Properties *)

(** ** Substrings *)

Lemma prefix_app (k s : string) :
  String.prefix k s = true <-> exists b, s = k +:+ b.
Proof.
  revert s. induction k as [|c k IH]; intros s.
  - split; [intros _; exists s; reflexivity | intros _; destruct s; reflexivity].
  - destruct s as [|c' s]; simpl.
    + split; [discriminate | intros [b Hb]; discriminate].
    + destruct (Ascii.ascii_dec c c') as [->|Hne].
      * rewrite IH. split; intros [b Hb]; exists b.
        -- rewrite Hb. reflexivity.
        -- injection Hb as Hb. exact Hb.
      * split; [discriminate | intros [b Hb]; injection Hb as Hc _; congruence].
Qed.

Lemma contains_nil (k : string) : contains k "" = String.prefix k "".
Proof. destruct k; reflexivity. Qed.

Lemma contains_cons (k : string) (c : ascii) (s : string) :
  contains k (String c s)
  = if String.prefix k (String c s) then true else contains k s.
Proof. reflexivity. Qed.

(** [contains] decides the substring relation. *)
Lemma contains_spec (k s : string) :
  contains k s = true <-> exists a b, s = a +:+ k +:+ b.
Proof.
  induction s as [|c s IH].
  - rewrite contains_nil, prefix_app. split.
    + intros [b Hb]. exists "", b. exact Hb.
    + intros (a & b & Hab). destruct a; [|discriminate]. eauto.
  - rewrite contains_cons.
    destruct (String.prefix k (String c s)) eqn:Hp.
    + split; [intros _ | reflexivity].
      apply prefix_app in Hp as [b Hb]. exists "", b. exact Hb.
    + rewrite IH. split.
      * intros (a & b & ->). exists (String c a), b. reflexivity.
      * intros (a & b & Hab). destruct a as [|c' a].
        -- assert (String.prefix k (String c s) = true) by (apply prefix_app; eauto).
           congruence.
        -- injection Hab as _ Hab. eauto.
Qed.

Lemma string_app_assoc (a b c : string) : (a +:+ b) +:+ c = a +:+ b +:+ c.
Proof.
  induction a as [|x a IH]; [reflexivity|].
  change (String x ((a +:+ b) +:+ c) = String x (a +:+ b +:+ c)).
  rewrite IH. reflexivity.
Qed.

(** A substring of a substring is a substring. *)
Lemma contains_trans (k1 k2 s : string) :
  contains k1 k2 = true -> contains k2 s = true -> contains k1 s = true.
Proof.
  rewrite !contains_spec. intros (a & b & ->) (a' & b' & ->).
  exists (a' +:+ a), (b +:+ b'). rewrite !string_app_assoc. reflexivity.
Qed.

Lemma any_in_true (ks : list string) (s k : string) :
  In k ks -> contains k s = true -> any_in ks s = true.
Proof.
  intros Hin Hk. unfold any_in. apply existsb_exists. exists k. auto.
Qed.

(** ** The classifier *)

Section ClassifierFacts.

Context `{PyBuiltins}.

(** The chain of tests of [classify_category] is the walk through the
    taxonomy. *)
Lemma classify_category_str (text : string) :
  classify_category (CStr text) = classify_by_priority (lower (strip text)).
Proof. reflexivity. Qed.

Lemma first_category_hit (table : list (string * list string)) (s : string)
    (i : nat) (c : string) (ks : list string) :
  table !! i = Some (c, ks) ->
  any_in ks s = true ->
  (forall j c' ks', (j < i)%nat -> table !! j = Some (c', ks') ->
                    any_in ks' s = false) ->
  first_category table s = c.
Proof.
  revert i. induction table as [|[c0 ks0] table IH]; intros i Hi Hhit Hbefore.
  - discriminate.
  - destruct i as [|i]; simpl in *.
    + injection Hi as -> ->. rewrite Hhit. reflexivity.
    + rewrite (Hbefore 0%nat c0 ks0 ltac:(lia) eq_refl).
      apply (IH i Hi Hhit). intros j c' ks' Hj Hlk.
      apply (Hbefore (S j) c' ks'); [lia | exact Hlk].
Qed.

Lemma first_category_miss (table : list (string * list string)) (s : string) :
  (forall c ks, In (c, ks) table -> any_in ks s = false) ->
  first_category table s = "Other / Uncategorized".
Proof.
  induction table as [|[c0 ks0] table IH]; intros Hall; simpl.
  - reflexivity.
  - rewrite (Hall c0 ks0 (or_introl eq_refl)). apply IH.
    intros c ks Hin. apply (Hall c ks). right. exact Hin.
Qed.

End ClassifierFacts.

(** C2.  The classifier walks the taxonomy in its fixed order, Veteran
    Services first and Youth, Family, & General Support Services last, and
    returns the first category one of whose keywords occurs in the
    lower-cased, trimmed input; when no category has one it returns
    Other / Uncategorized.  An input with a Veteran keyword and a Food
    keyword is therefore classified Veteran Services. *)
Theorem classify_priority_order `{PyBuiltins} (text : string) :
  let s := lower (strip text) in
  map fst taxonomy
  = ["Veteran Services"; "Safety & Anti-Violence";
     "Behavioral Health, Substance Use, & Crisis";
     "Physical & General Health Care"; "Housing & Shelter";
     "Food & Essential Needs"; "Financial & Access Support";
     "Employment, Training, & Education";
     "Youth, Family, & General Support Services"]
  /\ (forall i c ks,
        taxonomy !! i = Some (c, ks) ->
        any_in ks s = true ->
        (forall j c' ks', (j < i)%nat -> taxonomy !! j = Some (c', ks') ->
                          any_in ks' s = false) ->
        classify_category (CStr text) = c)
  /\ ((forall c ks, In (c, ks) taxonomy -> any_in ks s = false) ->
      classify_category (CStr text) = "Other / Uncategorized")
  /\ (forall kv kf,
        In kv (keywords_of "Veteran Services") ->
        In kf (keywords_of "Food & Essential Needs") ->
        contains kv s = true -> contains kf s = true ->
        classify_category (CStr text) = "Veteran Services").
Proof.
  intros s. rewrite classify_category_str. fold s. unfold classify_by_priority.
  split; [reflexivity|]. split; [|split].
  - intros i c ks Hi Hhit Hbefore. exact (first_category_hit _ _ _ _ _ Hi Hhit Hbefore).
  - apply first_category_miss.
  - intros kv kf Hkv _ Hv _.
    apply (first_category_hit taxonomy s 0 _ (keywords_of "Veteran Services")).
    + reflexivity.
    + exact (any_in_true _ _ _ Hkv Hv).
    + intros j c' ks' Hj. lia.
Qed.

Lemma classify_priority_order_witness :
  classify_category (CStr " Food pantry for VETERANS ") = "Veteran Services".
Proof.
  apply (proj2 (proj2 (proj2
           (classify_priority_order " Food pantry for VETERANS ")))
           "veteran" "food").
  - vm_compute. left. reflexivity.
  - vm_compute. left. reflexivity.
  - vm_compute. reflexivity.
  - vm_compute. reflexivity.
Defined.

(** C10.  An input whose lower-cased, trimmed form contains "dv" and no
    Veteran keyword is classified Safety & Anti-Violence.  "advocacy"
    contains "dv", so an input containing the Youth keyword "advocacy" is
    never classified Youth, Family, & General Support Services. *)
Theorem dv_selects_safety `{PyBuiltins} (text : string) :
  let s := lower (strip text) in
  (contains "dv" s = true ->
   any_in (keywords_of "Veteran Services") s = false ->
   classify_category (CStr text) = "Safety & Anti-Violence")
  /\ In "advocacy" (keywords_of "Youth, Family, & General Support Services")
  /\ (contains "advocacy" s = true ->
      classify_category (CStr text)
      <> "Youth, Family, & General Support Services").
Proof.
  intros s. rewrite classify_category_str. fold s. unfold classify_by_priority.
  assert (Hsafety : contains "dv" s = true ->
            any_in (keywords_of "Veteran Services") s = false ->
            first_category taxonomy s = "Safety & Anti-Violence").
  { intros Hdv Hvet.
    apply (first_category_hit taxonomy s 1 _
             (keywords_of "Safety & Anti-Violence")).
    - reflexivity.
    - apply (any_in_true _ _ "dv"); [|exact Hdv]. right. left. reflexivity.
    - intros j c' ks' Hj Hlk. destruct j as [|j]; [|lia].
      injection Hlk as _ <-. exact Hvet. }
  split; [exact Hsafety|]. split.
  - vm_compute. do 10 right. left. reflexivity.
  - intros Hadv.
    assert (Hdv : contains "dv" s = true).
    { apply (contains_trans "dv" "advocacy" s); [reflexivity | exact Hadv]. }
    destruct (any_in (keywords_of "Veteran Services") s) eqn:Hvet.
    + assert (Hv : first_category taxonomy s = "Veteran Services").
      { apply (first_category_hit taxonomy s 0 _
                 (keywords_of "Veteran Services")).
        - reflexivity.
        - exact Hvet.
        - intros j c' ks' Hj. lia. }
      rewrite Hv. discriminate.
    + rewrite (Hsafety Hdv eq_refl). discriminate.
Qed.

Lemma dv_selects_safety_witness :
  classify_category (CStr "Youth Advocacy") = "Safety & Anti-Violence"
  /\ classify_category (CStr "Youth Advocacy")
     <> "Youth, Family, & General Support Services".
Proof.
  split.
  - apply (proj1 (dv_selects_safety "Youth Advocacy")); vm_compute; reflexivity.
  - apply (proj2 (proj2 (dv_selects_safety "Youth Advocacy"))).
    vm_compute. reflexivity.
Defined.

(** ** The loader: coordinates *)

Section LoaderFacts.

Context `{PyBuiltins}.

(** A cell is absent after conversion exactly when [float] raises on it
    or yields NaN; [float(None)] raises. *)
Lemma _to_float_None (x : cell) :
  _to_float x = None <-> py_float x = None \/ py_float x = Some S754_nan.
Proof.
  unfold _to_float. destruct x; simpl py_float;
    try (split; [auto | reflexivity]; fail);
    try match goal with
        | |- context [match ?o with Some _ => _ | None => _ end] =>
            destruct o as [f|] eqn:Ho
        end;
    try (destruct f; simpl; split; intros Hx;
         try discriminate; try reflexivity; auto;
         destruct Hx as [Hx|Hx]; discriminate);
    try (split; [auto | reflexivity]).
Qed.

Lemma _to_float_Some (x : cell) (f : spec_float) :
  _to_float x = Some f <-> py_float x = Some f /\ isnan f = false.
Proof.
  unfold _to_float. destruct x; simpl py_float;
    try (split; [discriminate | intros [Hx _]; discriminate]);
    match goal with
    | |- context [match ?o with Some _ => _ | None => _ end] =>
        destruct o as [g|] eqn:Ho
    end;
    try (split; [discriminate | intros [Hx _]; discriminate]);
    destruct (isnan g) eqn:Hg;
    (split; [intros Hx | intros [Hx Hn]]); try discriminate;
    try (injection Hx as <-; auto); congruence.
Qed.

(** The outcome of a row by the kind of its coordinates. *)
Lemma row_body_no_coords hm resources row :
  no_coords hm row = true -> row_body hm resources row = SkippedNoCoords.
Proof.
  unfold no_coords, lat_of, lng_of, row_body.
  destruct (_to_float (grab hm row ["Latitude"; "Lat"] CNone));
    destruct (_to_float (grab hm row ["Longitude"; "Lng"; "Long"] CNone));
    intros Hk; try discriminate; reflexivity.
Qed.

Lemma row_body_bad_coords hm resources row :
  bad_coords hm row = true -> row_body hm resources row = BadLatLng.
Proof.
  unfold bad_coords, lat_of, lng_of, row_body.
  destruct (_to_float (grab hm row ["Latitude"; "Lat"] CNone)) as [lat|];
    destruct (_to_float (grab hm row ["Longitude"; "Lng"; "Long"] CNone)) as [lng|];
    intros Hk; try discriminate.
  destruct (valid_latlng lat lng); [discriminate | reflexivity].
Qed.

Lemma row_body_good_coords hm resources row :
  good_coords hm row = true ->
  exists res, row_body hm resources row = Kept res
              /\ Some (r_lat res) = lat_of hm row
              /\ Some (r_lng res) = lng_of hm row
              /\ r_id res = assign_id (id_cell hm row) resources
              /\ r_reliability res
                 = reliability_of
                     (grab hm row
                        ["Reliability Rate 1-10"; "Reliability Rate 1–10";
                         "Reliability"] (CStr "")).
Proof.
  unfold good_coords, lat_of, lng_of, row_body, id_cell.
  destruct (_to_float (grab hm row ["Latitude"; "Lat"] CNone)) as [lat|];
    destruct (_to_float (grab hm row ["Longitude"; "Lng"; "Long"] CNone)) as [lng|];
    intros Hk; try discriminate.
  rewrite Hk. eexists. split; [reflexivity|].
  cbn [r_lat r_lng r_id r_reliability]. auto.
Qed.

(** Every row is of exactly one kind. *)
Lemma row_kinds hm row :
  (no_coords hm row = true /\ bad_coords hm row = false /\ good_coords hm row = false)
  \/ (no_coords hm row = false /\ bad_coords hm row = true /\ good_coords hm row = false)
  \/ (no_coords hm row = false /\ bad_coords hm row = false /\ good_coords hm row = true).
Proof.
  unfold no_coords, bad_coords, good_coords.
  destruct (lat_of hm row) as [lat|], (lng_of hm row) as [lng|]; auto.
  destruct (valid_latlng lat lng); auto.
Qed.

Lemma process_rows_cons hm st row rows :
  process_rows hm st (row :: rows) = process_rows hm (process_row hm st row) rows.
Proof. reflexivity. Qed.

(** The counters and the output after a whole pass. *)
Lemma process_rows_counts hm rows : forall d resources,
  let st := process_rows hm (d, resources) rows in
  skipped_no_coords (fst st)
  = (skipped_no_coords d + length (List.filter (no_coords hm) rows))%nat
  /\ bad_latlng (fst st)
     = (bad_latlng d + length (List.filter (bad_coords hm) rows))%nat
  /\ length (snd st)
     = (length resources + length (List.filter (good_coords hm) rows))%nat.
Proof.
  induction rows as [|row rows IH]; intros d resources.
  - simpl. lia.
  - cbv zeta. rewrite process_rows_cons. simpl List.filter.
    destruct (row_kinds hm row) as [(Hn & Hb & Hg)|[(Hn & Hb & Hg)|(Hn & Hb & Hg)]];
      rewrite Hn, Hb, Hg; unfold process_row.
    + rewrite (row_body_no_coords _ resources _ Hn).
      specialize (IH (incr_skipped d) resources). cbv zeta in IH.
      destruct IH as (-> & -> & ->). simpl. lia.
    + rewrite (row_body_bad_coords _ resources _ Hb).
      specialize (IH (incr_bad d) resources). cbv zeta in IH.
      destruct IH as (-> & -> & ->). simpl. lia.
    + destruct (row_body_good_coords hm resources row Hg) as (res & -> & _).
      specialize (IH d (resources ++ [res])). cbv zeta in IH.
      destruct IH as (-> & -> & ->). rewrite length_app. simpl. lia.
Qed.

(** The diagnostics of a whole load. *)
Lemma load_counts (ws : worksheet) :
  let hm := header_map (header_cells (ws_header_row ws)) in
  let out := _load_resources_from_xlsx (Workbook ws) in
  skipped_no_coords (snd out) = length (List.filter (no_coords hm) (ws_rows ws))
  /\ bad_latlng (snd out) = length (List.filter (bad_coords hm) (ws_rows ws))
  /\ parsed_rows (snd out) = length (fst out)
  /\ length (fst out) = length (List.filter (good_coords hm) (ws_rows ws)).
Proof.
  intros hm out. subst out. unfold _load_resources_from_xlsx. fold hm.
  match goal with
  | |- context [process_rows hm (?d, []) ?rows] =>
      pose proof (process_rows_counts hm rows d []) as Hcount;
      destruct (process_rows hm (d, []) rows) as [d2 resources]
  end.
  cbv zeta in Hcount. simpl in Hcount. destruct Hcount as (Hs & Hb & Hl).
  simpl. auto.
Qed.

End LoaderFacts.

(** ** Floats and the range of coordinates *)

Lemma digits2_bounds (m : positive) :
  2 ^ (Zpos (digits2_pos m) - 1) <= Zpos m < 2 ^ Zpos (digits2_pos m).
Proof.
  induction m as [m IH|m IH|]; simpl digits2_pos.
  - rewrite Pos2Z.inj_succ, (Pos2Z.inj_xI m).
    replace (Z.succ (Zpos (digits2_pos m)) - 1) with (Z.succ (Zpos (digits2_pos m) - 1)) by lia.
    rewrite !Z.pow_succ_r by lia.
    set (a := 2 ^ (Zpos (digits2_pos m) - 1)) in *.
    set (b := 2 ^ Zpos (digits2_pos m)) in *. clearbody a b. lia.
  - rewrite Pos2Z.inj_succ, (Pos2Z.inj_xO m).
    replace (Z.succ (Zpos (digits2_pos m)) - 1) with (Z.succ (Zpos (digits2_pos m) - 1)) by lia.
    rewrite !Z.pow_succ_r by lia.
    set (a := 2 ^ (Zpos (digits2_pos m) - 1)) in *.
    set (b := 2 ^ Zpos (digits2_pos m)) in *. clearbody a b. lia.
  - simpl. lia.
Qed.

Lemma bounded_facts (m : positive) (e : Z) :
  bounded 53 1024 m e = true ->
  -1074 <= e /\ Zpos m < 2 ^ 53 /\ (-1074 < e -> 2 ^ 52 <= Zpos m).
Proof.
  unfold bounded, canonical_mantissa, fexp, emin.
  intros [Hc _]%andb_true_iff. apply Z.eqb_eq in Hc.
  pose proof (digits2_bounds m) as [Hlo Hhi].
  set (d := Zpos (digits2_pos m)) in *.
  assert (Hd : 0 < d) by (unfold d; lia).
  assert (Hcase : (d = 53 /\ -1074 <= e) \/ (e = -1074 /\ d <= 53)) by lia.
  destruct Hcase as [[Hd53 He] | [He Hd53]].
  - rewrite Hd53 in Hlo, Hhi. simpl Z.sub in Hlo. repeat split; [lia | exact Hhi | intros _; exact Hlo].
  - repeat split; [lia | | lia].
    eapply Z.lt_le_trans; [exact Hhi|]. apply Z.pow_le_mono_r; lia.
Qed.

Lemma pow_pos_1074 (e : Z) : -1074 <= e -> 0 < 2 ^ (e + 1074).
Proof. intros He. apply Z.pow_pos_nonneg; lia. Qed.

Lemma compare_scaled_pos (m1 m2 : positive) (e1 e2 : Z) :
  bounded 53 1024 m1 e1 = true -> bounded 53 1024 m2 e2 = true ->
  match e1 ?= e2 with
  | Lt => Lt
  | Gt => Gt
  | Eq => Pos.compare_cont Eq m1 m2
  end = (Zpos m1 * 2 ^ (e1 + 1074) ?= Zpos m2 * 2 ^ (e2 + 1074)).
Proof.
  intros H1 H2.
  destruct (bounded_facts _ _ H1) as (He1 & Hm1 & Hn1).
  destruct (bounded_facts _ _ H2) as (He2 & Hm2 & Hn2).
  assert (Hlt : forall ma mb ea eb,
            -1074 <= ea -> ea < eb -> Zpos ma < 2 ^ 53 -> 2 ^ 52 <= Zpos mb ->
            Zpos ma * 2 ^ (ea + 1074) < Zpos mb * 2 ^ (eb + 1074)).
  { intros ma mb ea eb Hea Hab Hma Hmb.
    replace (eb + 1074) with ((ea + 1074) + (eb - ea)) by lia.
    rewrite (Z.pow_add_r 2 (ea + 1074) (eb - ea)) by lia.
    pose proof (pow_pos_1074 ea Hea) as HA.
    assert (HP : 2 <= 2 ^ (eb - ea)).
    { change 2 with (2 ^ 1) at 1. apply Z.pow_le_mono_r; lia. }
    set (A := 2 ^ (ea + 1074)) in *. set (P := 2 ^ (eb - ea)) in *.
    change (2 ^ 53) with (2 * 2 ^ 52) in Hma.
    set (T := 2 ^ 52) in *. clearbody A P T.
    assert (S1 : Zpos ma * A < 2 * T * A)
      by (apply Z.mul_lt_mono_pos_r; lia).
    assert (S2 : 2 * T * A <= 2 * Zpos mb * A)
      by (apply Z.mul_le_mono_nonneg_r; lia).
    assert (S0 : 0 <= Zpos mb * A) by (apply Z.mul_nonneg_nonneg; lia).
    assert (S3 : 2 * (Zpos mb * A) <= P * (Zpos mb * A))
      by (apply Z.mul_le_mono_nonneg_r; lia).
    replace (Zpos mb * (A * P)) with (P * (Zpos mb * A)) by ring.
    lia. }
  destruct (Z.compare_spec e1 e2) as [Heq | Hl | Hg].
  - subst e2. rewrite Pos.compare_cont_spec. cbn [Pos.switch_Eq].
    rewrite <- Zmult_compare_compat_r
      by (apply Z.lt_gt, pow_pos_1074; exact He1).
    change (Zpos m1 ?= Zpos m2) with (m1 ?= m2)%positive.
    destruct (m1 ?= m2)%positive; reflexivity.
  - symmetry. apply Z.compare_lt_iff. apply Hlt; lia.
  - symmetry. apply Z.compare_gt_iff. apply Hlt; lia.
Qed.

(** On canonical is_finite floats, the comparison of floats is the comparison
    of the numbers. *)
Lemma SFcompare_scaled (x y : spec_float) :
  canonical x = true -> canonical y = true ->
  is_finite x = true -> is_finite y = true ->
  SFcompare x y = Some (scaled x ?= scaled y).
Proof.
  intros Hx Hy Fx Fy.
  destruct x as [sx|sx| |sx mx ex]; try discriminate;
    destruct y as [sy|sy| |sy my ey]; try discriminate; simpl SFcompare.
  - reflexivity.
  - unfold canonical, valid_binary in Hy.
    destruct (bounded_facts _ _ Hy) as (He & _).
    pose proof (pow_pos_1074 ey He). simpl scaled.
    f_equal. symmetry. destruct sy.
    + apply Z.compare_gt_iff. nia.
    + apply Z.compare_lt_iff. nia.
  - unfold canonical, valid_binary in Hx.
    destruct (bounded_facts _ _ Hx) as (He & _).
    pose proof (pow_pos_1074 ex He). simpl scaled.
    f_equal. symmetry. destruct sx.
    + apply Z.compare_lt_iff. nia.
    + apply Z.compare_gt_iff. nia.
  - unfold canonical, valid_binary in Hx, Hy.
    destruct (bounded_facts _ _ Hx) as (Hex & _).
    destruct (bounded_facts _ _ Hy) as (Hey & _).
    pose proof (pow_pos_1074 ex Hex). pose proof (pow_pos_1074 ey Hey).
    simpl scaled. f_equal. destruct sx, sy.
    + pose proof (compare_scaled_pos my mx ey ex Hy Hx) as Hc.
      rewrite <- !Pos2Z.opp_pos, !Z.mul_opp_l, Z.compare_opp, <- Hc.
      rewrite (Z.compare_antisym ey ex), Pos.compare_cont_antisym.
      destruct (ey ?= ex); reflexivity.
    + symmetry. apply Z.compare_lt_iff. nia.
    + symmetry. apply Z.compare_gt_iff. nia.
    + apply compare_scaled_pos; assumption.
Qed.

Lemma SFleb_scaled (x y : spec_float) :
  canonical x = true -> canonical y = true ->
  is_finite x = true -> is_finite y = true ->
  SFleb x y = (scaled x <=? scaled y).
Proof.
  intros Hx Hy Fx Fy. unfold SFleb, Z.leb.
  rewrite (SFcompare_scaled x y Hx Hy Fx Fy).
  destruct (scaled x ?= scaled y); reflexivity.
Qed.

(** The interval test on the number is the interval test on the scaled
    number. *)
Lemma float_in_scaled (lo hi : Z) (f : spec_float) :
  canonical f = true -> is_finite f = true ->
  float_in lo hi f
  = (lo * 2 ^ 1074 <=? scaled f) && (scaled f <=? hi * 2 ^ 1074).
Proof.
  intros Hf Ff. assert (HK : 0 < 2 ^ 1074) by (apply Z.pow_pos_nonneg; lia).
  apply eq_true_iff_eq. rewrite andb_true_iff, !Z.leb_le.
  destruct f as [s|s| |s m e]; try discriminate; simpl float_in; simpl scaled.
  - rewrite andb_true_iff, !Z.leb_le. nia.
  - unfold canonical, valid_binary in Hf.
    destruct (bounded_facts _ _ Hf) as (He & _).
    set (v := if s then Z.neg m else Z.pos m).
    destruct (Z.leb_spec 0 e) as [Hpos | Hneg].
    + rewrite andb_true_iff, !Z.leb_le.
      rewrite (Z.pow_add_r 2 e 1074) by lia.
      set (K := 2 ^ 1074) in *. set (E := 2 ^ e). clearbody K E.
      nia.
    + rewrite andb_true_iff, !Z.leb_le.
      replace (2 ^ 1074) with (2 ^ (- e) * 2 ^ (e + 1074))
        by (rewrite <- Z.pow_add_r by lia; f_equal; lia).
      pose proof (pow_pos_1074 e He) as HJ.
      set (J := 2 ^ (e + 1074)) in *. set (E := 2 ^ (- e)). clearbody J E.
      nia.
Qed.

(** The two comparisons of the code against integer bounds are the
    interval test on the number. *)
Lemma f64_leb_between (lo hi : Z) (f : spec_float) :
  canonical (f64_of_Z lo) = true -> is_finite (f64_of_Z lo) = true ->
  scaled (f64_of_Z lo) = lo * 2 ^ 1074 ->
  canonical (f64_of_Z hi) = true -> is_finite (f64_of_Z hi) = true ->
  scaled (f64_of_Z hi) = hi * 2 ^ 1074 ->
  canonical f = true ->
  f64_leb (f64_of_Z lo) f && f64_leb f (f64_of_Z hi) = float_in lo hi f.
Proof.
  intros Cl Fl Sl Ch Fh Sh Cf. unfold f64_leb.
  destruct (is_finite f) eqn:Ff.
  - rewrite (SFleb_scaled _ _ Cl Cf Fl Ff), (SFleb_scaled _ _ Cf Ch Ff Fh).
    rewrite Sl, Sh. symmetry. apply float_in_scaled; assumption.
  - destruct f as [s|s| |s m e]; try discriminate; simpl float_in.
    + destruct (f64_of_Z lo) as [| | |sl ml el], (f64_of_Z hi) as [| | |sh mh eh];
        try discriminate; destruct s; simpl;
        try reflexivity; try (destruct sl; reflexivity);
        try (destruct sh; reflexivity);
        try (destruct sl, sh; reflexivity).
    + destruct (f64_of_Z lo); reflexivity.
Qed.

(** The range test of the loader, on canonical floats. *)
Lemma valid_latlng_bounds (lat lng : spec_float) :
  canonical lat = true -> canonical lng = true ->
  valid_latlng lat lng = float_in (-90) 90 lat && float_in (-180) 180 lng.
Proof.
  intros Hlat Hlng. unfold valid_latlng.
  rewrite <- (f64_leb_between (-90) 90 lat) by (try exact Hlat; vm_compute; reflexivity).
  rewrite <- (f64_leb_between (-180) 180 lng) by (try exact Hlng; vm_compute; reflexivity).
  rewrite <- !andb_assoc. reflexivity.
Qed.

Section RangeFacts.

Context `{PyBuiltins}.

Lemma row_range_kinds hm row :
  canonical_coords hm row = true ->
  bad_coords hm row = out_of_range hm row
  /\ good_coords hm row = in_range hm row.
Proof.
  unfold canonical_coords, bad_coords, good_coords, out_of_range, in_range.
  destruct (lat_of hm row) as [lat|], (lng_of hm row) as [lng|]; auto.
  intros [Hlat Hlng]%andb_true_iff.
  rewrite (valid_latlng_bounds lat lng Hlat Hlng). auto.
Qed.

Lemma filter_range_kinds hm rows :
  (forall row, In row rows -> canonical_coords hm row = true) ->
  List.filter (bad_coords hm) rows = List.filter (out_of_range hm) rows
  /\ List.filter (good_coords hm) rows = List.filter (in_range hm) rows.
Proof.
  intros Hall. split; apply List.filter_ext_in; intros row Hin;
    destruct (row_range_kinds hm row (Hall row Hin)); assumption.
Qed.

End RangeFacts.

(** C1.  A row one of whose coordinates is absent after conversion (the
    cell is missing, [float] raises on it, or it is NaN) is not appended and
    adds exactly one to the skipped-no-coordinates counter; a row with both
    coordinates present whose point lies outside [-90, 90] x [-180, 180] is
    not appended and adds exactly one to the bad-lat/lng counter; a row
    whose point lies inside is appended with its two coordinates.  Over a
    whole pass, and over a whole load, each counter grows by the number of
    rows of its kind.  The coordinates are binary64 floats in canonical
    form, compared with the bounds as numbers. *)
Theorem coordinate_filter `{PyBuiltins} (hm : gmap string nat) (d : diag)
    (resources : list resource) (row : list cell) :
  let st := process_row hm (d, resources) row in
  (forall x, _to_float x = None
             <-> py_float x = None \/ py_float x = Some S754_nan)
  /\ (forall x f, _to_float x = Some f
                  <-> py_float x = Some f /\ isnan f = false)
  /\ py_float CNone = None
  /\ (lat_of hm row = None \/ lng_of hm row = None ->
      snd st = resources
      /\ skipped_no_coords (fst st) = S (skipped_no_coords d)
      /\ bad_latlng (fst st) = bad_latlng d)
  /\ (forall lat lng,
        lat_of hm row = Some lat -> lng_of hm row = Some lng ->
        canonical lat = true -> canonical lng = true ->
        float_in (-90) 90 lat && float_in (-180) 180 lng = false ->
        snd st = resources
        /\ bad_latlng (fst st) = S (bad_latlng d)
        /\ skipped_no_coords (fst st) = skipped_no_coords d)
  /\ (forall lat lng,
        lat_of hm row = Some lat -> lng_of hm row = Some lng ->
        canonical lat = true -> canonical lng = true ->
        float_in (-90) 90 lat && float_in (-180) 180 lng = true ->
        exists res, snd st = resources ++ [res]
                    /\ r_lat res = lat /\ r_lng res = lng /\ fst st = d)
  /\ (forall rows,
        (forall r, In r rows -> canonical_coords hm r = true) ->
        let st' := process_rows hm (d, resources) rows in
        skipped_no_coords (fst st')
        = (skipped_no_coords d + length (List.filter (no_coords hm) rows))%nat
        /\ bad_latlng (fst st')
           = (bad_latlng d + length (List.filter (out_of_range hm) rows))%nat
        /\ length (snd st')
           = (length resources + length (List.filter (in_range hm) rows))%nat)
  /\ (forall ws,
        let hm' := header_map (header_cells (ws_header_row ws)) in
        let out := _load_resources_from_xlsx (Workbook ws) in
        (forall r, In r (ws_rows ws) -> canonical_coords hm' r = true) ->
        skipped_no_coords (snd out)
        = length (List.filter (no_coords hm') (ws_rows ws))
        /\ bad_latlng (snd out)
           = length (List.filter (out_of_range hm') (ws_rows ws))
        /\ parsed_rows (snd out) = length (fst out)
        /\ length (fst out)
           = length (List.filter (in_range hm') (ws_rows ws))).
Proof.
  intros st. split; [exact _to_float_None|]. split; [exact _to_float_Some|].
  split; [reflexivity|].
  split; [|split; [|split; [|split]]].
  - intros Habs.
    assert (Hn : no_coords hm row = true).
    { unfold no_coords. destruct Habs as [-> | ->]; [reflexivity|].
      destruct (lat_of hm row); reflexivity. }
    subst st. unfold process_row. rewrite (row_body_no_coords _ _ _ Hn).
    simpl. auto.
  - intros lat lng Hlat Hlng Clat Clng Hbad.
    assert (Hb : bad_coords hm row = true).
    { unfold bad_coords.
      rewrite Hlat, Hlng, (valid_latlng_bounds lat lng Clat Clng), Hbad.
      reflexivity. }
    subst st. unfold process_row. rewrite (row_body_bad_coords _ _ _ Hb).
    simpl. auto.
  - intros lat lng Hlat Hlng Clat Clng Hok.
    assert (Hg : good_coords hm row = true).
    { unfold good_coords.
      rewrite Hlat, Hlng, (valid_latlng_bounds lat lng Clat Clng). exact Hok. }
    destruct (row_body_good_coords hm resources row Hg)
      as (res & Hres & Hla & Hln & _).
    subst st. unfold process_row. rewrite Hres. exists res. simpl.
    rewrite Hlat in Hla. rewrite Hlng in Hln.
    injection Hla as ->. injection Hln as ->. auto.
  - intros rows Hcan.
    destruct (filter_range_kinds hm rows Hcan) as [<- <-].
    apply process_rows_counts.
  - intros ws hm' out Hcan.
    destruct (filter_range_kinds hm' (ws_rows ws) Hcan) as [<- <-].
    apply load_counts.
Qed.

Lemma coordinate_filter_witness :
  (let st := process_row sample_map (diag0, []) blank_row in
   snd st = [] /\ skipped_no_coords (fst st) = 1%nat
   /\ bad_latlng (fst st) = 0%nat)
  /\ (let st := process_row sample_map (diag0, []) far_row in
      snd st = [] /\ bad_latlng (fst st) = 1%nat
      /\ skipped_no_coords (fst st) = 0%nat)
  /\ (let st := process_row sample_map (diag0, []) west_row in
      snd st = [] /\ bad_latlng (fst st) = 1%nat
      /\ skipped_no_coords (fst st) = 0%nat)
  /\ (let st := process_row sample_map (diag0, []) clinic_row in
      exists res, snd st = [] ++ [res]
                  /\ r_lat res = f64 "39.29" /\ r_lng res = f64 "-76.61"
                  /\ fst st = diag0)
  /\ (let st := process_row sample_map (diag0, []) edge_row in
      exists res, snd st = [] ++ [res]
                  /\ r_lat res = f64_of_Z 90 /\ r_lng res = f64_of_Z (-180)
                  /\ fst st = diag0)
  /\ (let out := _load_resources_from_xlsx (Workbook sample_sheet) in
      skipped_no_coords (snd out) = 1%nat /\ bad_latlng (snd out) = 1%nat
      /\ parsed_rows (snd out) = 3%nat).
Proof.
  split; [|split; [|split; [|split; [|split]]]].
  - apply (proj1 (proj2 (proj2 (proj2
             (coordinate_filter sample_map diag0 [] blank_row))))).
    left. vm_compute. reflexivity.
  - apply (proj1 (proj2 (proj2 (proj2 (proj2
             (coordinate_filter sample_map diag0 [] far_row)))))
             (f64_of_Z 91) (f64_of_Z 0));
      vm_compute; reflexivity.
  - apply (proj1 (proj2 (proj2 (proj2 (proj2
             (coordinate_filter sample_map diag0 [] west_row)))))
             (f64 "39.29") (f64 "-180.5"));
      vm_compute; reflexivity.
  - apply (proj1 (proj2 (proj2 (proj2 (proj2 (proj2
             (coordinate_filter sample_map diag0 [] clinic_row))))))
             (f64 "39.29") (f64 "-76.61"));
      vm_compute; reflexivity.
  - apply (proj1 (proj2 (proj2 (proj2 (proj2 (proj2
             (coordinate_filter sample_map diag0 [] edge_row))))))
             (f64_of_Z 90) (f64_of_Z (-180)));
      vm_compute; reflexivity.
  - destruct (proj2 (proj2 (proj2 (proj2 (proj2 (proj2 (proj2
                (coordinate_filter sample_map diag0 [] clinic_row)))))))
                sample_sheet) as (Hs & Hb & Hp & Hl).
    + intros r Hr.
      repeat (destruct Hr as [<- | Hr]; [vm_compute; reflexivity|]).
      destruct Hr.
    + cbv zeta. rewrite Hs, Hb, Hp, Hl. vm_compute. auto.
Defined.

(** ** The loader: identifiers *)

Section IdentifierFacts.

Context `{PyBuiltins}.

Lemma assign_id_blank (rid : cell) (resources : list resource) :
  blank_id rid ->
  assign_id rid resources = CInt (Z.of_nat (length resources) + 1).
Proof.
  intros [-> | Hblank]; [reflexivity|].
  unfold assign_id. rewrite Hblank. destruct rid; reflexivity.
Qed.

Lemma assign_id_given (rid : cell) (resources : list resource) :
  rid <> CNone -> strip (str rid) <> "" -> assign_id rid resources = rid.
Proof.
  intros Hnone Hblank. unfold assign_id.
  destruct (String.eqb_spec (strip (str rid)) "") as [Heq|_]; [contradiction|].
  destruct rid; [contradiction | reflexivity ..].
Qed.

(** The records a pass appends carry the numbers that continue the count
    of the records already kept, when no row brings an identifier. *)
Lemma process_rows_ids hm rows : forall d resources,
  (forall row, In row rows -> blank_id (id_cell hm row)) ->
  exists new,
    snd (process_rows hm (d, resources) rows) = resources ++ new
    /\ map r_id new
       = map (fun i => CInt (Z.of_nat i))
             (seq (S (length resources)) (length new)).
Proof.
  induction rows as [|row rows IH]; intros d resources Hblank.
  - exists []. simpl. rewrite app_nil_r. auto.
  - rewrite process_rows_cons.
    assert (Hrest : forall r, In r rows -> blank_id (id_cell hm r))
      by (intros r Hr; apply Hblank; right; exact Hr).
    destruct (row_kinds hm row) as [(Hn & _)|[(_ & Hb & _)|(_ & _ & Hg)]];
      unfold process_row.
    + rewrite (row_body_no_coords _ resources _ Hn). apply IH, Hrest.
    + rewrite (row_body_bad_coords _ resources _ Hb). apply IH, Hrest.
    + destruct (row_body_good_coords hm resources row Hg)
        as (res & -> & _ & _ & Hid & _).
      destruct (IH d (resources ++ [res]) Hrest) as (new & Hout & Hids).
      exists (res :: new). split.
      * rewrite Hout, <- app_assoc. reflexivity.
      * rewrite length_app in Hids. simpl in Hids.
        rewrite Nat.add_1_r in Hids. simpl. rewrite Hids. f_equal.
        rewrite Hid, assign_id_blank by (apply Hblank; left; reflexivity).
        f_equal. lia.
Qed.

Lemma filter_all_true {A : Type} (f : A -> bool) (l : list A) :
  (forall x, In x l -> f x = true) -> List.filter f l = l.
Proof.
  induction l as [|x l IH]; intros Hall; [reflexivity|]. simpl.
  rewrite (Hall x (or_introl eq_refl)). f_equal. apply IH.
  intros y Hy. apply Hall. right. exact Hy.
Qed.

End IdentifierFacts.

(** C4.  A kept record carries the identifier cell of its row verbatim when
    that cell is not blank, and otherwise the count of records kept so far
    plus one.  Hence, when no row brings an identifier, the identifiers of
    the output are 1, 2, ... in row order, and 1..N for N rows that all
    pass validation. *)
Theorem identifier_assignment `{PyBuiltins} (hm : gmap string nat) :
  (forall resources row,
     good_coords hm row = true ->
     exists res,
       row_body hm resources row = Kept res
       /\ (id_cell hm row <> CNone -> strip (str (id_cell hm row)) <> "" ->
           r_id res = id_cell hm row)
       /\ (blank_id (id_cell hm row) ->
           r_id res = CInt (Z.of_nat (length resources) + 1)))
  /\ (forall d rows,
        (forall row, In row rows -> blank_id (id_cell hm row)) ->
        let out := snd (process_rows hm (d, []) rows) in
        map r_id out = map (fun i => CInt (Z.of_nat i)) (seq 1 (length out)))
  /\ (forall d rows,
        (forall row, In row rows -> good_coords hm row = true) ->
        (forall row, In row rows -> blank_id (id_cell hm row)) ->
        map r_id (snd (process_rows hm (d, []) rows))
        = map (fun i => CInt (Z.of_nat i)) (seq 1 (length rows))).
Proof.
  split; [|split].
  - intros resources row Hg.
    destruct (row_body_good_coords hm resources row Hg)
      as (res & Hres & _ & _ & Hid & _).
    exists res. split; [exact Hres|]. rewrite Hid. split.
    + apply assign_id_given.
    + apply assign_id_blank.
  - intros d rows Hblank out.
    destruct (process_rows_ids hm rows d [] Hblank) as (new & Hout & Hids).
    subst out. rewrite Hout. exact Hids.
  - intros d rows Hgood Hblank.
    destruct (process_rows_ids hm rows d [] Hblank) as (new & Hout & Hids).
    destruct (process_rows_counts hm rows d []) as (_ & _ & Hlen).
    rewrite (filter_all_true _ _ Hgood), Hout in Hlen. simpl in Hlen.
    rewrite Hout. simpl. rewrite <- Hlen. exact Hids.
Qed.

Lemma identifier_assignment_witness :
  map r_id (snd (process_rows sample_map (diag0, [])
                   [clinic_row; blank_row; clinic_row; far_row; clinic_row]))
  = [CInt 1; CInt 2; CInt 3].
Proof.
  rewrite (proj1 (proj2 (identifier_assignment sample_map)) diag0
             [clinic_row; blank_row; clinic_row; far_row; clinic_row]).
  - vm_compute. reflexivity.
  - intros row Hrow. left.
    repeat (destruct Hrow as [<- | Hrow]; [vm_compute; reflexivity|]).
    destruct Hrow.
Defined.

(** ** The loader: reliability *)

Lemma mem_In (s : string) (l : list string) : mem s l = true <-> In s l.
Proof.
  unfold mem. rewrite existsb_exists. split.
  - intros (x & Hx & Heq). apply String.eqb_eq in Heq. subst x. exact Hx.
  - intros Hin. exists s. split; [exact Hin | apply String.eqb_refl].
Qed.

Lemma mem_not_In (s : string) (l : list string) : mem s l = false <-> ~ In s l.
Proof.
  rewrite <- mem_In. destruct (mem s l); split; intros Hx;
    try reflexivity; try discriminate; try (intros Hy; discriminate).
  exfalso. apply Hx. reflexivity.
Qed.

(** C6, amended.  The reliability entry of a kept record is the trimmed text
    of the reliability cell, except that the empty text and the exact texts
    "nan" and "none", in lower case as written, become "na". *)
Theorem reliability_field `{PyBuiltins} (hm : gmap string nat)
    (resources : list resource) (row : list cell) :
  good_coords hm row = true ->
  let raw :=
    strip (str (grab hm row
                  ["Reliability Rate 1-10"; "Reliability Rate 1–10";
                   "Reliability"] (CStr ""))) in
  exists res,
    row_body hm resources row = Kept res
    /\ (raw = "" \/ raw = "nan" \/ raw = "none" -> r_reliability res = "na")
    /\ (raw <> "" -> raw <> "nan" -> raw <> "none" -> r_reliability res = raw).
Proof.
  intros Hg raw.
  destruct (row_body_good_coords hm resources row Hg)
    as (res & Hres & _ & _ & _ & Hrel).
  exists res. split; [exact Hres|]. rewrite Hrel. unfold reliability_of.
  fold raw. split.
  - intros Hraw.
    assert (Hm : mem raw [""; "nan"; "none"] = true).
    { apply mem_In. simpl. intuition auto. }
    rewrite Hm. reflexivity.
  - intros H1 H2 H3.
    assert (Hm : mem raw [""; "nan"; "none"] = false).
    { apply mem_not_In. simpl. intros [Hx|[Hx|[Hx|[]]]]; auto. }
    rewrite Hm. reflexivity.
Qed.

Lemma reliability_field_witness :
  exists res, row_body sample_map [] pantry_row = Kept res
              /\ r_reliability res = "None".
Proof.
  destruct (reliability_field sample_map [] pantry_row)
    as (res & Hres & _ & Hraw); [vm_compute; reflexivity|].
  exists res. split; [exact Hres|].
  rewrite Hraw; [vm_compute; reflexivity | vm_compute; discriminate ..].
Defined.

(** C6 as stated fails: the comparison is not case-insensitive.  The text
    "None" lower-cases to "none" and yet is passed through. *)
Lemma reliability_case_counterexample :
  ~ (forall v : cell,
       In (lower (strip (str v))) [""; "nan"; "none"] ->
       reliability_of v = "na").
Proof.
  intros Hclaim.
  assert (Hna : reliability_of (CStr "None") = "na").
  { apply Hclaim. vm_compute. right. right. left. reflexivity. }
  vm_compute in Hna. discriminate.
Qed.

(** ** The loader: header resolution *)

Section HeaderFacts.

Context `{PyBuiltins}.

Lemma header_map_snoc (hs : list cell) (h : cell) :
  header_map (hs ++ [h]) = <[norm h := length hs]> (header_map hs).
Proof.
  unfold header_map. rewrite imap_app, fold_left_app. simpl.
  rewrite Nat.add_0_r. reflexivity.
Qed.

(** The header map sends a normalised name to the last column that
    carries it. *)
Lemma header_map_lookup (hs : list cell) (k : string) (idx : nat) :
  header_map hs !! k = Some idx
  <-> (exists h, hs !! idx = Some h /\ norm h = k)
      /\ (forall j h', (idx < j)%nat -> hs !! j = Some h' -> norm h' <> k).
Proof.
  revert idx. induction hs as [|h hs IH] using rev_ind; intros idx.
  - unfold header_map. simpl. rewrite lookup_empty. split.
    + discriminate.
    + intros [(h & Hh & _) _]. rewrite lookup_nil in Hh. discriminate.
  - rewrite header_map_snoc, lookup_insert.
    destruct (decide (norm h = k)) as [Hk|Hk].
    + split.
      * intros Heq. injection Heq as <-. split.
        -- exists h. split; [|exact Hk].
           rewrite lookup_app_r by lia. rewrite Nat.sub_diag. reflexivity.
        -- intros j h' Hj Hlk. apply lookup_lt_Some in Hlk.
           rewrite length_app in Hlk. simpl in Hlk. lia.
      * intros [(h0 & Hh0 & _) Hlast].
        assert (Hlt : (idx < length (hs ++ [h]))%nat)
          by (eapply lookup_lt_Some; exact Hh0).
        rewrite length_app in Hlt. simpl in Hlt.
        destruct (decide (idx = length hs)) as [->|Hne]; [reflexivity|].
        exfalso. apply (Hlast (length hs) h); [lia | | exact Hk].
        rewrite lookup_app_r by lia. rewrite Nat.sub_diag. reflexivity.
    + rewrite IH. split.
      * intros [(h0 & Hh0 & Hn0) Hlast]. split.
        -- exists h0. split; [|exact Hn0].
           rewrite lookup_app_l; [exact Hh0 | eapply lookup_lt_Some; exact Hh0].
        -- intros j h' Hj Hlk.
           destruct (decide (j < length hs)%nat) as [Hlt|Hge].
           ++ rewrite lookup_app_l in Hlk by exact Hlt. eapply Hlast; eauto.
           ++ rewrite lookup_app_r in Hlk by lia.
              destruct (j - length hs)%nat eqn:Hd; simpl in Hlk;
                [|rewrite lookup_nil in Hlk; discriminate].
              injection Hlk as <-. exact Hk.
      * intros [(h0 & Hh0 & Hn0) Hlast].
        assert (Hlt : (idx < length hs)%nat).
        { assert (Hl : (idx < length (hs ++ [h]))%nat)
            by (eapply lookup_lt_Some; exact Hh0).
          rewrite length_app in Hl. simpl in Hl.
          destruct (decide (idx = length hs)) as [->|Hne]; [|lia].
          exfalso. rewrite lookup_app_r in Hh0 by lia.
          rewrite Nat.sub_diag in Hh0. injection Hh0 as <-. contradiction. }
        rewrite lookup_app_l in Hh0 by exact Hlt. split.
        -- exists h0. auto.
        -- intros j h' Hj Hlk. apply (Hlast j h' Hj).
           rewrite lookup_app_l; [exact Hlk | eapply lookup_lt_Some; exact Hlk].
Qed.

(** One step of [grab]. *)
Lemma grab_cons hm row n rest dflt :
  grab hm row (n :: rest) dflt
  = match usable hm row n with
    | Some v => v
    | None => grab hm row rest dflt
    end.
Proof.
  cbn [grab]. unfold usable. destruct (hm !! norm (CStr n)) as [idx|]; [|reflexivity].
  destruct (row !! idx) as [[]|]; reflexivity.
Qed.

Lemma grab_first_usable hm row dflt pre n post v :
  (forall n', In n' pre -> usable hm row n' = None) ->
  usable hm row n = Some v ->
  grab hm row (pre ++ n :: post) dflt = v.
Proof.
  intros Hpre Hn. induction pre as [|n0 pre IH]; simpl app.
  - rewrite grab_cons, Hn. reflexivity.
  - rewrite grab_cons, (Hpre n0 (or_introl eq_refl)). apply IH.
    intros n' Hin. apply Hpre. right. exact Hin.
Qed.

Lemma grab_none_usable hm row dflt names :
  (forall n, In n names -> usable hm row n = None) ->
  grab hm row names dflt = dflt.
Proof.
  induction names as [|n names IH]; intros Hall; [reflexivity|].
  rewrite grab_cons, (Hall n (or_introl eq_refl)). apply IH.
  intros n' Hin. apply Hall. right. exact Hin.
Qed.

End HeaderFacts.

(** C7, amended.  A header matches an alias when both have the same
    lower-cased, white-space-collapsed form, and of several columns with
    that form the last one is taken.  [grab] returns the cell of the first
    alias that matches a header and whose cell in the row is not [None]
    (an empty string is a cell like any other); when no alias has such a
    cell, in particular when no alias matches any header, it returns the
    default. *)
Theorem header_resolution `{PyBuiltins} (hs row : list cell)
    (names : list string) (dflt : cell) :
  let hm := header_map hs in
  (forall k idx,
     hm !! k = Some idx
     <-> (exists h, hs !! idx = Some h /\ norm h = k)
         /\ (forall j h', (idx < j)%nat -> hs !! j = Some h' -> norm h' <> k))
  /\ (forall pre n post v,
        names = pre ++ n :: post ->
        (forall n', In n' pre -> usable hm row n' = None) ->
        usable hm row n = Some v ->
        grab hm row names dflt = v)
  /\ ((forall n, In n names -> usable hm row n = None) ->
      grab hm row names dflt = dflt)
  /\ ((forall n h, In n names -> In h hs -> norm (CStr n) <> norm h) ->
      grab hm row names dflt = dflt).
Proof.
  intros hm. split; [exact (header_map_lookup hs)|]. split; [|split].
  - intros pre n post v -> Hpre Hn. exact (grab_first_usable _ _ _ _ _ _ _ Hpre Hn).
  - apply grab_none_usable.
  - intros Hno. apply grab_none_usable. intros n Hin. unfold usable.
    destruct (hm !! norm (CStr n)) as [idx|] eqn:Hlk; [|reflexivity].
    apply header_map_lookup in Hlk as [(h & Hh & Hnorm) _].
    exfalso. apply (Hno n h Hin); [|congruence].
    apply list_elem_of_In. eapply list_elem_of_lookup_2. exact Hh.
Qed.

Lemma header_resolution_witness :
  grab sample_map pantry_row ["Name of Service"; "Name"] (CStr "")
  = CStr "Food Pantry"
  /\ grab sample_map pantry_row ["Phone Number"; "Phone"] (CStr "") = CStr "".
Proof.
  split.
  - apply (proj1 (proj2 (header_resolution
                           (header_cells sample_headers) pantry_row
                           ["Name of Service"; "Name"] (CStr "")))
             ["Name of Service"] "Name" [] (CStr "Food Pantry")).
    + reflexivity.
    + intros n' [<- | []]. vm_compute. reflexivity.
    + vm_compute. reflexivity.
  - apply (proj2 (proj2 (proj2 (header_resolution
                           (header_cells sample_headers) pantry_row
                           ["Phone Number"; "Phone"] (CStr ""))))).
    intros n h Hn Hh.
    repeat (destruct Hn as [<- | Hn];
            [repeat (destruct Hh as [<- | Hh]; [vm_compute; discriminate|]);
             destruct Hh|]).
    destruct Hn.
Defined.

(** C7 as stated fails: the first alias that matches a header does not win
    when its cell is empty.  Here "Name of Service" is a header, its cell is
    empty, and [grab] returns the cell of the later alias "Name": neither
    the cell of the first matching alias nor the default. *)
Lemma header_resolution_counterexample :
  ~ (forall (hs row : list cell) (names : list string) (dflt : cell)
            (idx : nat) (v : cell),
       first_matching_alias (header_map hs) names = Some idx ->
       row !! idx = Some v ->
       grab (header_map hs) row names dflt = v
       \/ grab (header_map hs) row names dflt = dflt).
Proof.
  intros Hclaim.
  destruct (Hclaim (header_cells sample_headers) pantry_row
              ["Name of Service"; "Name"] (CStr "") 1%nat CNone)
    as [Hv | Hd].
  - vm_compute. reflexivity.
  - reflexivity.
  - vm_compute in Hv. discriminate.
  - vm_compute in Hd. discriminate.
Qed.

(** ** The loader: flags *)

(** C8.  [to_bool_flag] is a total function with three results.  A value
    whose text, trimmed and lower-cased, is "yes", "y", "true" or "1" gives
    true; "no", "n", "false" or "0" gives false; [None] and every other
    value, the empty string among them, gives unknown. *)
Theorem to_bool_flag_total `{PyBuiltins} (v : cell) :
  let s := lower (strip (str v)) in
  (v <> CNone -> In s ["yes"; "y"; "true"; "1"] -> to_bool_flag v = Some true)
  /\ (v <> CNone -> In s ["no"; "n"; "false"; "0"] ->
      to_bool_flag v = Some false)
  /\ (v = CNone
      \/ ~ In s ["yes"; "y"; "true"; "1"; "no"; "n"; "false"; "0"] ->
      to_bool_flag v = None)
  /\ map to_bool_flag
       [CStr "Yes"; CStr "y"; CStr "TRUE"; CStr "1";
        CStr "No"; CStr "n"; CStr "FALSE"; CStr "0";
        CStr ""; CStr "maybe"; CNone]
     = [Some true; Some true; Some true; Some true;
        Some false; Some false; Some false; Some false;
        None; None; None].
Proof.
  intros s.
  assert (Hdef : v <> CNone ->
            to_bool_flag v
            = if mem s ["yes"; "y"; "true"; "1"] then Some true
              else if mem s ["no"; "n"; "false"; "0"] then Some false
              else None).
  { intros Hv. destruct v; [contradiction | reflexivity ..]. }
  split; [|split; [|split]].
  - intros Hv Hs. rewrite (Hdef Hv).
    apply mem_In in Hs. rewrite Hs. reflexivity.
  - intros Hv Hs. rewrite (Hdef Hv).
    assert (Hno : mem s ["yes"; "y"; "true"; "1"] = false).
    { apply mem_not_In. intros Hyes. simpl in Hs, Hyes.
      destruct Hs as [Hs|[Hs|[Hs|[Hs|[]]]]]; rewrite <- Hs in Hyes;
        destruct Hyes as [Hy|[Hy|[Hy|[Hy|[]]]]]; discriminate. }
    apply mem_In in Hs. rewrite Hno, Hs. reflexivity.
  - intros [-> | Hs]; [reflexivity|].
    destruct (decide (v = CNone)) as [-> | Hv]; [reflexivity|].
    rewrite (Hdef Hv).
    assert (Hyes : mem s ["yes"; "y"; "true"; "1"] = false).
    { apply mem_not_In. intros Hin. apply Hs. simpl in *. tauto. }
    assert (Hno : mem s ["no"; "n"; "false"; "0"] = false).
    { apply mem_not_In. intros Hin. apply Hs. simpl in *. tauto. }
    rewrite Hyes, Hno. reflexivity.
  - reflexivity.
Qed.

Lemma to_bool_flag_total_witness :
  to_bool_flag (CStr "  YES ") = Some true
  /\ to_bool_flag (CBool false) = Some false
  /\ to_bool_flag (CFloat (f64 "1.0")) = None.
Proof.
  split; [|split].
  - apply (proj1 (to_bool_flag_total (CStr "  YES "))); [discriminate|].
    vm_compute. left. reflexivity.
  - apply (proj1 (proj2 (to_bool_flag_total (CBool false)))); [discriminate|].
    vm_compute. right. right. left. reflexivity.
  - apply (proj1 (proj2 (proj2 (to_bool_flag_total (CFloat (f64 "1.0")))))).
    right. vm_compute. intros Hin.
    repeat (destruct Hin as [Hin|Hin]; [discriminate|]). destruct Hin.
Defined.

(** ** The preparation utility: columns of a data frame *)

Lemma get_col_set_col_eq (col : string) (vs : list cell) (df : dataframe) :
  get_col col (set_col col vs df) = Some vs.
Proof.
  induction df as [|[c old] df IH]; simpl.
  - rewrite String.eqb_refl. reflexivity.
  - destruct (String.eqb c col) eqn:Hc; simpl; rewrite Hc; [reflexivity | exact IH].
Qed.

Lemma get_col_set_col_ne (col col' : string) (vs : list cell) (df : dataframe) :
  col <> col' -> get_col col' (set_col col vs df) = get_col col' df.
Proof.
  intros Hne. induction df as [|[c old] df IH]; simpl.
  - destruct (String.eqb_spec col col'); [contradiction | reflexivity].
  - destruct (String.eqb_spec c col) as [->|Hc]; simpl.
    + destruct (String.eqb_spec col col'); [contradiction | reflexivity].
    + destruct (String.eqb c col'); [reflexivity | exact IH].
Qed.

Lemma has_col_get_col (col : string) (df : dataframe) :
  has_col col df = true <-> get_col col df <> None.
Proof.
  unfold has_col, columns. induction df as [|[c vs] df IH]; simpl.
  - split; [discriminate | congruence].
  - rewrite String.eqb_sym. destruct (String.eqb c col); simpl.
    + split; [discriminate | reflexivity].
    + exact IH.
Qed.

(** C9.  Recategorisation writes the "(Original)" column only when the data
    frame has none: an existing backup column is left as it is, a missing
    one receives the category column as it was.  Running the step again on
    its own output leaves the backup column as the first run left it. *)
Theorem backup_column_once `{PyBuiltins} (df : dataframe) :
  let backup := CATEGORY_COL +:+ " (Original)" in
  let df1 := fst (recategorize_categories df) in
  (has_col backup df = true -> get_col backup df1 = get_col backup df)
  /\ (has_col backup df = false -> get_col CATEGORY_COL df <> None ->
      get_col backup df1 = get_col CATEGORY_COL df)
  /\ get_col backup (fst (recategorize_categories df1)) = get_col backup df1.
Proof.
  intros backup df1.
  assert (Hne : CATEGORY_COL <> backup) by (vm_compute; discriminate).
  assert (Hrun : forall d cats,
            get_col CATEGORY_COL d = Some cats ->
            get_col backup (fst (recategorize_categories d))
            = if has_col backup d then get_col backup d else Some cats).
  { intros d cats Hcats. unfold recategorize_categories. rewrite Hcats.
    fold backup. simpl fst. rewrite get_col_set_col_ne by exact Hne.
    destruct (has_col backup d); [reflexivity|]. apply get_col_set_col_eq. }
  assert (Hcat : forall d cats,
            get_col CATEGORY_COL d = Some cats ->
            get_col CATEGORY_COL (fst (recategorize_categories d)) <> None).
  { intros d cats Hcats. unfold recategorize_categories. rewrite Hcats.
    simpl fst. rewrite get_col_set_col_eq. discriminate. }
  destruct (get_col CATEGORY_COL df) as [cats|] eqn:Hcats.
  - split; [|split].
    + intros Hhas. subst df1. rewrite (Hrun df cats Hcats), Hhas. reflexivity.
    + intros Hhas _. subst df1. rewrite (Hrun df cats Hcats), Hhas. reflexivity.
    + destruct (get_col CATEGORY_COL df1) as [cats1|] eqn:Hcats1.
      * rewrite (Hrun df1 cats1 Hcats1).
        assert (Hhas1 : has_col backup df1 = true).
        { apply has_col_get_col. subst df1. rewrite (Hrun df cats Hcats).
          destruct (has_col backup df) eqn:Hhas; [|discriminate].
          apply has_col_get_col. exact Hhas. }
        rewrite Hhas1. reflexivity.
      * exfalso. apply (Hcat df cats Hcats). exact Hcats1.
  - assert (Hid : recategorize_categories df
                  = (df, ["⚠️ Column '" +:+ CATEGORY_COL
                          +:+ "' not found. Skipping recategorization."])).
    { unfold recategorize_categories. rewrite Hcats. reflexivity. }
    subst df1. rewrite Hid. simpl fst. rewrite Hid. simpl fst.
    split; [reflexivity|]. split; [|reflexivity].
    intros _ Hsome. contradiction.
Qed.

Lemma backup_column_once_witness :
  get_col "Cateogry of Help (Original)" (fst (recategorize_categories raw_sheet))
  = Some [CStr "free health clinic"; CFloat S754_nan; CStr "Youth Advocacy";
          CStr "Food pantry for veterans"].
Proof.
  apply (proj1 (proj2 (backup_column_once raw_sheet))).
  - vm_compute. reflexivity.
  - vm_compute. discriminate.
Defined.

(** ** The preparation utility: missing columns *)

Section PipelineFacts.

Context `{PyBuiltins}.

Variable geocode : list string -> string -> option loc.

(** With an address column, geocoding returns, and it touches the
    coordinate columns only. *)
Lemma geocode_addresses_ok cache0 df :
  get_col ADDRESS_COL df <> None ->
  exists df1 st out,
    geocode_addresses geocode cache0 df = Ok (df1, st, out)
    /\ (forall col, col <> "Latitude" -> col <> "Longitude" ->
                    get_col col df1 = get_col col df).
Proof.
  intros Haddr. unfold geocode_addresses.
  destruct (get_col ADDRESS_COL df) as [addrs|]; [|contradiction].
  cbv zeta.
  match goal with
  | |- context [geocode_rows geocode ?s ?r] =>
      destruct (geocode_rows geocode s r) as [st out]
  end.
  eexists _, st, _. split; [reflexivity|].
  intros col Hlat Hlng.
  rewrite !get_col_set_col_ne by (intros Heq; symmetry in Heq; contradiction).
  reflexivity.
Qed.

End PipelineFacts.

(** C3, amended.  Without the category column, recategorisation is skipped
    with a warning and the run goes on: the geocoded sheet is written.
    Without the address column, geocoding raises [ValueError] and the run
    stops there: nothing is written. *)
Theorem missing_column_policy `{PyBuiltins}
    (geocode : list string -> string -> option loc)
    (cache0 : gmap string loc) (df : dataframe) :
  (get_col ADDRESS_COL df = None ->
   main geocode cache0 (Some df)
   = Raise "ValueError: Could not find the column 'Address' in the Excel file.")
  /\ (get_col CATEGORY_COL df = None ->
      recategorize_categories df
      = (df, ["⚠️ Column 'Cateogry of Help' not found. Skipping recategorization."]))
  /\ (get_col ADDRESS_COL df <> None -> get_col CATEGORY_COL df = None ->
      exists df1 st out,
        geocode_addresses geocode cache0 df = Ok (df1, st, out)
        /\ main geocode cache0 (Some df)
           = Ok {| written := df1;
                   saved_cache := Some (cache_map st);
                   stdout :=
                     out
                     ++ ["⚠️ Column 'Cateogry of Help' not found. Skipping recategorization."]
                     ++ [String "010"%char
                           "✅ Done. Wrote processed file to: 1109 Upload_geocoded.xlsx"] |}).
Proof.
  split; [|split].
  - intros Haddr. unfold main, geocode_addresses. simpl. rewrite Haddr.
    reflexivity.
  - intros Hcat. unfold recategorize_categories. rewrite Hcat. reflexivity.
  - intros Haddr Hcat.
    destruct (geocode_addresses_ok geocode cache0 df Haddr)
      as (df1 & st & out & Hgeo & Hcols).
    exists df1, st, out. split; [exact Hgeo|].
    assert (Hcat1 : get_col CATEGORY_COL df1 = None).
    { rewrite Hcols; [exact Hcat | vm_compute; discriminate ..]. }
    unfold main. simpl. rewrite Hgeo. simpl.
    unfold recategorize_categories. rewrite Hcat1. reflexivity.
Qed.

Lemma missing_column_policy_witness :
  main sample_geocode ∅ (Some sheet_without_address)
  = Raise "ValueError: Could not find the column 'Address' in the Excel file."
  /\ exists df1 st out,
       geocode_addresses sample_geocode ∅ sheet_without_category
       = Ok (df1, st, out)
       /\ main sample_geocode ∅ (Some sheet_without_category)
          = Ok {| written := df1;
                  saved_cache := Some (cache_map st);
                  stdout :=
                    out
                    ++ ["⚠️ Column 'Cateogry of Help' not found. Skipping recategorization."]
                    ++ [String "010"%char
                           "✅ Done. Wrote processed file to: 1109 Upload_geocoded.xlsx"] |}.
Proof.
  split.
  - apply (proj1 (missing_column_policy sample_geocode ∅ sheet_without_address)).
    vm_compute. reflexivity.
  - apply (proj2 (proj2 (missing_column_policy sample_geocode ∅
                           sheet_without_category))).
    + vm_compute. discriminate.
    + vm_compute. reflexivity.
Defined.

(** C3 as stated fails for the address column: the run does not go on. *)
Lemma missing_address_counterexample :
  ~ (forall (geocode : list string -> string -> option loc)
            (cache0 : gmap string loc) (df : dataframe),
       get_col ADDRESS_COL df = None ->
       exists r, main geocode cache0 (Some df) = Ok r).
Proof.
  intros Hclaim.
  destruct (Hclaim sample_geocode ∅ sheet_without_address) as [r Hr].
  - vm_compute. reflexivity.
  - vm_compute in Hr. discriminate.
Qed.

(** ** The preparation utility: geocoding *)

Section GeocodingFacts.

Context `{PyBuiltins}.

Variable geocode : list string -> string -> option loc.

(** The five ways through the body of the loop. *)
Lemma geocode_row_empty st addr_raw lat0 lng0 :
  norm_addr addr_raw = "" ->
  geocode_row geocode st (addr_raw, lat0, lng0) = (st, (lat0, lng0)).
Proof. intros Ha. unfold geocode_row. cbv zeta. rewrite Ha. reflexivity. Qed.

Lemma geocode_row_filled st addr_raw lat0 lng0 :
  notna lat0 && notna lng0 = true ->
  geocode_row geocode st (addr_raw, lat0, lng0) = (st, (lat0, lng0)).
Proof.
  intros Hf. unfold geocode_row. cbv zeta. rewrite Hf.
  destruct (String.eqb (norm_addr addr_raw) ""); reflexivity.
Qed.

Lemma geocode_row_cached st addr_raw lat0 lng0 lat lng :
  norm_addr addr_raw <> "" ->
  notna lat0 && notna lng0 = false ->
  cache_map st !! norm_addr addr_raw = Some (lat, lng) ->
  geocode_row geocode st (addr_raw, lat0, lng0)
  = (st, (CFloat lat, CFloat lng)).
Proof.
  intros Ha Hf Hc. unfold geocode_row. cbv zeta.
  destruct (String.eqb_spec (norm_addr addr_raw) ""); [contradiction|].
  rewrite Hf, Hc. reflexivity.
Qed.

Lemma geocode_row_live st addr_raw lat0 lng0 lat lng :
  norm_addr addr_raw <> "" ->
  notna lat0 && notna lng0 = false ->
  cache_map st !! norm_addr addr_raw = None ->
  geocode (map fst (lookups st)) (norm_addr addr_raw) = Some (lat, lng) ->
  geocode_row geocode st (addr_raw, lat0, lng0)
  = ({| cache_map := <[norm_addr addr_raw := (lat, lng)]> (cache_map st);
        updated := S (updated st);
        lookups := lookups st ++ [(norm_addr addr_raw, Some (lat, lng))] |},
     (CFloat lat, CFloat lng)).
Proof.
  intros Ha Hf Hc Hg. unfold geocode_row. cbv zeta.
  destruct (String.eqb_spec (norm_addr addr_raw) ""); [contradiction|].
  rewrite Hf, Hc, Hg. reflexivity.
Qed.

Lemma geocode_row_not_found st addr_raw lat0 lng0 :
  norm_addr addr_raw <> "" ->
  notna lat0 && notna lng0 = false ->
  cache_map st !! norm_addr addr_raw = None ->
  geocode (map fst (lookups st)) (norm_addr addr_raw) = None ->
  geocode_row geocode st (addr_raw, lat0, lng0)
  = ({| cache_map := cache_map st;
        updated := updated st;
        lookups := lookups st ++ [(norm_addr addr_raw, None)] |},
     (lat0, lng0)).
Proof.
  intros Ha Hf Hc Hg. unfold geocode_row. cbv zeta.
  destruct (String.eqb_spec (norm_addr addr_raw) ""); [contradiction|].
  rewrite Hf, Hc, Hg. reflexivity.
Qed.

Lemma geocode_row_effect st row :
  row_effect st (fst (geocode_row geocode st row)).
Proof.
  destruct row as [[addr_raw lat0] lng0]. unfold geocode_row. cbv zeta. cbv zeta.
  destruct (String.eqb (norm_addr addr_raw) ""); [left; reflexivity|].
  destruct (notna lat0 && notna lng0); [left; reflexivity|].
  destruct (cache_map st !! norm_addr addr_raw) as [[lat lng]|] eqn:Hc;
    [left; reflexivity|].
  destruct (geocode (map fst (lookups st)) (norm_addr addr_raw))
    as [[lat lng]|] eqn:Hg.
  - eapply (effect_lookup _ _ (norm_addr addr_raw) (Some (lat, lng)));
      [exact Hc | reflexivity | reflexivity].
  - eapply (effect_lookup _ _ (norm_addr addr_raw) None);
      [exact Hc | reflexivity | reflexivity].
Qed.

Lemma geocode_rows_cons st row rest :
  fst (geocode_rows geocode st (row :: rest))
  = fst (geocode_rows geocode (fst (geocode_row geocode st row)) rest).
Proof.
  simpl. destruct (geocode_row geocode st row) as [st1 out]. simpl.
  destruct (geocode_rows geocode st1 rest) as [st2 outs]. reflexivity.
Qed.

(** An entry of the cache stays as it is to the end of the pass. *)
Lemma row_effect_keeps st st' addr pos :
  row_effect st st' ->
  cache_map st !! addr = Some pos -> cache_map st' !! addr = Some pos.
Proof.
  intros [-> | a answer Hnone _ Hcache] Hin; [exact Hin|].
  rewrite Hcache. destruct answer as [p|]; [|exact Hin].
  rewrite lookup_insert_ne; [exact Hin | congruence].
Qed.

Lemma geocode_rows_keeps rows : forall st addr pos,
  cache_map st !! addr = Some pos ->
  cache_map (fst (geocode_rows geocode st rows)) !! addr = Some pos.
Proof.
  induction rows as [|row rows IH]; intros st addr pos Hin; [exact Hin|].
  rewrite geocode_rows_cons. apply IH.
  eapply row_effect_keeps; [apply geocode_row_effect | exact Hin].
Qed.

Lemma row_effect_consistent st st' :
  row_effect st st' ->
  answered_are_cached st /\ no_lookup_after_success st ->
  answered_are_cached st' /\ no_lookup_after_success st'.
Proof.
  intros [-> | a answer Hnone Hlog Hcache] [Hcached Hnorep]; [auto|].
  split.
  - intros addr pos Hin. rewrite Hlog in Hin.
    apply in_app_or in Hin as [Hin | [Heq | []]].
    + specialize (Hcached addr pos Hin). rewrite Hcache.
      destruct answer as [p|]; [|exact Hcached].
      destruct (decide (a = addr)) as [->|Hne]; [contradiction|].
      rewrite lookup_insert_ne by exact Hne. exact Hcached.
    + injection Heq as -> ->. rewrite Hcache, lookup_insert_eq. discriminate.
  - intros before addr pos after Hsplit. rewrite Hlog in Hsplit.
    destruct after as [|last after _] using rev_ind; [simpl; tauto|].
    change (before ++ (addr, Some pos) :: after ++ [last])
      with (before ++ ((addr, Some pos) :: after) ++ [last]) in Hsplit.
    rewrite app_assoc in Hsplit.
    apply app_inj_tail in Hsplit as [Hold <-].
    rewrite map_app, in_app_iff. simpl. intros [Hin | [<- | []]].
    + exact (Hnorep before addr pos after Hold Hin).
    + apply (Hcached a pos); [|exact Hnone].
      rewrite Hold. apply in_or_app. right. left. reflexivity.
Qed.

Lemma geocode_rows_consistent rows : forall st,
  answered_are_cached st /\ no_lookup_after_success st ->
  answered_are_cached (fst (geocode_rows geocode st rows))
  /\ no_lookup_after_success (fst (geocode_rows geocode st rows)).
Proof.
  induction rows as [|row rows IH]; intros st Hst; [exact Hst|].
  rewrite geocode_rows_cons. apply IH.
  eapply row_effect_consistent; [apply geocode_row_effect | exact Hst].
Qed.

Lemma geocode_rows_snd_cons st row rest :
  snd (geocode_rows geocode st (row :: rest))
  = snd (geocode_row geocode st row)
    :: snd (geocode_rows geocode (fst (geocode_row geocode st row)) rest).
Proof.
  simpl. destruct (geocode_row geocode st row) as [st1 out]. simpl.
  destruct (geocode_rows geocode st1 rest) as [st2 outs]. reflexivity.
Qed.

(** The pass is the body of the loop applied to the rows in order. *)
Lemma geocode_rows_step st row rest :
  geocode_rows geocode st (row :: rest)
  = (fst (geocode_rows geocode (fst (geocode_row geocode st row)) rest),
     snd (geocode_row geocode st row)
     :: snd (geocode_rows geocode (fst (geocode_row geocode st row)) rest)).
Proof.
  rewrite <- geocode_rows_cons, <- geocode_rows_snd_cons.
  destruct (geocode_rows geocode st (row :: rest)). reflexivity.
Qed.

Lemma geocode_rows_app st before after :
  geocode_rows geocode st (before ++ after)
  = (fst (geocode_rows geocode (fst (geocode_rows geocode st before)) after),
     snd (geocode_rows geocode st before)
     ++ snd (geocode_rows geocode (fst (geocode_rows geocode st before)) after)).
Proof.
  revert st. induction before as [|r before IH]; intros st.
  - simpl. destruct (geocode_rows geocode st after). reflexivity.
  - rewrite <- app_comm_cons.
    rewrite (geocode_rows_step st r (before ++ after)).
    rewrite (geocode_rows_step st r before). rewrite IH. reflexivity.
Qed.

Lemma geocode_rows_middle st0 before row after :
  let mid := fst (geocode_rows geocode st0 before) in
  let step := geocode_row geocode mid row in
  geocode_rows geocode st0 (before ++ row :: after)
  = (fst (geocode_rows geocode (fst step) after),
     snd (geocode_rows geocode st0 before)
     ++ snd step :: snd (geocode_rows geocode (fst step) after)).
Proof.
  intros mid step. subst mid step.
  rewrite geocode_rows_app, geocode_rows_step. reflexivity.
Qed.

Lemma geocode_rows_length rows : forall st,
  length (snd (geocode_rows geocode st rows)) = length rows.
Proof.
  induction rows as [|row rows IH]; intros st; [reflexivity|].
  rewrite geocode_rows_snd_cons. simpl. rewrite IH. reflexivity.
Qed.

(** What a pass adds to the log are lookups of addresses the cache did
    not hold when it started. *)
Lemma geocode_rows_new_lookups rows : forall st,
  exists rest,
    lookups (fst (geocode_rows geocode st rows)) = lookups st ++ rest
    /\ Forall (fun entry => cache_map st !! fst entry = None) rest.
Proof.
  induction rows as [|row rows IH]; intros st.
  - exists []. simpl. rewrite app_nil_r. split; [reflexivity | constructor].
  - rewrite geocode_rows_cons.
    destruct (IH (fst (geocode_row geocode st row))) as (rest & Hlog & Hall).
    pose proof (geocode_row_effect st row) as Heff.
    assert (Hback : forall a,
              cache_map (fst (geocode_row geocode st row)) !! a = None ->
              cache_map st !! a = None).
    { intros a Hnone. destruct (cache_map st !! a) as [pos|] eqn:Hc;
        [|reflexivity].
      rewrite (row_effect_keeps _ _ a pos Heff Hc) in Hnone. discriminate. }
    destruct Heff as [Hsame | a answer Hnone Hstep _].
    + exists rest. rewrite Hlog, Hsame. split; [reflexivity|].
      rewrite Hsame in Hall. exact Hall.
    + exists ((a, answer) :: rest). rewrite Hlog, Hstep, <- app_assoc.
      split; [reflexivity|]. constructor; [exact Hnone|].
      eapply Forall_impl; [exact Hall|]. intros entry. apply Hback.
Qed.

(** [geocode_addresses] runs the loop over the rows of the frame, from
    the loaded cache, and writes what it gives to the two columns. *)
Lemma geocode_addresses_pass cache0 df addrs :
  get_col ADDRESS_COL df = Some addrs ->
  let pass := geocode_rows geocode (start cache0) (loop_rows df) in
  exists df1 out,
    geocode_addresses geocode cache0 df = Ok (df1, fst pass, out)
    /\ get_col "Latitude" df1 = Some (map fst (snd pass))
    /\ get_col "Longitude" df1 = Some (map snd (snd pass)).
Proof.
  intros Haddr pass. subst pass. unfold geocode_addresses, loop_rows, start.
  rewrite Haddr. cbv zeta.
  rewrite (get_col_set_col_ne "Longitude" "Latitude") by discriminate.
  rewrite !get_col_set_col_eq.
  rewrite (get_col_set_col_ne "Latitude" "Longitude") by discriminate.
  cbn [default]. unfold id.
  match goal with
  | |- context [geocode_rows geocode ?s ?r] =>
      destruct (geocode_rows geocode s r) as [st out]
  end.
  cbn [fst snd]. eexists _, _. split; [reflexivity|]. split.
  - rewrite (get_col_set_col_ne "Longitude" "Latitude") by discriminate.
    apply get_col_set_col_eq.
  - apply get_col_set_col_eq.
Qed.

End GeocodingFacts.

(** C5.  The geocoding pass applies the body of its loop to the rows in
    order, each at the state the rows before it left, and writes to each
    row what the body gives for it.  The body, for a row with normalised
    address [addr]: an empty [addr] leaves the row and the state alone,
    with no lookup; otherwise a row with both coordinates filled is left
    alone; otherwise an address the cache holds is answered from the cache,
    with no lookup; otherwise the geocoder is asked once, and an answer is
    written to the row and put in the cache at once.  A later row of the
    same pass with the same normalised address is then answered from the
    cache: both rows receive the coordinates found, and the pass makes no
    other lookup of the address after the one that succeeded.  Over a whole
    pass no address is looked up again once a lookup of it has succeeded,
    and [geocode_addresses] writes what the pass gives to the columns
    Latitude and Longitude. *)
Theorem geocoding_lookup_order `{PyBuiltins}
    (geocode : list string -> string -> option loc)
    (st : geo_state) (addr_raw lat0 lng0 : cell) :
  let addr := norm_addr addr_raw in
  let filled := notna lat0 && notna lng0 in
  let step := geocode_row geocode st (addr_raw, lat0, lng0) in
  (addr = "" -> step = (st, (lat0, lng0)))
  /\ (addr <> "" -> filled = true -> step = (st, (lat0, lng0)))
  /\ (forall lat lng,
        addr <> "" -> filled = false ->
        cache_map st !! addr = Some (lat, lng) ->
        step = (st, (CFloat lat, CFloat lng)))
  /\ (forall lat lng,
        addr <> "" -> filled = false ->
        cache_map st !! addr = None ->
        geocode (map fst (lookups st)) addr = Some (lat, lng) ->
        step = ({| cache_map := <[addr := (lat, lng)]> (cache_map st);
                   updated := S (updated st);
                   lookups := lookups st ++ [(addr, Some (lat, lng))] |},
                (CFloat lat, CFloat lng)))
  /\ (addr <> "" -> filled = false ->
      cache_map st !! addr = None ->
      geocode (map fst (lookups st)) addr = None ->
      step = ({| cache_map := cache_map st;
                 updated := updated st;
                 lookups := lookups st ++ [(addr, None)] |},
              (lat0, lng0)))
  /\ (forall lat lng between addr_raw' lat1 lng1,
        addr <> "" -> filled = false ->
        cache_map st !! addr = None ->
        geocode (map fst (lookups st)) addr = Some (lat, lng) ->
        norm_addr addr_raw' = addr ->
        notna lat1 && notna lng1 = false ->
        let st' := fst (geocode_rows geocode (fst step) between) in
        geocode_row geocode st' (addr_raw', lat1, lng1)
        = (st', (CFloat lat, CFloat lng)))
  /\ (forall cache0 rows,
        no_lookup_after_success
          (fst (geocode_rows geocode
                  {| cache_map := cache0; updated := 0; lookups := [] |}
                  rows)))
  /\ (geocode_rows geocode st [] = (st, [])
      /\ forall st0 before after,
           fst (geocode_rows geocode st0 before) = st ->
           geocode_rows geocode st0 (before ++ (addr_raw, lat0, lng0) :: after)
           = (fst (geocode_rows geocode (fst step) after),
              snd (geocode_rows geocode st0 before)
              ++ snd step :: snd (geocode_rows geocode (fst step) after)))
  /\ (forall st0 before between after lat lng addr_raw' lat1 lng1,
        fst (geocode_rows geocode st0 before) = st ->
        addr <> "" -> filled = false ->
        cache_map st !! addr = None ->
        geocode (map fst (lookups st)) addr = Some (lat, lng) ->
        norm_addr addr_raw' = addr ->
        notna lat1 && notna lng1 = false ->
        let pass :=
          geocode_rows geocode st0
            (before ++ (addr_raw, lat0, lng0)
                    :: between ++ (addr_raw', lat1, lng1) :: after) in
        snd pass !! length before = Some (CFloat lat, CFloat lng)
        /\ snd pass !! (length before + S (length between))%nat
           = Some (CFloat lat, CFloat lng)
        /\ exists rest,
             lookups (fst pass)
             = lookups st ++ (addr, Some (lat, lng)) :: rest
             /\ ~ In addr (map fst rest))
  /\ (forall cache0 df addrs,
        get_col ADDRESS_COL df = Some addrs ->
        let pass := geocode_rows geocode (start cache0) (loop_rows df) in
        exists df1 out,
          geocode_addresses geocode cache0 df = Ok (df1, fst pass, out)
          /\ get_col "Latitude" df1 = Some (map fst (snd pass))
          /\ get_col "Longitude" df1 = Some (map snd (snd pass))).
Proof.
  intros addr filled step. subst addr filled step.
  split; [apply geocode_row_empty|].
  split; [intros _; apply geocode_row_filled|].
  split; [intros lat lng; apply geocode_row_cached|].
  split; [intros lat lng; apply geocode_row_live|].
  split; [apply geocode_row_not_found|].
  assert (Hdup : forall lat lng between addr_raw' lat1 lng1,
            norm_addr addr_raw <> "" -> notna lat0 && notna lng0 = false ->
            cache_map st !! norm_addr addr_raw = None ->
            geocode (map fst (lookups st)) (norm_addr addr_raw)
            = Some (lat, lng) ->
            norm_addr addr_raw' = norm_addr addr_raw ->
            notna lat1 && notna lng1 = false ->
            let st' := fst (geocode_rows geocode
                              (fst (geocode_row geocode st
                                      (addr_raw, lat0, lng0))) between) in
            geocode_row geocode st' (addr_raw', lat1, lng1)
            = (st', (CFloat lat, CFloat lng))).
  { intros lat lng between addr_raw' lat1 lng1 Ha Hf Hc Hg Hsame Hf1 st'.
    apply geocode_row_cached.
    + rewrite Hsame. exact Ha.
    + exact Hf1.
    + rewrite Hsame. subst st'. apply geocode_rows_keeps.
      rewrite (geocode_row_live geocode st addr_raw lat0 lng0 lat lng Ha Hf Hc Hg).
      simpl. apply lookup_insert_eq. }
  split; [exact Hdup|].
  split.
  { intros cache0 rows. apply geocode_rows_consistent. split.
    + intros a pos [].
    + intros before a pos after Hsplit. simpl in Hsplit.
      destruct before; discriminate. }
  split.
  { split; [reflexivity|]. intros st0 before after <-.
    apply geocode_rows_middle. }
  split; [|intros cache0 df addrs; apply geocode_addresses_pass].
  intros st0 before between after lat lng addr_raw' lat1 lng1
         Hst Ha Hf Hc Hg Hsame Hf1 pass.
  pose proof (Hdup lat lng between addr_raw' lat1 lng1 Ha Hf Hc Hg Hsame Hf1)
    as Hlater. cbv zeta in Hlater.
  pose proof (geocode_row_live geocode st addr_raw lat0 lng0 lat lng
                Ha Hf Hc Hg) as Hlive.
  assert (Hpass : pass
    = (fst (geocode_rows geocode
              (fst (geocode_row geocode st (addr_raw, lat0, lng0)))
              (between ++ (addr_raw', lat1, lng1) :: after)),
       snd (geocode_rows geocode st0 before)
       ++ (CFloat lat, CFloat lng)
       :: snd (geocode_rows geocode
                 (fst (geocode_row geocode st (addr_raw, lat0, lng0)))
                 (between ++ (addr_raw', lat1, lng1) :: after)))).
  { subst pass. rewrite geocode_rows_middle. cbv zeta. rewrite Hst.
    rewrite Hlive at 2. reflexivity. }
  rewrite Hpass. cbn [fst snd]. split; [|split].
  - apply list_lookup_middle. symmetry. apply geocode_rows_length.
  - rewrite geocode_rows_middle. cbv zeta. cbn [snd]. rewrite Hlater.
    cbn [snd].
    match goal with
    | |- (?l1 ++ ?x :: ?l2 ++ ?y :: ?l3) !! _ = _ =>
        change (l1 ++ x :: l2 ++ y :: l3) with (l1 ++ (x :: l2) ++ y :: l3);
        rewrite (app_assoc l1 (x :: l2) (y :: l3))
    end.
    apply list_lookup_middle.
    rewrite length_app. cbn [length]. rewrite !geocode_rows_length.
    reflexivity.
  - destruct (geocode_rows_new_lookups geocode
                (between ++ (addr_raw', lat1, lng1) :: after)
                (fst (geocode_row geocode st (addr_raw, lat0, lng0))))
      as (rest & Hlog & Hall).
    exists rest. rewrite Hlog. rewrite Hlive in Hall |- *. cbn [fst lookups].
    rewrite <- app_assoc. split; [reflexivity|].
    intros Hin. apply in_map_iff in Hin as (entry & Hfst & Hin).
    rewrite List.Forall_forall in Hall. specialize (Hall entry Hin).
    cbn [fst cache_map] in Hall. rewrite Hfst, lookup_insert_eq in Hall.
    discriminate.
Qed.

Lemma geocoding_lookup_order_witness :
  (let st0 := {| cache_map := ∅; updated := 0; lookups := [] |} in
   let first := geocode_row sample_geocode st0
                  (CStr "123  Main St,   Baltimore, MD", CNone, CNone) in
   let st' := fst (geocode_rows sample_geocode (fst first)
                     [(CStr "  ", CNone, CNone);
                      (CStr "1 Nowhere Rd", CNone, CNone)]) in
   geocode_row sample_geocode st'
     (CStr " 123 Main St, Baltimore, MD ", CNone, CFloat S754_nan)
   = (st', (CFloat (f64 "39.29"), CFloat (f64 "-76.61"))))
  /\ (let pass :=
        geocode_rows sample_geocode (start ∅)
          ([(CStr "  ", CFloat (f64 "1.5"), CNone)]
           ++ (CStr "123  Main St,   Baltimore, MD", CNone, CNone)
           :: [(CStr "1 Nowhere Rd", CNone, CNone)]
           ++ (CStr " 123 Main St, Baltimore, MD ", CNone, CFloat S754_nan)
           :: []) in
      snd pass !! 1%nat = Some (CFloat (f64 "39.29"), CFloat (f64 "-76.61"))
      /\ snd pass !! 3%nat
         = Some (CFloat (f64 "39.29"), CFloat (f64 "-76.61"))
      /\ exists rest,
           lookups (fst pass)
           = [] ++ ("123 Main St, Baltimore, MD",
                    Some (f64 "39.29", f64 "-76.61")) :: rest
           /\ ~ In "123 Main St, Baltimore, MD" (map fst rest)).
Proof.
  split.
  - intros st0 first st'.
    refine (proj1 (proj2 (proj2 (proj2 (proj2 (proj2
             (geocoding_lookup_order sample_geocode st0
                (CStr "123  Main St,   Baltimore, MD") CNone CNone))))))
             (f64 "39.29") (f64 "-76.61")
             [(CStr "  ", CNone, CNone); (CStr "1 Nowhere Rd", CNone, CNone)]
             (CStr " 123 Main St, Baltimore, MD ") CNone (CFloat S754_nan)
             _ _ _ _ _ _).
    + vm_compute. discriminate.
    + reflexivity.
    + vm_compute. reflexivity.
    + vm_compute. reflexivity.
    + vm_compute. reflexivity.
    + reflexivity.
  - refine (proj1 (proj2 (proj2 (proj2 (proj2 (proj2 (proj2 (proj2 (proj2
             (geocoding_lookup_order sample_geocode (start ∅)
                (CStr "123  Main St,   Baltimore, MD") CNone CNone)))))))))
             (start ∅) [(CStr "  ", CFloat (f64 "1.5"), CNone)]
             [(CStr "1 Nowhere Rd", CNone, CNone)] []
             (f64 "39.29") (f64 "-76.61")
             (CStr " 123 Main St, Baltimore, MD ") CNone (CFloat S754_nan)
             _ _ _ _ _ _ _).
    + vm_compute. reflexivity.
    + vm_compute. discriminate.
    + reflexivity.
    + vm_compute. reflexivity.
    + vm_compute. reflexivity.
    + vm_compute. reflexivity.
    + reflexivity.
Defined.

(** * Further properties of the loader *)

Section LoaderInvariants.

Context `{PyBuiltins}.

Lemma row_body_kept_good hm resources row res :
  row_body hm resources row = Kept res -> good_coords hm row = true.
Proof.
  intros Hk. destruct (row_kinds hm row) as [(Hn & _)|[(_ & Hb & _)|(_ & _ & Hg)]].
  - rewrite (row_body_no_coords _ resources _ Hn) in Hk. discriminate.
  - rewrite (row_body_bad_coords _ resources _ Hb) in Hk. discriminate.
  - exact Hg.
Qed.

(** The fields of the record a good row gives. *)
Lemma row_body_fields hm resources row :
  good_coords hm row = true ->
  exists res lat lng,
    row_body hm resources row = Kept res
    /\ lat_of hm row = Some lat /\ lng_of hm row = Some lng
    /\ valid_latlng lat lng = true
    /\ r_lat res = lat /\ r_lng res = lng
    /\ r_name res
       = str_or (cell_text hm row ["Name of Service"; "Name"]) "Unnamed resource"
    /\ r_category res
       = str_or (cell_text hm row
                   ["Cateogry of Help"; "Category of Help"; "Category"])
                "Uncategorized"
    /\ r_address res = cell_text hm row ["Address"]
    /\ r_call_notes res
       = join " | " (filter (fun x => x ≠ "")
                       [cell_text hm row ["Call experience"];
                        cell_text hm row ["Unnamed: 18"]])
    /\ r_legit res
       = to_bool_flag (grab hm row ["Legitimate place?"; "Legitimate place ?"]
                         (CStr ""))
    /\ r_confirmed res
       = to_bool_flag (grab hm row
                         ["called + confirmed?"; "called + confirmed ?"]
                         (CStr "")).
Proof.
  unfold good_coords, lat_of, lng_of, row_body, cell_text.
  destruct (_to_float (grab hm row ["Latitude"; "Lat"] CNone)) as [lat|];
    destruct (_to_float (grab hm row ["Longitude"; "Lng"; "Long"] CNone)) as [lng|];
    intros Hk; try discriminate.
  rewrite Hk. eexists _, lat, lng. split; [reflexivity|].
  cbn [r_lat r_lng r_name r_category r_address r_call_notes r_legit r_confirmed].
  repeat split; try reflexivity. exact Hk.
Qed.

(** A property of every record the loop appends holds of the whole output. *)
Lemma process_rows_Forall (P : resource -> Prop) hm :
  (forall resources row res, row_body hm resources row = Kept res -> P res) ->
  forall rows d resources,
    Forall P resources ->
    Forall P (snd (process_rows hm (d, resources) rows)).
Proof.
  intros Hstep. induction rows as [|row rows IH]; intros d resources Hall.
  - exact Hall.
  - rewrite process_rows_cons. unfold process_row.
    destruct (row_body hm resources row) as [| |res] eqn:Hrow.
    + apply IH. exact Hall.
    + apply IH. exact Hall.
    + apply IH. apply Forall_app. split; [exact Hall|].
      constructor; [|constructor]. exact (Hstep _ _ _ Hrow).
Qed.

Lemma load_Forall (P : resource -> Prop) :
  (forall hm resources row res, row_body hm resources row = Kept res -> P res) ->
  forall src, Forall P (fst (_load_resources_from_xlsx src)).
Proof.
  intros Hstep [| |msg|ws]; simpl; try constructor.
  match goal with
  | |- context [process_rows ?hm (?d, []) ?rows] =>
      pose proof (process_rows_Forall P hm (Hstep hm) rows d [] (List.Forall_nil P)) as Hall;
      destruct (process_rows hm (d, []) rows) as [d2 resources]
  end.
  exact Hall.
Qed.

(** The three kinds of rows split any list of rows. *)
Lemma row_kinds_partition hm rows :
  (length (List.filter (no_coords hm) rows)
   + length (List.filter (bad_coords hm) rows)
   + length (List.filter (good_coords hm) rows))%nat = length rows.
Proof.
  induction rows as [|row rows IH]; [reflexivity|]. simpl.
  destruct (row_kinds hm row) as [(Hn & Hb & Hg)|[(Hn & Hb & Hg)|(Hn & Hb & Hg)]];
    rewrite Hn, Hb, Hg; simpl; lia.
Qed.

Lemma str_or_nonempty (a b : string) : b <> "" -> str_or a b <> "".
Proof.
  intros Hb. unfold str_or. destruct (String.eqb_spec a ""); assumption.
Qed.

Lemma reliability_of_nonempty (v : cell) : reliability_of v <> "".
Proof.
  unfold reliability_of.
  destruct (mem (strip (str v)) [""; "nan"; "none"]) eqn:Hm; [discriminate|].
  intros Hempty. rewrite Hempty in Hm. discriminate.
Qed.

End LoaderInvariants.

(** X1.  Every data row of the sheet is accounted for exactly once: the
    records kept, the rows skipped for missing coordinates and the rows
    with bad coordinates add up to the number of rows; a source that is not
    a readable workbook gives no record and counts nothing. *)
Theorem load_accounts_for_every_row `{PyBuiltins} (src : source) :
  let out := _load_resources_from_xlsx src in
  (parsed_rows (snd out) + skipped_no_coords (snd out) + bad_latlng (snd out))%nat
  = length (rows_of src)
  /\ parsed_rows (snd out) = length (fst out).
Proof.
  destruct src as [| |msg|ws]; try (simpl; auto; fail).
  intros out. subst out.
  destruct (load_counts ws) as (Hs & Hb & Hp & Hl).
  rewrite Hp, Hl, Hs, Hb. split; [|reflexivity].
  simpl rows_of.
  rewrite <- (row_kinds_partition
                (header_map (header_cells (ws_header_row ws))) (ws_rows ws)).
  lia.
Qed.

(** X2.  Every record of the output has a latitude that is a number
    between -90 and 90 and a longitude that is a number between -180 and
    180, bounds included (the coordinates being binary64 floats in
    canonical form). *)
Theorem kept_records_have_valid_coordinates `{PyBuiltins} (src : source)
    (res : resource) :
  In res (fst (_load_resources_from_xlsx src)) ->
  canonical (r_lat res) = true -> canonical (r_lng res) = true ->
  isnan (r_lat res) = false /\ isnan (r_lng res) = false
  /\ float_in (-90) 90 (r_lat res) = true
  /\ float_in (-180) 180 (r_lng res) = true.
Proof.
  intros Hin Clat Clng.
  assert (Hall : Forall (fun res =>
            isnan (r_lat res) = false /\ isnan (r_lng res) = false
            /\ valid_latlng (r_lat res) (r_lng res) = true)
         (fst (_load_resources_from_xlsx src))).
  { apply load_Forall. intros hm resources row res0 Hrow.
    pose proof (row_body_kept_good _ _ _ _ Hrow) as Hg.
    destruct (row_body_fields hm resources row Hg)
      as (res' & lat & lng & Hres & Hlat & Hlng & Hok & Hla & Hln & _).
    rewrite Hrow in Hres. injection Hres as <-. rewrite Hla, Hln.
    split; [|split; [|exact Hok]].
    - apply _to_float_Some in Hlat. tauto.
    - apply _to_float_Some in Hlng. tauto. }
  rewrite List.Forall_forall in Hall.
  destruct (Hall res Hin) as (Hn1 & Hn2 & Hok).
  rewrite (valid_latlng_bounds _ _ Clat Clng) in Hok.
  apply andb_true_iff in Hok. tauto.
Qed.

Lemma kept_records_have_valid_coordinates_witness :
  length (fst (_load_resources_from_xlsx (Workbook sample_sheet))) = 3%nat
  /\ Forall (fun res =>
               isnan (r_lat res) = false /\ isnan (r_lng res) = false
               /\ float_in (-90) 90 (r_lat res) = true
               /\ float_in (-180) 180 (r_lng res) = true)
            (fst (_load_resources_from_xlsx (Workbook sample_sheet))).
Proof.
  split; [vm_compute; reflexivity|].
  apply List.Forall_forall. intros res Hin.
  assert (Hc : canonical (r_lat res) = true /\ canonical (r_lng res) = true).
  { revert res Hin. apply List.Forall_forall. vm_compute.
    repeat constructor. }
  destruct Hc as [Clat Clng].
  exact (kept_records_have_valid_coordinates
           (Workbook sample_sheet) res Hin Clat Clng).
Defined.

(** X3.  No record of the output has an empty name, an empty category or an
    empty reliability: the placeholders stand in. *)
Theorem kept_records_have_placeholders `{PyBuiltins} (src : source) :
  Forall (fun res =>
            r_name res <> "" /\ r_category res <> "" /\ r_reliability res <> "")
         (fst (_load_resources_from_xlsx src)).
Proof.
  apply load_Forall. intros hm resources row res Hrow.
  pose proof (row_body_kept_good _ _ _ _ Hrow) as Hg.
  destruct (row_body_fields hm resources row Hg)
    as (res' & lat & lng & Hres & _ & _ & _ & _ & _ & Hname & Hcat & _).
  destruct (row_body_good_coords hm resources row Hg)
    as (res'' & Hres'' & _ & _ & _ & Hrel).
  rewrite Hrow in Hres, Hres''. injection Hres as <-. injection Hres'' as <-.
  rewrite Hname, Hcat, Hrel. split; [|split].
  - apply str_or_nonempty. discriminate.
  - apply str_or_nonempty. discriminate.
  - apply reliability_of_nonempty.
Qed.

Section GrabFacts.

Context `{PyBuiltins}.

Lemma usable_in_row hm row n v :
  usable hm row n = Some v -> In v row /\ v <> CNone.
Proof.
  unfold usable. destruct (hm !! norm (CStr n)) as [idx|]; [|discriminate].
  destruct (row !! idx) as [c|] eqn:Hlk; [|discriminate].
  assert (Hin : In c row).
  { apply list_elem_of_In. eapply list_elem_of_lookup_2. exact Hlk. }
  destruct c; intros Hv; try discriminate; injection Hv as <-;
    (split; [exact Hin | discriminate]).
Qed.

Lemma process_rows_order {A : Type} (f : resource -> A) (g : list cell -> A) hm :
  (forall resources row res, row_body hm resources row = Kept res -> f res = g row) ->
  forall rows d resources,
    map f (snd (process_rows hm (d, resources) rows))
    = map f resources ++ map g (List.filter (good_coords hm) rows).
Proof.
  intros Hfg. induction rows as [|row rows IH]; intros d resources.
  - simpl. rewrite app_nil_r. reflexivity.
  - rewrite process_rows_cons. unfold process_row. simpl List.filter.
    destruct (row_kinds hm row) as [(Hn & Hb & Hg)|[(Hn & Hb & Hg)|(Hn & Hb & Hg)]];
      rewrite Hg.
    + rewrite (row_body_no_coords _ resources _ Hn). apply IH.
    + rewrite (row_body_bad_coords _ resources _ Hb). apply IH.
    + destruct (row_body_good_coords hm resources row Hg) as (res & Hres & _).
      rewrite Hres, IH, map_app, <- app_assoc. simpl.
      rewrite (Hfg _ _ _ Hres). reflexivity.
Qed.

End GrabFacts.

(** X4.  [grab] returns either the default or a cell of the row that is not
    [None]; with a default other than [None] it never returns [None], so
    the text fields of a record are never made from a missing cell. *)
Theorem grab_gives_a_cell_or_the_default `{PyBuiltins} (hm : gmap string nat)
    (row : list cell) (names : list string) (dflt : cell) :
  (grab hm row names dflt = dflt
   \/ (In (grab hm row names dflt) row /\ grab hm row names dflt <> CNone))
  /\ (dflt <> CNone -> grab hm row names dflt <> CNone).
Proof.
  assert (Hcases : grab hm row names dflt = dflt
                   \/ (In (grab hm row names dflt) row
                       /\ grab hm row names dflt <> CNone)).
  { induction names as [|n names IH]; [left; reflexivity|].
    rewrite grab_cons. destruct (usable hm row n) as [v|] eqn:Hu; [|exact IH].
    right. exact (usable_in_row _ _ _ _ Hu). }
  split; [exact Hcases|].
  intros Hd. destruct Hcases as [-> | [_ Hne]]; assumption.
Qed.

Lemma grab_gives_a_cell_or_the_default_witness :
  grab sample_map blank_row ["Email"] (CStr "") <> CNone.
Proof.
  apply (proj2 (grab_gives_a_cell_or_the_default sample_map blank_row
                  ["Email"] (CStr ""))).
  discriminate.
Defined.

(** X5.  Identifiers are not made unique: a row without identifier gets the
    next count, and a following row that brings that same number as its
    identifier keeps it, so both records carry one identifier. *)
Theorem auto_identifier_can_collide `{PyBuiltins} (hm : gmap string nat)
    (d : diag) (resources : list resource) (row1 row2 : list cell) :
  good_coords hm row1 = true ->
  blank_id (id_cell hm row1) ->
  good_coords hm row2 = true ->
  id_cell hm row2 = CInt (Z.of_nat (length resources) + 1) ->
  strip (str (id_cell hm row2)) <> "" ->
  exists r1 r2,
    snd (process_rows hm (d, resources) [row1; row2]) = resources ++ [r1; r2]
    /\ r_id r1 = r_id r2.
Proof.
  intros Hg1 Hblank Hg2 Hid2 Hfull.
  destruct (row_body_good_coords hm resources row1 Hg1)
    as (r1 & Hr1 & _ & _ & Hid & _).
  destruct (row_body_good_coords hm (resources ++ [r1]) row2 Hg2)
    as (r2 & Hr2 & _ & _ & Hid' & _).
  exists r1, r2. split.
  - rewrite !process_rows_cons. unfold process_row. rewrite Hr1, Hr2.
    simpl. rewrite <- app_assoc. reflexivity.
  - rewrite Hid, Hid', (assign_id_blank _ _ Hblank).
    rewrite assign_id_given; [symmetry; exact Hid2 | | exact Hfull].
    rewrite Hid2. discriminate.
Qed.

Lemma auto_identifier_can_collide_witness :
  exists r1 r2,
    snd (process_rows sample_map (diag0, []) [clinic_row; numbered_row])
    = [] ++ [r1; r2]
    /\ r_id r1 = r_id r2.
Proof.
  apply (auto_identifier_can_collide sample_map diag0 [] clinic_row numbered_row).
  - vm_compute. reflexivity.
  - left. vm_compute. reflexivity.
  - vm_compute. reflexivity.
  - vm_compute. reflexivity.
  - vm_compute. discriminate.
Defined.

(** X6.  The call notes of a record are the call experience and the text of
    the column "Unnamed: 18" joined by " | "; an empty part is left out
    together with the separator. *)
Theorem call_notes_composition `{PyBuiltins} (hm : gmap string nat)
    (resources : list resource) (row : list cell) :
  good_coords hm row = true ->
  let call_exp := cell_text hm row ["Call experience"] in
  let extra := cell_text hm row ["Unnamed: 18"] in
  exists res,
    row_body hm resources row = Kept res
    /\ r_call_notes res
       = if String.eqb call_exp "" then extra
         else if String.eqb extra "" then call_exp
         else call_exp +:+ " | " +:+ extra.
Proof.
  intros Hg call_exp extra.
  destruct (row_body_fields hm resources row Hg)
    as (res & lat & lng & Hres & _ & _ & _ & _ & _ & _ & _ & _ & Hnotes & _).
  exists res. split; [exact Hres|]. rewrite Hnotes. fold call_exp extra.
  rewrite !filter_cons, filter_nil.
  destruct (String.eqb_spec call_exp "") as [Ha|Ha];
    destruct (String.eqb_spec extra "") as [Hb|Hb];
    destruct (decide (call_exp ≠ "")) as [Ha'|Ha'];
    destruct (decide (extra ≠ "")) as [Hb'|Hb'];
    try contradiction; try (exfalso; apply Ha'; exact Ha);
    try (exfalso; apply Hb'; exact Hb); try reflexivity.
  symmetry. exact Hb.
Qed.

Lemma call_notes_composition_witness :
  exists res,
    row_body notes_map [] notes_row = Kept res
    /\ r_call_notes res = "friendly | call back Monday".
Proof.
  destruct (call_notes_composition notes_map [] notes_row)
    as (res & Hres & Hnotes); [vm_compute; reflexivity|].
  exists res. split; [exact Hres|]. rewrite Hnotes. vm_compute. reflexivity.
Defined.

(** X7.  The output lists the good rows of the sheet in their order, none
    twice and none missing: the names and addresses of the records are those
    of the rows whose coordinates pass, one after the other. *)
Theorem output_follows_row_order `{PyBuiltins} (ws : worksheet) :
  let hm := header_map (header_cells (ws_header_row ws)) in
  map (fun res => (r_name res, r_address res))
      (fst (_load_resources_from_xlsx (Workbook ws)))
  = map (fun row =>
           (str_or (cell_text hm row ["Name of Service"; "Name"])
                   "Unnamed resource",
            cell_text hm row ["Address"]))
        (List.filter (good_coords hm) (ws_rows ws)).
Proof.
  intros hm. unfold _load_resources_from_xlsx. fold hm.
  match goal with
  | |- context [process_rows hm (?d, []) ?rows] =>
      pose proof (process_rows_order
                    (fun res => (r_name res, r_address res))
                    (fun row =>
                       (str_or (cell_text hm row ["Name of Service"; "Name"])
                               "Unnamed resource",
                        cell_text hm row ["Address"]))
                    hm) as Horder;
      specialize (fun Hfg => Horder Hfg rows d []);
      destruct (process_rows hm (d, []) rows) as [d2 resources]
  end.
  simpl in *. apply Horder.
  intros rs row res Hrow.
  pose proof (row_body_kept_good _ _ _ _ Hrow) as Hg.
  destruct (row_body_fields hm rs row Hg)
    as (res' & lat & lng & Hres & _ & _ & _ & _ & _ & Hname & _ & Haddr & _).
  rewrite Hrow in Hres. injection Hres as <-. rewrite Hname, Haddr. reflexivity.
Qed.

(** * Further properties of the text functions *)

Lemma is_space_lower_char (c : ascii) : is_space (lower_char c) = is_space c.
Proof. destruct c as [[] [] [] [] [] [] [] []]; vm_compute; reflexivity. Qed.

Lemma lower_char_idem (c : ascii) : lower_char (lower_char c) = lower_char c.
Proof. destruct c as [[] [] [] [] [] [] [] []]; vm_compute; reflexivity. Qed.

Lemma lower_idem (s : string) : lower (lower s) = lower s.
Proof.
  induction s as [|c s IH]; [reflexivity|]. simpl.
  rewrite lower_char_idem, IH. reflexivity.
Qed.

Lemma lstrip_cons (c : ascii) (s : string) :
  lstrip (String c s) = if is_space c then lstrip s else String c s.
Proof. reflexivity. Qed.

Lemma rstrip_cons (c : ascii) (s : string) :
  rstrip (String c s)
  = match rstrip s with
    | EmptyString => if is_space c then EmptyString else String c EmptyString
    | r => String c r
    end.
Proof. reflexivity. Qed.

Lemma lstrip_lower (s : string) : lstrip (lower s) = lower (lstrip s).
Proof.
  induction s as [|c s IH]; [reflexivity|].
  change (lower (String c s)) with (String (lower_char c) (lower s)).
  rewrite !lstrip_cons, is_space_lower_char.
  destruct (is_space c); [exact IH | reflexivity].
Qed.

Lemma rstrip_lower (s : string) : rstrip (lower s) = lower (rstrip s).
Proof.
  induction s as [|c s IH]; [reflexivity|].
  change (lower (String c s)) with (String (lower_char c) (lower s)).
  rewrite !rstrip_cons, IH, is_space_lower_char.
  destruct (rstrip s); simpl; [destruct (is_space c)|]; reflexivity.
Qed.

(** Trimming and lower-casing commute. *)
Lemma strip_lower (s : string) : strip (lower s) = lower (strip s).
Proof. unfold strip. rewrite lstrip_lower, rstrip_lower. reflexivity. Qed.

Lemma lstrip_idem (s : string) : lstrip (lstrip s) = lstrip s.
Proof.
  induction s as [|c s IH]; [reflexivity|]. rewrite lstrip_cons.
  destruct (is_space c) eqn:Hc; [exact IH|]. rewrite lstrip_cons, Hc. reflexivity.
Qed.

Lemma rstrip_idem (s : string) : rstrip (rstrip s) = rstrip s.
Proof.
  induction s as [|c s IH]; [reflexivity|]. rewrite rstrip_cons.
  destruct (rstrip s) as [|c' r] eqn:Hr.
  - destruct (is_space c) eqn:Hc; [reflexivity|].
    rewrite rstrip_cons. simpl rstrip. rewrite Hc. reflexivity.
  - rewrite rstrip_cons, IH. reflexivity.
Qed.

Lemma lstrip_rstrip (s : string) : lstrip (rstrip s) = rstrip (lstrip s).
Proof.
  induction s as [|c s IH]; [reflexivity|].
  rewrite rstrip_cons, (lstrip_cons c s).
  destruct (is_space c) eqn:Hc.
  - rewrite <- IH. destruct (rstrip s) as [|c' r]; [reflexivity|].
    rewrite lstrip_cons, Hc. reflexivity.
  - rewrite rstrip_cons.
    destruct (rstrip s) as [|c' r]; rewrite ?Hc, lstrip_cons, Hc; reflexivity.
Qed.

Lemma strip_idem (s : string) : strip (strip s) = strip s.
Proof.
  unfold strip. rewrite lstrip_rstrip, lstrip_idem, rstrip_idem. reflexivity.
Qed.

Lemma string_app_cons (c : ascii) (a b : string) :
  String c a +:+ b = String c (a +:+ b).
Proof. reflexivity. Qed.

Lemma lstrip_pad (pad s : string) :
  all_space pad = true -> lstrip (pad +:+ s) = lstrip s.
Proof.
  induction pad as [|c pad IH]; [reflexivity|]. simpl all_space.
  intros [Hc Hpad]%andb_true_iff.
  rewrite string_app_cons, lstrip_cons, Hc. exact (IH Hpad).
Qed.

Lemma rstrip_all_space (pad : string) : all_space pad = true -> rstrip pad = "".
Proof.
  induction pad as [|c pad IH]; [reflexivity|]. simpl all_space.
  intros [Hc Hpad]%andb_true_iff. rewrite rstrip_cons, (IH Hpad), Hc.
  reflexivity.
Qed.

Lemma rstrip_pad (s pad : string) :
  all_space pad = true -> rstrip (s +:+ pad) = rstrip s.
Proof.
  intros Hpad. induction s as [|c s IH].
  - change ("" +:+ pad) with pad. rewrite (rstrip_all_space _ Hpad). reflexivity.
  - rewrite string_app_cons, !rstrip_cons, IH. reflexivity.
Qed.

(** White space around a text does not survive trimming. *)
Lemma strip_pad (pad1 s pad2 : string) :
  all_space pad1 = true -> all_space pad2 = true ->
  strip (pad1 +:+ s +:+ pad2) = strip s.
Proof.
  intros H1 H2. unfold strip.
  rewrite (lstrip_pad _ _ H1), <- lstrip_rstrip, (rstrip_pad _ _ H2).
  apply lstrip_rstrip.
Qed.

(** * Further properties of the classifier *)

Section ClassifierInvariants.

Context `{PyBuiltins}.

Lemma classify_category_unfold (v : cell) :
  classify_category v
  = if isna v then "Other / Uncategorized"
    else first_category taxonomy (lower (strip (str v))).
Proof. reflexivity. Qed.

Lemma first_category_range (table : list (string * list string)) (s : string) :
  In (first_category table s) (map fst table ++ ["Other / Uncategorized"]).
Proof.
  induction table as [|[c ks] table IH]; simpl.
  - left. reflexivity.
  - destruct (any_in ks s); [left; reflexivity | right; exact IH].
Qed.

Lemma classify_category_range (v : cell) : In (classify_category v) categories.
Proof.
  rewrite classify_category_unfold. destruct (isna v).
  - unfold categories. apply in_or_app. right. left. reflexivity.
  - apply first_category_range.
Qed.

End ClassifierInvariants.

(** X8.  Whatever the input, a number or a date as well as a text, the
    classifier answers with one of the ten categories. *)
Theorem classify_category_in_taxonomy `{PyBuiltins} (v : cell) :
  In (classify_category v)
     ["Veteran Services"; "Safety & Anti-Violence";
      "Behavioral Health, Substance Use, & Crisis";
      "Physical & General Health Care"; "Housing & Shelter";
      "Food & Essential Needs"; "Financial & Access Support";
      "Employment, Training, & Education";
      "Youth, Family, & General Support Services";
      "Other / Uncategorized"].
Proof. exact (classify_category_range v). Qed.

(** X9.  A missing value, NaN, and a text that is empty or white space only
    are classified Other / Uncategorized. *)
Theorem classify_category_blank `{PyBuiltins} (v : cell) :
  isna v = true \/ strip (str v) = "" ->
  classify_category v = "Other / Uncategorized".
Proof.
  rewrite classify_category_unfold. intros [Hna | Hblank].
  - rewrite Hna. reflexivity.
  - destruct (isna v); [reflexivity|]. rewrite Hblank. vm_compute. reflexivity.
Qed.

Lemma classify_category_blank_witness :
  classify_category (CFloat S754_nan) = "Other / Uncategorized"
  /\ classify_category (CStr "   ") = "Other / Uncategorized".
Proof.
  split.
  - apply (classify_category_blank (CFloat S754_nan)). left. reflexivity.
  - apply (classify_category_blank (CStr "   ")). right. vm_compute. reflexivity.
Defined.

(** X10.  The classifier looks at the text without its letter case and
    without the white space around it: two texts with the same lower-case
    form are classified alike, and so are a text and the same text with
    white space before and after. *)
Theorem classify_category_ignores_case_and_padding `{PyBuiltins} :
  (forall s t, lower s = lower t ->
               classify_category (CStr s) = classify_category (CStr t))
  /\ (forall pad1 s pad2,
        all_space pad1 = true -> all_space pad2 = true ->
        classify_category (CStr (pad1 +:+ s +:+ pad2))
        = classify_category (CStr s)).
Proof.
  split.
  - intros s t Hst. rewrite !classify_category_str, <- !strip_lower, Hst.
    reflexivity.
  - intros pad1 s pad2 H1 H2.
    rewrite !classify_category_str, (strip_pad _ _ _ H1 H2). reflexivity.
Qed.

Lemma classify_category_ignores_case_and_padding_witness :
  classify_category (CStr "FOOD Pantry") = classify_category (CStr "food pantry")
  /\ classify_category (CStr ("  " +:+ "Food Pantry" +:+ " "))
     = classify_category (CStr "Food Pantry").
Proof.
  split.
  - apply (proj1 classify_category_ignores_case_and_padding).
    vm_compute. reflexivity.
  - apply (proj2 classify_category_ignores_case_and_padding);
      vm_compute; reflexivity.
Defined.

(** X11.  Classifying the name of a category gives that category back, with
    one exception: "Financial & Access Support" holds none of its own
    keywords and is classified Other / Uncategorized. *)
Theorem classify_category_of_its_own_output `{PyBuiltins} (v : cell) :
  classify_category (CStr (classify_category v))
  = if String.eqb (classify_category v) "Financial & Access Support"
    then "Other / Uncategorized"
    else classify_category v.
Proof.
  pose proof (classify_category_range v) as Hin.
  unfold categories in Hin. simpl in Hin.
  repeat (destruct Hin as [<- | Hin]; [vm_compute; reflexivity|]).
  destruct Hin.
Qed.

(** * Further properties of the preparation utility *)

Lemma columns_set_col (col : string) (vs : list cell) (df : dataframe) :
  columns (set_col col vs df)
  = if has_col col df then columns df else columns df ++ [col].
Proof.
  unfold has_col, columns, mem. induction df as [|[c old] df IH]; simpl.
  - reflexivity.
  - rewrite (String.eqb_sym col c). destruct (String.eqb c col) eqn:Hc; simpl.
    + reflexivity.
    + rewrite IH. destruct (existsb (String.eqb col) (map fst df)); reflexivity.
Qed.

Section RecategorizeFacts.

Context `{PyBuiltins}.

Lemma category_is_not_backup : CATEGORY_COL <> BACKUP_COL.
Proof. vm_compute. discriminate. Qed.

(** What a run of the step makes of a frame that has the category column. *)
Lemma recategorize_categories_run (df : dataframe) (cats : list cell) :
  get_col CATEGORY_COL df = Some cats ->
  fst (recategorize_categories df)
  = set_col CATEGORY_COL (map (fun v => CStr (classify_category v)) cats)
      (if has_col BACKUP_COL df then df else set_col BACKUP_COL cats df).
Proof.
  intros Hcats. unfold recategorize_categories. rewrite Hcats. simpl fst.
  fold BACKUP_COL.
  assert (Hc : get_col CATEGORY_COL
                 (if has_col BACKUP_COL df then df else set_col BACKUP_COL cats df)
               = Some cats).
  { destruct (has_col BACKUP_COL df); [exact Hcats|].
    rewrite get_col_set_col_ne; [exact Hcats|].
    intros Heq. apply category_is_not_backup. symmetry. exact Heq. }
  rewrite Hc. reflexivity.
Qed.

Lemma recategorize_categories_skip (df : dataframe) :
  get_col CATEGORY_COL df = None -> fst (recategorize_categories df) = df.
Proof.
  intros Hcats. unfold recategorize_categories. rewrite Hcats. reflexivity.
Qed.

Lemma reclassified_classified (v : cell) :
  CStr (classify_category (CStr (classify_category v)))
  = reclassified (CStr (classify_category v)).
Proof.
  unfold reclassified.
  pose proof (classify_category_range v) as Hin.
  unfold categories in Hin. simpl in Hin.
  repeat (destruct Hin as [<- | Hin]; [vm_compute; reflexivity|]).
  destruct Hin.
Qed.

End RecategorizeFacts.

(** X12.  Recategorisation changes one column and adds at most one: the
    category column becomes the classification of its cells, row by row;
    every column other than it and the backup column is as before; the
    column names are those of the input, followed by the backup column when
    the input had none. *)
Theorem recategorize_rewrites_one_column `{PyBuiltins} (df : dataframe)
    (cats : list cell) :
  get_col CATEGORY_COL df = Some cats ->
  let df1 := fst (recategorize_categories df) in
  get_col CATEGORY_COL df1
  = Some (map (fun v => CStr (classify_category v)) cats)
  /\ (forall col, col <> CATEGORY_COL -> col <> BACKUP_COL ->
                  get_col col df1 = get_col col df)
  /\ columns df1
     = if has_col BACKUP_COL df then columns df
       else columns df ++ [BACKUP_COL].
Proof.
  intros Hcats df1. subst df1. rewrite (recategorize_categories_run df cats Hcats).
  split; [apply get_col_set_col_eq|]. split.
  - intros col Hc Hb.
    rewrite get_col_set_col_ne by (intros Heq; apply Hc; symmetry; exact Heq).
    destruct (has_col BACKUP_COL df); [reflexivity|].
    apply get_col_set_col_ne. intros Heq. apply Hb. symmetry. exact Heq.
  - rewrite columns_set_col.
    assert (Hhas : has_col CATEGORY_COL
                     (if has_col BACKUP_COL df then df
                      else set_col BACKUP_COL cats df) = true).
    { apply has_col_get_col. destruct (has_col BACKUP_COL df).
      - rewrite Hcats. discriminate.
      - rewrite get_col_set_col_ne, Hcats; [discriminate|].
        intros Heq. apply category_is_not_backup. symmetry. exact Heq. }
    rewrite Hhas. destruct (has_col BACKUP_COL df) eqn:Hb; [reflexivity|].
    rewrite columns_set_col, Hb. reflexivity.
Qed.

Lemma recategorize_rewrites_one_column_witness :
  get_col CATEGORY_COL (fst (recategorize_categories raw_sheet))
  = Some [CStr "Physical & General Health Care"; CStr "Other / Uncategorized";
          CStr "Safety & Anti-Violence"; CStr "Veteran Services"]
  /\ columns (fst (recategorize_categories raw_sheet))
     = ["Address"; "Cateogry of Help"; "Cateogry of Help (Original)"].
Proof.
  destruct (recategorize_rewrites_one_column raw_sheet
              [CStr "free health clinic"; CFloat S754_nan;
               CStr "Youth Advocacy"; CStr "Food pantry for veterans"])
    as (Hcat & _ & Hcols); [reflexivity|].
  split.
  - rewrite Hcat. vm_compute. reflexivity.
  - rewrite Hcols. vm_compute. reflexivity.
Defined.

(** X13.  Recategorisation is not idempotent on the category column: a
    second run on the output of a first turns every "Financial & Access
    Support" into "Other / Uncategorized" and leaves the other cells as
    they are. *)
Theorem recategorize_twice `{PyBuiltins} (df : dataframe) :
  let df1 := fst (recategorize_categories df) in
  get_col CATEGORY_COL (fst (recategorize_categories df1))
  = map reclassified <$> get_col CATEGORY_COL df1.
Proof.
  intros df1. subst df1.
  destruct (get_col CATEGORY_COL df) as [cats|] eqn:Hcats.
  - assert (Hc1 : get_col CATEGORY_COL (fst (recategorize_categories df))
                  = Some (map (fun v => CStr (classify_category v)) cats)).
    { rewrite (recategorize_categories_run df cats Hcats).
      apply get_col_set_col_eq. }
    rewrite (recategorize_categories_run _ _ Hc1), get_col_set_col_eq, Hc1.
    simpl. f_equal.
    rewrite !map_map. apply map_ext. intros v. apply reclassified_classified.
  - rewrite (recategorize_categories_skip df Hcats).
    rewrite (recategorize_categories_skip df Hcats), Hcats. reflexivity.
Qed.

Section GeocodingInvariants.

Context `{PyBuiltins}.

Variable geocode : list string -> string -> option loc.

(** A row either leaves the state alone or asks the geocoder once, for its
    own address, which is not empty and not in the cache, while its
    coordinates are not both filled. *)
Lemma geocode_row_cases st row :
  fst (geocode_row geocode st row) = st
  \/ (row_addr row <> "" /\ row_filled row = false
      /\ cache_map st !! row_addr row = None
      /\ exists answer,
           fst (geocode_row geocode st row)
           = {| cache_map :=
                  match answer with
                  | Some pos => <[row_addr row := pos]> (cache_map st)
                  | None => cache_map st
                  end;
                updated :=
                  match answer with
                  | Some _ => S (updated st)
                  | None => updated st
                  end;
                lookups := lookups st ++ [(row_addr row, answer)] |}).
Proof.
  destruct row as [[addr_raw lat0] lng0]. unfold row_addr, row_filled.
  cbn [fst snd]. unfold geocode_row. cbv zeta.
  destruct (String.eqb_spec (norm_addr addr_raw) "") as [|Ha]; [left; reflexivity|].
  destruct (notna lat0 && notna lng0) eqn:Hf; [left; reflexivity|].
  destruct (cache_map st !! norm_addr addr_raw) as [[lat lng]|] eqn:Hc;
    [left; reflexivity|].
  right. repeat split; try assumption.
  destruct (geocode (map fst (lookups st)) (norm_addr addr_raw))
    as [[lat lng]|] eqn:Hg.
  - exists (Some (lat, lng)). reflexivity.
  - exists None. reflexivity.
Qed.

(** A property every row keeps holds at the end of the pass. *)
Lemma geocode_rows_invariant (I : geo_state -> Prop) rows :
  (forall st row, In row rows -> I st -> I (fst (geocode_row geocode st row))) ->
  forall st, I st -> I (fst (geocode_rows geocode st rows)).
Proof.
  induction rows as [|row rows IH]; intros Hstep st Hst; [exact Hst|].
  rewrite geocode_rows_cons. apply IH.
  - intros st' row' Hin. apply Hstep. right. exact Hin.
  - apply Hstep; [left; reflexivity | exact Hst].
Qed.

Lemma successes_app (l1 l2 : list (string * option loc)) :
  successes (l1 ++ l2) = successes l1 ++ successes l2.
Proof. unfold successes. apply List.filter_app. Qed.

(** What a row holds after its turn: what it held, or the coordinates the
    cache now has for its address. *)
Lemma geocode_row_output st row :
  snd (geocode_row geocode st row) = (snd (fst row), snd row)
  \/ (row_filled row = false /\ row_addr row <> ""
      /\ exists lat lng,
           snd (geocode_row geocode st row) = (CFloat lat, CFloat lng)
           /\ cache_map (fst (geocode_row geocode st row)) !! row_addr row
              = Some (lat, lng)).
Proof.
  destruct row as [[addr_raw lat0] lng0]. unfold row_addr, row_filled.
  cbn [fst snd]. unfold geocode_row. cbv zeta.
  destruct (String.eqb_spec (norm_addr addr_raw) "") as [|Ha]; [left; reflexivity|].
  destruct (notna lat0 && notna lng0) eqn:Hf; [left; reflexivity|].
  destruct (cache_map st !! norm_addr addr_raw) as [[lat lng]|] eqn:Hc.
  - right. repeat split; try assumption. exists lat, lng. split; [reflexivity|].
    exact Hc.
  - destruct (geocode (map fst (lookups st)) (norm_addr addr_raw))
      as [[lat lng]|] eqn:Hg; [|left; reflexivity].
    right. repeat split; try assumption. exists lat, lng.
    split; [reflexivity|]. simpl. apply lookup_insert_eq.
Qed.

End GeocodingInvariants.

(** X14.  The cache only grows during a pass: an entry it starts with is
    still there, unchanged, at the end, and every entry it ends with was
    there at the start or is the answer of a lookup of this pass. *)
Theorem geocode_cache_append_only `{PyBuiltins}
    (geocode : list string -> string -> option loc)
    (cache0 : gmap string loc) (rows : list (cell * cell * cell)) :
  let st := fst (geocode_rows geocode (start cache0) rows) in
  (forall addr pos, cache0 !! addr = Some pos ->
                    cache_map st !! addr = Some pos)
  /\ (forall addr pos, cache_map st !! addr = Some pos ->
                       cache0 !! addr = Some pos
                       \/ In (addr, Some pos) (lookups st)).
Proof.
  intros st. split.
  - intros addr pos Hin. subst st. apply geocode_rows_keeps. exact Hin.
  - subst st.
    apply (geocode_rows_invariant geocode
             (fun st => forall addr pos,
                cache_map st !! addr = Some pos ->
                cache0 !! addr = Some pos \/ In (addr, Some pos) (lookups st))).
    + intros st row _ Hinv addr pos.
      destruct (geocode_row_cases geocode st row)
        as [-> | (_ & _ & _ & answer & ->)]; [apply Hinv|].
      cbn [cache_map lookups]. intros Hlk. rewrite in_app_iff.
      destruct answer as [p|].
      * destruct (decide (row_addr row = addr)) as [<-|Hne].
        -- rewrite lookup_insert_eq in Hlk. injection Hlk as ->.
           right. right. left. reflexivity.
        -- rewrite lookup_insert_ne in Hlk by exact Hne.
           destruct (Hinv addr pos Hlk); auto.
      * destruct (Hinv addr pos Hlk); auto.
    + intros addr pos Hlk. left. exact Hlk.
Qed.

(** X15.  The counter the utility reports is the number of lookups that
    succeeded in the pass, which is also the number of entries the cache
    gained; a pass makes at most one lookup per row. *)
Theorem geocode_updated_counts `{PyBuiltins}
    (geocode : list string -> string -> option loc)
    (cache0 : gmap string loc) (rows : list (cell * cell * cell)) :
  let st := fst (geocode_rows geocode (start cache0) rows) in
  updated st = length (successes (lookups st))
  /\ size (cache_map st) = (size cache0 + updated st)%nat
  /\ (length (lookups st) <= length rows)%nat.
Proof.
  intros st. subst st.
  assert (Hcount :
    forall rows st,
      let st' := fst (geocode_rows geocode st rows) in
      (length (lookups st') <= length (lookups st) + length rows)%nat).
  { clear rows. induction rows as [|row rows IH]; intros st; [simpl; lia|].
    cbv zeta. rewrite geocode_rows_cons.
    specialize (IH (fst (geocode_row geocode st row))). cbv zeta in IH.
    destruct (geocode_row_cases geocode st row)
      as [Hsame | (_ & _ & _ & answer & Hstep)].
    - rewrite Hsame in *. simpl. lia.
    - rewrite Hstep in IH at 2. cbn [lookups] in IH.
      rewrite length_app in IH. simpl in *. lia. }
  pose proof (Hcount rows (start cache0)) as Hlen. simpl in Hlen.
  enough (Hinv : updated (fst (geocode_rows geocode (start cache0) rows))
                 = length (successes
                             (lookups (fst (geocode_rows geocode (start cache0) rows))))
                 /\ size (cache_map (fst (geocode_rows geocode (start cache0) rows)))
                    = (size cache0
                       + updated (fst (geocode_rows geocode (start cache0) rows)))%nat)
    by (destruct Hinv; auto).
  apply (geocode_rows_invariant geocode
           (fun st => updated st = length (successes (lookups st))
                      /\ size (cache_map st) = (size cache0 + updated st)%nat)).
  - intros st row _ [Hupd Hsize].
    destruct (geocode_row_cases geocode st row)
      as [-> | (_ & _ & Hnone & answer & ->)]; [auto|].
    cbn [cache_map lookups updated]. rewrite successes_app, length_app.
    destruct answer as [p|]; simpl.
    + rewrite (map_size_insert_None _ _ _ Hnone). lia.
    + lia.
  - simpl. split; [reflexivity | lia].
Qed.

Lemma geocode_rows_asked `{PyBuiltins}
    (geocode : list string -> string -> option loc)
    (cache0 : gmap string loc) (rows : list (cell * cell * cell)) :
  let st := fst (geocode_rows geocode (start cache0) rows) in
  Forall (fun entry =>
            fst entry <> ""
            /\ cache0 !! fst entry = None
            /\ exists row, In row rows /\ row_filled row = false
                           /\ row_addr row = fst entry)
         (lookups st).
Proof.
  intros st. subst st.
  enough (Hinv :
    (forall addr pos, cache0 !! addr = Some pos ->
       cache_map (fst (geocode_rows geocode (start cache0) rows)) !! addr
       = Some pos)
    /\ Forall (fun entry =>
                 fst entry <> ""
                 /\ cache0 !! fst entry = None
                 /\ exists row, In row rows /\ row_filled row = false
                                /\ row_addr row = fst entry)
              (lookups (fst (geocode_rows geocode (start cache0) rows))))
    by (destruct Hinv; assumption).
  apply (geocode_rows_invariant geocode
           (fun st =>
              (forall addr pos, cache0 !! addr = Some pos ->
                                cache_map st !! addr = Some pos)
              /\ Forall (fun entry =>
                           fst entry <> ""
                           /\ cache0 !! fst entry = None
                           /\ exists row, In row rows /\ row_filled row = false
                                          /\ row_addr row = fst entry)
                        (lookups st))).
  - intros st row Hin [Hkeep Hall].
    destruct (geocode_row_cases geocode st row)
      as [-> | (Ha & Hf & Hnone & answer & ->)]; [auto|].
    cbn [cache_map lookups]. split.
    + intros addr pos Hlk. specialize (Hkeep addr pos Hlk).
      destruct answer as [p|]; [|exact Hkeep].
      rewrite lookup_insert_ne; [exact Hkeep | congruence].
    + apply Forall_app. split; [exact Hall|]. constructor; [|constructor].
      cbn [fst]. split; [exact Ha|]. split.
      * destruct (cache0 !! row_addr row) as [p|] eqn:H0; [|reflexivity].
        rewrite (Hkeep _ _ H0) in Hnone. discriminate.
      * exists row. auto.
  - split; [auto | constructor].
Qed.

(** X16.  The geocoder is asked only when needed: every address it is
    asked is the normalised address of a row of the pass whose coordinates
    are not both filled, is not empty, and was not in the cache the pass
    started with. *)
Theorem geocode_asks_only_when_needed `{PyBuiltins}
    (geocode : list string -> string -> option loc)
    (cache0 : gmap string loc) (rows : list (cell * cell * cell)) :
  let st := fst (geocode_rows geocode (start cache0) rows) in
  Forall (fun entry =>
            fst entry <> ""
            /\ cache0 !! fst entry = None
            /\ exists row, In row rows /\ row_filled row = false
                           /\ row_addr row = fst entry)
         (lookups st).
Proof.
  intros st. subst st. apply geocode_rows_asked.
Qed.

Lemma geocode_rows_outputs `{PyBuiltins}
    (geocode : list string -> string -> option loc)
    (st0 : geo_state) (rows : list (cell * cell * cell)) :
  let st := fst (geocode_rows geocode st0 rows) in
  Forall2 (fun row out =>
             out = (snd (fst row), snd row)
             \/ (row_filled row = false /\ row_addr row <> ""
                 /\ exists lat lng,
                      out = (CFloat lat, CFloat lng)
                      /\ cache_map st !! row_addr row = Some (lat, lng)))
          rows (snd (geocode_rows geocode st0 rows)).
Proof.
  cbv zeta. revert st0. induction rows as [|row rows IH]; intros st0.
  - constructor.
  - rewrite geocode_rows_snd_cons, geocode_rows_cons. constructor; [|apply IH].
    destruct (geocode_row_output geocode st0 row)
      as [Hsame | (Hf & Ha & lat & lng & Hout & Hc)]; [left; exact Hsame|].
    right. repeat split; try assumption. exists lat, lng.
    split; [exact Hout|]. apply geocode_rows_keeps. exact Hc.
Qed.

(** X17.  The pass writes one pair of coordinates per row.  A row keeps what
    it held, or, if its coordinates were not both filled and its address
    is not empty, receives two floats, and these are the coordinates the
    cache holds for its address at the end of the pass.  Coordinates that
    are filled are never overwritten. *)
Theorem geocode_fills_only_open_rows `{PyBuiltins}
    (geocode : list string -> string -> option loc)
    (st0 : geo_state) (rows : list (cell * cell * cell)) :
  let st := fst (geocode_rows geocode st0 rows) in
  Forall2 (fun row out =>
             out = (snd (fst row), snd row)
             \/ (row_filled row = false /\ row_addr row <> ""
                 /\ exists lat lng,
                      out = (CFloat lat, CFloat lng)
                      /\ cache_map st !! row_addr row = Some (lat, lng)))
          rows (snd (geocode_rows geocode st0 rows)).
Proof.
  intros st. subst st. apply geocode_rows_outputs.
Qed.

(** X18.  When every row has an empty address, or both coordinates, or an
    address the cache holds, the pass asks the geocoder nothing and leaves
    the cache and the counter as they were. *)
Theorem geocode_warm_cache `{PyBuiltins}
    (geocode : list string -> string -> option loc)
    (st0 : geo_state) (rows : list (cell * cell * cell)) :
  (forall row, In row rows ->
     row_addr row = "" \/ row_filled row = true
     \/ cache_map st0 !! row_addr row <> None) ->
  fst (geocode_rows geocode st0 rows) = st0.
Proof.
  intros Hrows.
  apply (geocode_rows_invariant geocode (fun st => st = st0)); [|reflexivity].
  intros st row Hin ->.
  destruct (geocode_row_cases geocode st0 row)
    as [Hsame | (Ha & Hf & Hnone & _)]; [exact Hsame|].
  destruct (Hrows row Hin) as [Ha' | [Hf' | Hc']].
  - contradiction.
  - rewrite Hf in Hf'. discriminate.
  - contradiction.
Qed.

Lemma geocode_warm_cache_witness :
  let st0 := {| cache_map := {["1 Nowhere Rd" := (f64 "39.3", f64 "-76.6")]};
                updated := 0; lookups := [] |} in
  fst (geocode_rows sample_geocode st0
         [(CStr " ", CNone, CNone);
          (CStr "elsewhere", CInt 39, CInt (-76));
          (CStr "1  Nowhere Rd ", CNone, CNone)])
  = st0.
Proof.
  intros st0. apply (geocode_warm_cache sample_geocode st0).
  intros row Hrow.
  destruct Hrow as [<- | [<- | [<- | []]]].
  - left. vm_compute. reflexivity.
  - right. left. vm_compute. reflexivity.
  - right. right. vm_compute. discriminate.
Defined.

Lemma has_col_spec (col : string) (df : dataframe) :
  has_col col df = match get_col col df with Some _ => true | None => false end.
Proof.
  unfold has_col, columns, mem. induction df as [|[c vs] df IH]; simpl.
  - reflexivity.
  - rewrite String.eqb_sym. destruct (String.eqb c col); simpl; [reflexivity|exact IH].
Qed.

Lemma has_col_set_col_ne (col col' : string) (vs : list cell) (df : dataframe) :
  col <> col' -> has_col col' (set_col col vs df) = has_col col' df.
Proof.
  intros Hne. rewrite !has_col_spec, (get_col_set_col_ne _ _ _ _ Hne). reflexivity.
Qed.

Lemma has_col_set_col_eq (col : string) (vs : list cell) (df : dataframe) :
  has_col col (set_col col vs df) = true.
Proof. rewrite has_col_spec, get_col_set_col_eq. reflexivity. Qed.

Section GeocodeFrameFacts.

Context `{PyBuiltins}.

Variable geocode : list string -> string -> option loc.

(** [geocode_addresses] on a frame with an address column: the loop runs
    over the rows of the frame from the loaded cache, and its output
    becomes the two coordinate columns. *)
Lemma geocode_addresses_run cache0 df addrs :
  get_col ADDRESS_COL df = Some addrs ->
  let run := geocode_rows geocode (start cache0) (loop_rows df) in
  exists df1,
    geocode_addresses geocode cache0 df
    = Ok (df1, fst run, [geocoding_report (updated (fst run))])
    /\ get_col "Latitude" df1 = Some (map fst (snd run))
    /\ get_col "Longitude" df1 = Some (map snd (snd run))
    /\ (forall col, col <> "Latitude" -> col <> "Longitude" ->
                    get_col col df1 = get_col col df)
    /\ columns df1
       = columns df
         ++ (if has_col "Latitude" df then [] else ["Latitude"])
         ++ (if has_col "Longitude" df then [] else ["Longitude"]).
Proof.
  intros Haddr run. subst run. unfold geocode_addresses, loop_rows, start.
  rewrite Haddr. cbv zeta.
  rewrite (get_col_set_col_ne "Longitude" "Latitude") by discriminate.
  rewrite !get_col_set_col_eq.
  rewrite (get_col_set_col_ne "Latitude" "Longitude") by discriminate.
  cbn [default]. unfold id.
  match goal with
  | |- context [geocode_rows geocode ?s ?r] =>
      destruct (geocode_rows geocode s r) as [st out]
  end.
  cbn [fst snd]. eexists. split; [reflexivity|].
  split; [|split; [|split]].
  - rewrite (get_col_set_col_ne "Longitude" "Latitude") by discriminate.
    apply get_col_set_col_eq.
  - apply get_col_set_col_eq.
  - intros col Hlat Hlng.
    rewrite !get_col_set_col_ne by (intros Heq; symmetry in Heq; contradiction).
    reflexivity.
  - rewrite !columns_set_col.
    repeat first
      [ rewrite has_col_set_col_eq
      | rewrite (has_col_set_col_ne "Latitude" "Longitude") by discriminate
      | rewrite (has_col_set_col_ne "Longitude" "Latitude") by discriminate ].
    destruct (has_col "Latitude" df), (has_col "Longitude" df);
      rewrite ?app_nil_r, <- ?app_assoc; reflexivity.
Qed.

(** Entries of the log stay in the log. *)
Lemma geocode_rows_log_grows rows : forall st entry,
  In entry (lookups st) ->
  In entry (lookups (fst (geocode_rows geocode st rows))).
Proof.
  intros st entry Hin. revert st Hin.
  apply (geocode_rows_invariant geocode
           (fun st' => In entry (lookups st'))).
  intros st row _ Hst.
  destruct (geocode_row_cases geocode st row)
    as [-> | (_ & _ & _ & answer & ->)]; [exact Hst|].
  cbn [lookups]. apply in_or_app. left. exact Hst.
Qed.

(** After a pass, a row with an address and without both coordinates has
    its address in the cache, or a lookup of it that failed in the log. *)
Lemma geocode_rows_resolved_or_failed rows : forall st row,
  In row rows -> row_addr row <> "" -> row_filled row = false ->
  cache_map (fst (geocode_rows geocode st rows)) !! row_addr row <> None
  \/ In (row_addr row, None) (lookups (fst (geocode_rows geocode st rows))).
Proof.
  induction rows as [|r rows IH]; intros st row Hin Ha Hf; [destruct Hin|].
  rewrite geocode_rows_cons. destruct Hin as [-> | Hin]; [|apply IH; assumption].
  destruct (cache_map st !! row_addr row) as [pos|] eqn:Hc.
  - left. rewrite (geocode_rows_keeps geocode rows _ (row_addr row) pos);
      [discriminate|].
    eapply row_effect_keeps; [apply geocode_row_effect | exact Hc].
  - destruct (geocode_row_cases geocode st row)
      as [Hsame | (_ & _ & _ & answer & Hstep)].
    + exfalso. destruct row as [[addr_raw lat0] lng0].
      unfold row_addr, row_filled in *. cbn [fst snd] in *.
      destruct (geocode (map fst (lookups st)) (norm_addr addr_raw))
        as [[lat lng]|] eqn:Hg.
      * rewrite (geocode_row_live geocode st addr_raw lat0 lng0 lat lng
                   Ha Hf Hc Hg) in Hsame.
        simpl in Hsame. apply (f_equal updated) in Hsame. simpl in Hsame. lia.
      * rewrite (geocode_row_not_found geocode st addr_raw lat0 lng0
                   Ha Hf Hc Hg) in Hsame.
        simpl in Hsame. apply (f_equal (fun s => length (lookups s))) in Hsame.
        simpl in Hsame. rewrite length_app in Hsame. simpl in Hsame. lia.
    + rewrite Hstep. destruct answer as [pos|].
      * left. rewrite (geocode_rows_keeps geocode rows _ (row_addr row) pos);
          [discriminate|]. cbn [cache_map]. apply lookup_insert_eq.
      * right. apply geocode_rows_log_grows. cbn [lookups].
        apply in_or_app. right. left. reflexivity.
Qed.

(** A row with an address that neither the cache nor the row resolves
    has its address asked during the pass. *)
Lemma geocode_rows_open_asked rows : forall st row,
  In row rows -> row_addr row <> "" -> row_filled row = false ->
  cache_map st !! row_addr row = None ->
  In (row_addr row) (map fst (lookups (fst (geocode_rows geocode st rows)))).
Proof.
  induction rows as [|r rows IH]; intros st row Hin Ha Hf Hc; [destruct Hin|].
  rewrite geocode_rows_cons. destruct Hin as [-> | Hin].
  - destruct row as [[addr_raw lat0] lng0].
    unfold row_addr, row_filled in *. cbn [fst snd] in *.
    destruct (geocode (map fst (lookups st)) (norm_addr addr_raw))
      as [[lat lng]|] eqn:Hg.
    + rewrite (geocode_row_live geocode st addr_raw lat0 lng0 lat lng
                 Ha Hf Hc Hg). cbn [fst].
      apply in_map_iff. exists (norm_addr addr_raw, Some (lat, lng)).
      split; [reflexivity|]. apply geocode_rows_log_grows. cbn [lookups].
      apply in_or_app. right. left. reflexivity.
    + rewrite (geocode_row_not_found geocode st addr_raw lat0 lng0
                 Ha Hf Hc Hg). cbn [fst].
      apply in_map_iff. exists (norm_addr addr_raw, None).
      split; [reflexivity|]. apply geocode_rows_log_grows. cbn [lookups].
      apply in_or_app. right. left. reflexivity.
  - destruct (cache_map (fst (geocode_row geocode st r)) !! row_addr row)
      as [pos|] eqn:Hc1; [|apply IH; assumption].
    destruct (geocode_row_cases geocode st r)
      as [Hsame | (_ & _ & _ & answer & Hstep)].
    + rewrite Hsame, Hc in Hc1. discriminate.
    + rewrite Hstep in Hc1 |- *. cbn [cache_map] in Hc1.
      destruct answer as [p|]; [|rewrite Hc in Hc1; discriminate].
      destruct (decide (row_addr r = row_addr row)) as [Heq|Hne].
      * apply in_map_iff. exists (row_addr row, Some p).
        split; [reflexivity|]. apply geocode_rows_log_grows. cbn [lookups].
        apply in_or_app. right. left. rewrite Heq. reflexivity.
      * rewrite lookup_insert_ne in Hc1 by exact Hne.
        rewrite Hc in Hc1. discriminate.
Qed.

End GeocodeFrameFacts.

(** X19.  On a frame with an address column [geocode_addresses] returns: it
    runs the loop over the rows of the frame, starting from the loaded
    cache, writes what the loop gives into the columns Latitude and
    Longitude, appends these two columns when the frame lacks them, leaves
    every other column as it is, and reports the number of rows updated. *)
Theorem geocode_addresses_frame `{PyBuiltins}
    (geocode : list string -> string -> option loc)
    (cache0 : gmap string loc) (df : dataframe) (addrs : list cell) :
  get_col ADDRESS_COL df = Some addrs ->
  let run := geocode_rows geocode (start cache0) (loop_rows df) in
  exists df1,
    geocode_addresses geocode cache0 df
    = Ok (df1, fst run, [geocoding_report (updated (fst run))])
    /\ get_col "Latitude" df1 = Some (map fst (snd run))
    /\ get_col "Longitude" df1 = Some (map snd (snd run))
    /\ (forall col, col <> "Latitude" -> col <> "Longitude" ->
                    get_col col df1 = get_col col df)
    /\ columns df1
       = columns df
         ++ (if has_col "Latitude" df then [] else ["Latitude"])
         ++ (if has_col "Longitude" df then [] else ["Longitude"]).
Proof.
  intros Haddr run. subst run.
  exact (geocode_addresses_run geocode cache0 df addrs Haddr).
Qed.

Lemma geocode_addresses_frame_witness :
  exists df1,
    geocode_addresses sample_geocode ∅ sheet_without_category
    = Ok (df1,
          fst (geocode_rows sample_geocode (start ∅)
                 (loop_rows sheet_without_category)),
          [geocoding_report
             (updated (fst (geocode_rows sample_geocode (start ∅)
                              (loop_rows sheet_without_category))))])
    /\ columns df1 = ["Address"; "Latitude"; "Longitude"]
    /\ get_col "Latitude" df1 = Some [CFloat (f64 "39.29"); CNone].
Proof.
  destruct (geocode_addresses_frame sample_geocode ∅ sheet_without_category
              [CStr "123 Main St, Baltimore, MD"; CNone])
    as (df1 & Hrun & Hlat & _ & _ & Hcols); [reflexivity|].
  exists df1. split; [exact Hrun|]. split.
  - rewrite Hcols. vm_compute. reflexivity.
  - rewrite Hlat. vm_compute. reflexivity.
Defined.

(** X20.  A second pass over the rows as a first pass left them, starting
    from the cache the first pass saved.  It asks the geocoder only for
    addresses the first pass left out of the cache and whose lookup failed
    in the first pass at least once: what the first pass resolved is never
    asked again.  And it asks for every address of a row that the first
    pass left open (an address, coordinates not both filled, nothing in
    the saved cache). *)
Theorem geocode_second_pass_retries_failures `{PyBuiltins}
    (geocode geocode' : list string -> string -> option loc)
    (cache0 : gmap string loc) (rows : list (cell * cell * cell)) :
  let run1 := geocode_rows geocode (start cache0) rows in
  let run2 := geocode_rows geocode' (start (cache_map (fst run1)))
                (rows_after rows (snd run1)) in
  Forall (fun entry =>
            cache_map (fst run1) !! fst entry = None
            /\ In (fst entry, None) (lookups (fst run1)))
         (lookups (fst run2))
  /\ (forall row,
        In row rows -> row_addr row <> "" -> row_filled row = false ->
        cache_map (fst run1) !! row_addr row = None ->
        In (row_addr row) (map fst (lookups (fst run2)))).
Proof.
  intros run1 run2.
  pose proof (geocode_rows_outputs geocode (start cache0) rows)
    as Houts.
  fold run1 in Houts. cbv zeta in Houts.
  split.
  - pose proof (geocode_rows_asked geocode'
                  (cache_map (fst run1)) (rows_after rows (snd run1)))
      as Hasked.
    fold run2 in Hasked.
    eapply Forall_impl; [exact Hasked|]. clear Hasked.
    intros [addr answer]. cbn [fst].
    intros (Ha & Hnone & row2 & Hin2 & Hf2 & Haddr2).
    split; [exact Hnone|].
    unfold rows_after in Hin2.
    apply list_elem_of_In, list_elem_of_lookup in Hin2 as [i Hi].
    apply lookup_zip_with_Some in Hi as (row & out & -> & Hrow & Hout).
    unfold row_addr in Haddr2. cbn [fst snd] in Haddr2.
    pose proof (Forall2_lookup_lr _ _ _ _ _ _ Houts Hrow Hout) as Hcase.
    cbv beta in Hcase.
    destruct Hcase as [-> | (_ & _ & lat & lng & _ & Hc)].
    + assert (Hf : row_filled row = false).
      { unfold row_filled in *. cbn [fst snd] in Hf2. exact Hf2. }
      assert (Hin : In row rows).
      { apply list_elem_of_In. eapply list_elem_of_lookup_2. exact Hrow. }
      assert (Haddr : row_addr row <> "") by (unfold row_addr; congruence).
      destruct (geocode_rows_resolved_or_failed geocode rows (start cache0)
                  row Hin Haddr Hf) as [Hc | Hfail].
      * exfalso. apply Hc. unfold row_addr. rewrite Haddr2. exact Hnone.
      * unfold row_addr in Hfail. rewrite Haddr2 in Hfail. exact Hfail.
    + exfalso. unfold row_addr in Hc. rewrite Haddr2 in Hc.
      subst run1. rewrite Hc in Hnone. discriminate.
  - intros row Hin Ha Hf Hc.
    apply list_elem_of_In, list_elem_of_lookup in Hin as [i Hrow].
    destruct (Forall2_lookup_l _ _ _ _ _ Houts Hrow) as (out & Hout & Hcase).
    cbv beta in Hcase.
    destruct Hcase as [-> | (_ & _ & lat & lng & _ & Hc')];
      [|rewrite Hc' in Hc; discriminate].
    assert (Hin2 : In row (rows_after rows (snd run1))).
    { apply list_elem_of_In. apply list_elem_of_lookup. exists i.
      unfold rows_after. apply lookup_zip_with_Some.
      exists row, (snd (fst row), snd row).
      split; [destruct row as [[a l1] l2]; reflexivity|].
      split; [exact Hrow | exact Hout]. }
    subst run2.
    apply (geocode_rows_open_asked geocode' (rows_after rows (snd run1))
             (start (cache_map (fst run1))) row Hin2 Ha Hf).
    exact Hc.
Qed.

Lemma geocode_second_pass_retries_failures_witness :
  let rows := [(CStr "123 Main St, Baltimore, MD", CNone, CNone);
               (CStr "1 Nowhere Rd", CFloat (f64 "39.29"), CNone)] in
  let run1 := geocode_rows (fun _ _ => None) (start ∅) rows in
  let run2 := geocode_rows sample_geocode (start (cache_map (fst run1)))
                (rows_after rows (snd run1)) in
  In "123 Main St, Baltimore, MD" (map fst (lookups (fst run2)))
  /\ In "1 Nowhere Rd" (map fst (lookups (fst run2))).
Proof.
  intros rows run1 run2. split.
  - refine (proj2 (geocode_second_pass_retries_failures
                     (fun _ _ => None) sample_geocode ∅ rows)
                  (CStr "123 Main St, Baltimore, MD", CNone, CNone) _ _ _ _).
    + left. reflexivity.
    + vm_compute. discriminate.
    + reflexivity.
    + vm_compute. reflexivity.
  - refine (proj2 (geocode_second_pass_retries_failures
                     (fun _ _ => None) sample_geocode ∅ rows)
                  (CStr "1 Nowhere Rd", CFloat (f64 "39.29"), CNone) _ _ _ _).
    + right. left. reflexivity.
    + vm_compute. discriminate.
    + reflexivity.
    + vm_compute. reflexivity.
Defined.

Section MainFacts.

Context `{PyBuiltins}.

Variable geocode : list string -> string -> option loc.

(** [main] on a sheet with an address column: geocoding, then
    recategorisation, then the output. *)
Lemma main_run cache0 df addrs :
  get_col ADDRESS_COL df = Some addrs ->
  exists df1 out,
    geocode_addresses geocode cache0 df
    = Ok (df1, fst (geocode_rows geocode (start cache0) (loop_rows df)), out)
    /\ main geocode cache0 (Some df)
       = Ok {| written := fst (recategorize_categories df1);
               saved_cache :=
                 Some (cache_map
                         (fst (geocode_rows geocode (start cache0) (loop_rows df))));
               stdout := out ++ snd (recategorize_categories df1)
                         ++ [done_report] |}.
Proof.
  intros Haddr.
  destruct (geocode_addresses_run geocode cache0 df addrs Haddr)
    as (df1 & Hrun & _).
  eexists df1, _. split; [exact Hrun|].
  unfold main. cbn [RUN_GEOCODING RUN_RECAT]. rewrite Hrun.
  unfold mbind, result_bind. cbn beta iota.
  destruct (recategorize_categories df1) as [df2 out2]. reflexivity.
Qed.

End MainFacts.

(** X22.  What [main] writes for a sheet with an address column: the
    coordinate columns as the geocoding loop leaves them, the category
    column classified cell by cell, the backup column holding the original
    categories when the sheet had no backup column, and every other column
    as it came; the cache it saves is the one the loop ends with. *)
Theorem main_written_frame `{PyBuiltins}
    (geocode : list string -> string -> option loc)
    (cache0 : gmap string loc) (df : dataframe) (addrs : list cell) :
  get_col ADDRESS_COL df = Some addrs ->
  let run := geocode_rows geocode (start cache0) (loop_rows df) in
  exists r,
    main geocode cache0 (Some df) = Ok r
    /\ saved_cache r = Some (cache_map (fst run))
    /\ get_col "Latitude" (written r) = Some (map fst (snd run))
    /\ get_col "Longitude" (written r) = Some (map snd (snd run))
    /\ get_col CATEGORY_COL (written r)
       = map (fun v => CStr (classify_category v)) <$> get_col CATEGORY_COL df
    /\ (has_col BACKUP_COL df = false ->
        get_col BACKUP_COL (written r) = get_col CATEGORY_COL df)
    /\ (forall col,
          col <> "Latitude" -> col <> "Longitude" ->
          col <> CATEGORY_COL -> col <> BACKUP_COL ->
          get_col col (written r) = get_col col df).
Proof.
  intros Haddr run. subst run.
  destruct (main_run geocode cache0 df addrs Haddr) as (df1 & out & Hgeo & Hmain).
  destruct (geocode_addresses_run geocode cache0 df addrs Haddr)
    as (df1' & Hgeo' & Hlat & Hlng & Hother & _).
  rewrite Hgeo in Hgeo'. injection Hgeo' as <- _.
  eexists. split; [exact Hmain|]. cbn [saved_cache written].
  assert (Hcat : get_col CATEGORY_COL df1 = get_col CATEGORY_COL df)
    by (apply Hother; vm_compute; discriminate).
  assert (Hbak : get_col BACKUP_COL df1 = get_col BACKUP_COL df)
    by (apply Hother; vm_compute; discriminate).
  split; [reflexivity|].
  destruct (get_col CATEGORY_COL df) as [cats|] eqn:Hcats.
  - rewrite (recategorize_categories_run df1 cats Hcat).
    assert (Hne : CATEGORY_COL <> BACKUP_COL) by exact category_is_not_backup.
    assert (Hhas : has_col BACKUP_COL df1 = has_col BACKUP_COL df)
      by (rewrite !has_col_spec, Hbak; reflexivity).
    rewrite Hhas.
    split; [|split; [|split; [|split]]].
    + rewrite get_col_set_col_ne by (vm_compute; discriminate).
      destruct (has_col BACKUP_COL df); [exact Hlat|].
      rewrite get_col_set_col_ne by (vm_compute; discriminate). exact Hlat.
    + rewrite get_col_set_col_ne by (vm_compute; discriminate).
      destruct (has_col BACKUP_COL df); [exact Hlng|].
      rewrite get_col_set_col_ne by (vm_compute; discriminate). exact Hlng.
    + apply get_col_set_col_eq.
    + intros Hnob. rewrite Hnob, get_col_set_col_ne by exact Hne.
      apply get_col_set_col_eq.
    + intros col H1 H2 H3 H4.
      rewrite get_col_set_col_ne by (intros Heq; apply H3; symmetry; exact Heq).
      destruct (has_col BACKUP_COL df); [apply Hother; assumption|].
      rewrite get_col_set_col_ne by (intros Heq; apply H4; symmetry; exact Heq).
      apply Hother; assumption.
  - rewrite (recategorize_categories_skip df1 Hcat).
    split; [exact Hlat|]. split; [exact Hlng|]. split; [exact Hcat|].
    split.
    + intros Hnob. rewrite Hbak. rewrite has_col_spec in Hnob.
      destruct (get_col BACKUP_COL df); [discriminate | reflexivity].
    + intros col H1 H2 _ _. apply Hother; assumption.
Qed.

Lemma main_written_frame_witness :
  exists r,
    main sample_geocode ∅ (Some raw_sheet) = Ok r
    /\ get_col CATEGORY_COL (written r)
       = Some [CStr "Physical & General Health Care";
               CStr "Other / Uncategorized"; CStr "Safety & Anti-Violence";
               CStr "Veteran Services"]
    /\ get_col "Latitude" (written r)
       = Some [CFloat (f64 "39.29"); CNone; CNone; CFloat (f64 "39.29")]
    /\ get_col ADDRESS_COL (written r) = get_col ADDRESS_COL raw_sheet.
Proof.
  destruct (main_written_frame sample_geocode ∅ raw_sheet
              [CStr "123  Main St,   Baltimore, MD"; CStr "  ";
               CStr "1 Nowhere Rd"; CStr " 123 Main St, Baltimore, MD "])
    as (r & Hmain & _ & Hlat & _ & Hcat & _ & Hother); [reflexivity|].
  exists r. split; [exact Hmain|]. split; [|split].
  - rewrite Hcat. vm_compute. reflexivity.
  - rewrite Hlat. vm_compute. reflexivity.
  - apply Hother; vm_compute; discriminate.
Defined.

(** * Words: [split], [join] and the two normalisations *)

Lemma split_cons (c : ascii) (s : string) :
  split (String c s)
  = if is_space c then split s
    else
      match s with
      | EmptyString => [String c EmptyString]
      | String c' _ =>
          if is_space c' then String c EmptyString :: split s
          else
            match split s with
            | w :: ws => String c w :: ws
            | [] => [String c EmptyString]
            end
      end.
Proof. reflexivity. Qed.

Lemma collapse_ws_cons (c : ascii) (s : string) :
  collapse_ws (String c s)
  = if is_space c then
      match s with
      | EmptyString => " "
      | String c' _ =>
          if is_space c' then collapse_ws s else String " " (collapse_ws s)
      end
    else String c (collapse_ws s).
Proof. reflexivity. Qed.

Lemma split_head_nonspace (c : ascii) (s : string) :
  is_space c = false -> exists w ws, split (String c s) = String c w :: ws.
Proof.
  intros Hc. rewrite split_cons, Hc. destruct s as [|c' s']; [eauto|].
  destruct (is_space c'); [eauto|]. destruct (split (String c' s')); eauto.
Qed.

(** [split] gives words. *)
Lemma split_words (s : string) : Forall (fun w => is_word w = true) (split s).
Proof.
  induction s as [|c s IH]; [constructor|]. rewrite split_cons.
  destruct (is_space c) eqn:Hc; [exact IH|].
  assert (Hone : is_word (String c "") = true) by (simpl; rewrite Hc; reflexivity).
  destruct s as [|c' s']; [repeat constructor; exact Hone|].
  destruct (is_space c'); [constructor; [exact Hone | exact IH]|].
  destruct (split (String c' s')) as [|w ws]; [repeat constructor; exact Hone|].
  inversion IH as [|? ? Hw Hws]; subst. constructor; [|exact Hws].
  destruct w as [|c2 w]; [discriminate|]. simpl in *. rewrite Hc. exact Hw.
Qed.

Lemma split_lstrip (s : string) : split (lstrip s) = split s.
Proof.
  induction s as [|c s IH]; [reflexivity|]. rewrite lstrip_cons, (split_cons c s).
  destruct (is_space c) eqn:Hc; [exact IH|]. rewrite split_cons, Hc. reflexivity.
Qed.

Lemma rstrip_head (c c2 : ascii) (s r : string) :
  rstrip (String c s) = String c2 r -> c2 = c.
Proof.
  rewrite rstrip_cons. destruct (rstrip s); [destruct (is_space c)|];
    intros Heq; try discriminate; injection Heq as -> _; reflexivity.
Qed.

Lemma rstrip_empty_split (s : string) : rstrip s = "" -> split s = [].
Proof.
  induction s as [|c s IH]; [reflexivity|]. rewrite rstrip_cons, split_cons.
  destruct (rstrip s) as [|c2 r]; [|discriminate].
  destruct (is_space c); [intros _; apply IH; reflexivity | discriminate].
Qed.

Lemma split_rstrip (s : string) : split (rstrip s) = split s.
Proof.
  induction s as [|c s IH]; [reflexivity|]. rewrite rstrip_cons.
  destruct (rstrip s) as [|c2 r] eqn:Hr.
  - pose proof (rstrip_empty_split s Hr) as Hs. rewrite (split_cons c s), Hs.
    destruct (is_space c) eqn:Hc; [reflexivity|].
    rewrite split_cons, Hc. destruct s as [|c' s']; [reflexivity|].
    destruct (is_space c'); reflexivity.
  - rewrite (split_cons c (String c2 r)), (split_cons c s), IH.
    destruct (is_space c); [reflexivity|].
    destruct s as [|c' s']; [discriminate|].
    apply rstrip_head in Hr as ->. reflexivity.
Qed.

Lemma split_strip (s : string) : split (strip s) = split s.
Proof. unfold strip. rewrite split_rstrip, split_lstrip. reflexivity. Qed.

Lemma no_space_word (c : ascii) (w : string) :
  is_word (String c w) = true -> is_space c = false /\ no_space w = true.
Proof.
  simpl. intros [Hc Hw]%andb_true_iff. split; [|exact Hw].
  destruct (is_space c); [discriminate | reflexivity].
Qed.

(** A word followed by white space is the first word of the text. *)
Lemma split_word_then_space (w : string) (sp : ascii) (rest : string) :
  is_word w = true -> is_space sp = true ->
  split (w +:+ String sp rest) = w :: split rest.
Proof.
  intros Hw Hsp. induction w as [|c w IH]; [discriminate|].
  apply no_space_word in Hw as [Hc Hns].
  rewrite string_app_cons, split_cons, Hc.
  destruct w as [|c' w'].
  - change ("" +:+ String sp rest) with (String sp rest). cbv beta iota.
    rewrite Hsp, (split_cons sp rest), Hsp. reflexivity.
  - assert (Hw' : is_word (String c' w') = true) by exact Hns.
    rewrite string_app_cons. rewrite string_app_cons in IH. cbv beta iota.
    destruct (no_space_word _ _ Hw') as [Hc' _]. rewrite Hc', (IH Hw').
    reflexivity.
Qed.

Lemma split_word (w : string) : is_word w = true -> split w = [w].
Proof.
  induction w as [|c w IH]; [discriminate|]. intros Hw.
  apply no_space_word in Hw as [Hc Hns]. rewrite split_cons, Hc.
  destruct w as [|c' w']; [reflexivity|].
  assert (Hw' : is_word (String c' w') = true) by exact Hns.
  destruct (no_space_word _ _ Hw') as [Hc' _]. rewrite Hc', (IH Hw').
  reflexivity.
Qed.

Lemma join_cons2 (sep w w2 : string) (ws : list string) :
  join sep (w :: w2 :: ws) = w +:+ sep +:+ join sep (w2 :: ws).
Proof. reflexivity. Qed.

(** Splitting the words joined by single spaces gives the words back. *)
Lemma split_join (ws : list string) :
  Forall (fun w => is_word w = true) ws -> split (join " " ws) = ws.
Proof.
  induction ws as [|w ws IH]; intros Hall; [reflexivity|].
  inversion Hall as [|? ? Hw Hws]; subst.
  destruct ws as [|w2 ws]; [exact (split_word w Hw)|].
  rewrite join_cons2.
  change (w +:+ " " +:+ join " " (w2 :: ws))
    with (w +:+ String " " (join " " (w2 :: ws))).
  rewrite (split_word_then_space w " " _ Hw eq_refl), (IH Hws). reflexivity.
Qed.

Lemma rstrip_tail (c : ascii) (s : string) :
  rstrip (String c s) = String c s -> rstrip s = s.
Proof.
  rewrite rstrip_cons. destruct (rstrip s) as [|c2 r] eqn:Hr.
  - destruct (is_space c); [discriminate|]. intros Heq. injection Heq as <-.
    reflexivity.
  - intros Heq. injection Heq as <-. reflexivity.
Qed.

Lemma rstrip_fixed_split (s : string) :
  rstrip s = s -> s <> "" -> split s <> [].
Proof.
  induction s as [|c s IH]; intros Hr Hne; [contradiction|].
  pose proof (rstrip_tail _ _ Hr) as Hr'. rewrite split_cons.
  destruct (is_space c) eqn:Hc.
  - destruct s as [|c2 s2].
    + rewrite rstrip_cons in Hr. simpl in Hr. rewrite Hc in Hr. discriminate.
    + apply IH; [exact Hr' | discriminate].
  - destruct s as [|c2 s2]; [discriminate|].
    destruct (is_space c2); [discriminate|].
    destruct (split (String c2 s2)); discriminate.
Qed.

Lemma join_cons_char (c : ascii) (w : string) (ws : list string) :
  String c (join " " (w :: ws)) = join " " (String c w :: ws).
Proof. destruct ws; reflexivity. Qed.

(** On a text without white space at its end, collapsing the white space is
    joining the words, after a space if the text starts with white space. *)
Lemma collapse_ws_join (s : string) :
  rstrip s = s -> collapse_ws s = leading_gap s +:+ join " " (split s).
Proof.
  induction s as [|c s IH]; [reflexivity|]. intros Hr.
  pose proof (rstrip_tail _ _ Hr) as Hr'. specialize (IH Hr').
  rewrite collapse_ws_cons, split_cons. unfold leading_gap at 1.
  destruct (is_space c) eqn:Hc.
  - destruct s as [|c' s'].
    + rewrite rstrip_cons in Hr. simpl in Hr. rewrite Hc in Hr. discriminate.
    + rewrite IH. unfold leading_gap. destruct (is_space c'); reflexivity.
  - change ("" +:+ ?x) with x.
    destruct s as [|c' s']; [reflexivity|].
    assert (Hne : split (String c' s') <> [])
      by (apply rstrip_fixed_split; [exact Hr' | discriminate]).
    rewrite IH. unfold leading_gap.
    destruct (split (String c' s')) as [|w ws] eqn:Hs; [contradiction|].
    destruct (is_space c').
    + destruct ws; reflexivity.
    + change ("" +:+ join " " (w :: ws)) with (join " " (w :: ws)).
      apply join_cons_char.
Qed.

Lemma lstrip_head (s : string) : leading_gap (lstrip s) = "".
Proof.
  induction s as [|c s IH]; [reflexivity|]. rewrite lstrip_cons.
  destruct (is_space c) eqn:Hc; [exact IH|]. simpl. rewrite Hc. reflexivity.
Qed.

(** Trimming and collapsing is joining the words by single spaces. *)
Lemma collapse_strip_join (s : string) :
  collapse_ws (strip s) = join " " (split s).
Proof.
  rewrite collapse_ws_join.
  - unfold strip at 1. rewrite <- lstrip_rstrip, lstrip_head, split_strip.
    reflexivity.
  - unfold strip. apply rstrip_idem.
Qed.

Lemma split_lower (s : string) : split (lower s) = map lower (split s).
Proof.
  induction s as [|c s IH]; [reflexivity|].
  change (lower (String c s)) with (String (lower_char c) (lower s)).
  rewrite !split_cons, is_space_lower_char, IH.
  destruct (is_space c); [reflexivity|].
  destruct s as [|c' s']; [reflexivity|].
  change (lower (String c' s')) with (String (lower_char c') (lower s')).
  cbv beta iota. rewrite is_space_lower_char.
  destruct (is_space c'); [reflexivity|].
  destruct (split (String c' s')); reflexivity.
Qed.

Lemma lower_app (a b : string) : lower (a +:+ b) = lower a +:+ lower b.
Proof.
  induction a as [|c a IH]; [reflexivity|].
  rewrite string_app_cons. simpl lower. rewrite IH. reflexivity.
Qed.

Lemma lower_join (ws : list string) :
  lower (join " " ws) = join " " (map lower ws).
Proof.
  induction ws as [|w ws IH]; [reflexivity|].
  destruct ws as [|w2 ws]; [reflexivity|].
  rewrite join_cons2, !lower_app, IH. reflexivity.
Qed.

Section NormFacts.

Context `{PyBuiltins}.

Lemma norm_addr_words (s : string) : norm_addr (CStr s) = join " " (split s).
Proof. unfold norm_addr. simpl. apply collapse_strip_join. Qed.

Lemma norm_words (s : string) : norm (CStr s) = join " " (split (lower s)).
Proof.
  unfold norm. simpl str. rewrite <- strip_lower, split_strip. reflexivity.
Qed.

Lemma join_split_idem (s : string) :
  join " " (split (join " " (split s))) = join " " (split s).
Proof. rewrite split_join; [reflexivity | apply split_words]. Qed.

Lemma header_map_lookup_norms (hs : list cell) (k : string) (idx : nat) :
  header_map hs !! k = Some idx
  <-> (norm <$> hs) !! idx = Some k
      /\ (forall j, (idx < j)%nat -> (norm <$> hs) !! j <> Some k).
Proof.
  rewrite header_map_lookup, list_lookup_fmap. split.
  - intros [(h & Hh & Hk) Hlast]. split; [rewrite Hh, <- Hk; reflexivity|].
    intros j Hj. rewrite list_lookup_fmap.
    destruct (hs !! j) as [h'|] eqn:Hj'; [|discriminate].
    simpl. intros Heq. injection Heq as Heq. exact (Hlast j h' Hj Hj' Heq).
  - intros [Hidx Hlast].
    destruct (hs !! idx) as [h|] eqn:Hh; [|discriminate].
    simpl in Hidx. injection Hidx as Hk. split; [eauto|].
    intros j h' Hj Hj' Heq. apply (Hlast j Hj).
    rewrite list_lookup_fmap, Hj'. simpl. rewrite Heq. reflexivity.
Qed.

(** The header map depends on the headers through their normal forms only. *)
Lemma header_map_norms (hs hs' : list cell) :
  norm <$> hs = norm <$> hs' -> header_map hs = header_map hs'.
Proof.
  intros Hnorms. apply map_eq. intros k. apply option_eq. intros idx.
  rewrite !header_map_lookup_norms, Hnorms. reflexivity.
Qed.

Lemma grab_norms hm row dflt names : forall names',
  map (fun n => norm (CStr n)) names = map (fun n => norm (CStr n)) names' ->
  grab hm row names dflt = grab hm row names' dflt.
Proof.
  induction names as [|n names IH]; intros [|n' names'] Heq;
    try discriminate; [reflexivity|].
  cbn [map] in Heq. injection Heq as Hn Hrest.
  change (norm (CStr n) = norm (CStr n')) in Hn.
  rewrite !grab_cons. unfold usable. rewrite Hn, (IH names' Hrest). reflexivity.
Qed.

End NormFacts.

(** X23.  The normalised address is the words of the address joined by
    single spaces, and the empty text for a missing address.  Normalising
    is idempotent, and two texts get the same normal form, hence the same
    cache entry, exactly when they have the same words. *)
Theorem norm_addr_canonical `{PyBuiltins} :
  (forall v, norm_addr v = if isna v then "" else join " " (split (str v)))
  /\ (forall v, norm_addr (CStr (norm_addr v)) = norm_addr v)
  /\ (forall s t, norm_addr (CStr s) = norm_addr (CStr t) <-> split s = split t).
Proof.
  assert (Hform : forall v,
            norm_addr v = if isna v then "" else join " " (split (str v))).
  { intros v. unfold norm_addr. destruct (isna v); [reflexivity|].
    apply collapse_strip_join. }
  split; [exact Hform|]. split.
  - intros v. rewrite norm_addr_words, (Hform v).
    destruct (isna v); [reflexivity | apply join_split_idem].
  - intros s t. rewrite !norm_addr_words. split.
    + intros Heq. apply (f_equal split) in Heq.
      rewrite !split_join in Heq by apply split_words. exact Heq.
    + intros ->. reflexivity.
Qed.

(** X24.  The normal form of a header is its words in lower case joined by
    single spaces.  Normalising is idempotent, and two texts have the same
    normal form exactly when their lower-case forms have the same words. *)
Theorem norm_canonical `{PyBuiltins} :
  (forall v, norm v = match v with
                      | CNone => ""
                      | _ => join " " (split (lower (str v)))
                      end)
  /\ (forall v, norm (CStr (norm v)) = norm v)
  /\ (forall s t, norm (CStr s) = norm (CStr t)
                  <-> split (lower s) = split (lower t)).
Proof.
  assert (Hform : forall v,
            norm v = match v with
                     | CNone => ""
                     | _ => join " " (split (lower (str v)))
                     end).
  { intros v. unfold norm. destruct v; try reflexivity;
      rewrite <- strip_lower, split_strip; reflexivity. }
  split; [exact Hform|]. split.
  - intros v. rewrite norm_words.
    assert (Hidem : forall x,
              join " " (split (lower (join " " (split (lower x)))))
              = join " " (split (lower x))).
    { intros x. rewrite lower_join, <- split_lower, lower_idem.
      apply join_split_idem. }
    rewrite (Hform v). destruct v; try apply Hidem. reflexivity.
  - intros s t. rewrite !norm_words. split.
    + intros Heq. apply (f_equal split) in Heq.
      rewrite !split_join in Heq by apply split_words. exact Heq.
    + intros ->. reflexivity.
Qed.

(** X25.  Header resolution sees headers and aliases through their normal
    forms only: a sheet whose headers are typed in another case or with
    other spacing, asked with aliases typed another way, gives the same
    cell. *)
Theorem header_lookup_ignores_case_and_spacing `{PyBuiltins}
    (hs hs' row : list cell) (names names' : list string) (dflt : cell) :
  map norm hs = map norm hs' ->
  map (fun n => norm (CStr n)) names = map (fun n => norm (CStr n)) names' ->
  grab (header_map hs) row names dflt = grab (header_map hs') row names' dflt.
Proof.
  intros Hhs Hnames. rewrite (header_map_norms hs hs' Hhs).
  apply grab_norms. exact Hnames.
Qed.

Lemma header_lookup_ignores_case_and_spacing_witness :
  grab (header_map sample_headers) clinic_row ["Name of Service"; "Name"] (CStr "")
  = grab (header_map shouted_headers) clinic_row
      [" name of   SERVICE"; "NAME"] (CStr "").
Proof.
  apply (header_lookup_ignores_case_and_spacing
           sample_headers shouted_headers clinic_row);
    vm_compute; reflexivity.
Defined.

(** X26.  The flag parser looks at the text without its letter case and
    without the white space around it. *)
Theorem to_bool_flag_ignores_case_and_padding `{PyBuiltins} :
  (forall s t, lower s = lower t ->
               to_bool_flag (CStr s) = to_bool_flag (CStr t))
  /\ (forall pad1 s pad2,
        all_space pad1 = true -> all_space pad2 = true ->
        to_bool_flag (CStr (pad1 +:+ s +:+ pad2)) = to_bool_flag (CStr s)).
Proof.
  split.
  - intros s t Hst. unfold to_bool_flag. simpl str.
    rewrite <- !strip_lower, Hst. reflexivity.
  - intros pad1 s pad2 H1 H2. unfold to_bool_flag. simpl str.
    rewrite (strip_pad _ _ _ H1 H2). reflexivity.
Qed.

Lemma to_bool_flag_ignores_case_and_padding_witness :
  to_bool_flag (CStr "TRUE") = to_bool_flag (CStr "true")
  /\ to_bool_flag (CStr (" " +:+ "No" +:+ "  ")) = to_bool_flag (CStr "No").
Proof.
  split.
  - apply (proj1 to_bool_flag_ignores_case_and_padding). vm_compute. reflexivity.
  - apply (proj2 to_bool_flag_ignores_case_and_padding); vm_compute; reflexivity.
Defined.

Section LoadFailureFacts.

Context `{PyBuiltins}.


End LoadFailureFacts.

